(** * Aqua-ML: feature derivation, model selection and sweep engine

    A shallow embedding of the algorithmic core of the Aqua-ML repository
    (src/features.py, src/preprocessing.py, src/estimators.py,
    src/pipelines.py, src/evaluation.py, src/tunning.py and the inference
    script aqua_ml_app.py), followed by the properties established about
    it.

    Conventions of the embedding
    - A float is a rational extended with the two infinities and NaN
      ([num]); IEEE rounding and signed zeros are not modelled.
    - A pandas DataFrame is its ordered column labels plus one finite map
      per row ([DataFrame]); labels are unique, a Series is the list of
      the cells of one column in row order.
    - The nine scores of an evaluated model and the score of a searched
      configuration are finite numbers ([Q]).
    - Third-party behaviour the repository only calls (string to float
      parsing of pandas, repr of a float, fitted pipelines, the random
      sampler of scikit-learn) is a parameter of the definitions. *)

From Stdlib Require Import Ascii String QArith Qabs Lqa Sorting.Sorted Sorting.Permutation.
From stdpp Require Import gmap strings list pretty.

Open Scope string_scope.
Open Scope list_scope.

(** ** Floats and cells *)

Module Pandas.

Inductive num : Type :=
  | Finite (q : Q)
  | Infty (negative : bool)
  | NaN.

Inductive cell : Type :=
  | CNum (x : num)
  | CStr (s : string)
  | CNone.

Definition Qltb (a b : Q) : bool := negb (Qle_bool b a).

(** [a < b] on floats: false as soon as one side is NaN. *)
Definition num_ltb (a b : num) : bool :=
  match a, b with
  | NaN, _ | _, NaN => false
  | Finite x, Finite y => Qltb x y
  | Finite _, Infty neg => negb neg
  | Infty neg, Finite _ => neg
  | Infty n1, Infty n2 => n1 && negb n2
  end.

Definition zero : num := Finite 0.
Definition gt0 (a : num) : bool := num_ltb zero a.
Definition lt0 (a : num) : bool := num_ltb a zero.

Definition is_nan (a : num) : bool :=
  match a with NaN => true | _ => false end.


(** numpy's true division: a zero divisor gives an infinity (or NaN for
    0/0) instead of raising. *)
Definition fdiv (a b : num) : num :=
  match a, b with
  | NaN, _ | _, NaN => NaN
  | Finite x, Finite y =>
      if Qeq_bool y 0
      then (if Qeq_bool x 0 then NaN else Infty (Qltb x 0))
      else Finite (x / y)
  | Finite _, Infty _ => Finite 0
  | Infty n, Finite y => Infty (xorb n (Qltb y 0))
  | Infty _, Infty _ => NaN
  end.

(** What the repository takes from the pandas/Python runtime. *)
Class Runtime := {
  str_to_float : string → num;   (* float parsing of pd.to_numeric; NaN when unparseable *)
  float_repr : Q → string        (* str() of a finite float *)
}.

Section with_runtime.
Context `{Runtime}.

(** [pd.to_numeric(_, errors="coerce")] on one cell. *)
Definition to_numeric (c : cell) : num :=
  match c with
  | CNum x => x
  | CStr s => str_to_float s
  | CNone => NaN
  end.

(** [.astype(str)] on one cell. *)
Definition astype_str (c : cell) : string :=
  match c with
  | CNum (Finite q) => float_repr q
  | CNum (Infty false) => "inf"
  | CNum (Infty true) => "-inf"
  | CNum NaN => "nan"
  | CStr s => s
  | CNone => "None"
  end.

End with_runtime.

Definition isna (c : cell) : bool :=
  match c with
  | CNum NaN | CNone => true
  | _ => false
  end.

(** ** Strings: [str.strip] and [str.upper] on ASCII text *)

Definition is_space (a : ascii) : bool :=
  let n := nat_of_ascii a in
  (Nat.leb 9 n && Nat.leb n 13) || (Nat.leb 28 n && Nat.leb n 32).

Fixpoint lstrip (s : string) : string :=
  match s with
  | String a s' => if is_space a then lstrip s' else s
  | EmptyString => EmptyString
  end.

Definition strip (s : string) : string :=
  String.rev (lstrip (String.rev (lstrip s))).

Definition upper_ascii (a : ascii) : ascii :=
  let n := nat_of_ascii a in
  if Nat.leb 97 n && Nat.leb n 122 then ascii_of_nat (n - 32)%nat else a.

Fixpoint upper (s : string) : string :=
  match s with
  | String a s' => String (upper_ascii a) (upper s')
  | EmptyString => EmptyString
  end.

Definition lower_ascii (a : ascii) : ascii :=
  let n := nat_of_ascii a in
  if Nat.leb 65 n && Nat.leb n 90 then ascii_of_nat (n + 32)%nat else a.

Fixpoint lower (s : string) : string :=
  match s with
  | String a s' => String (lower_ascii a) (lower s')
  | EmptyString => EmptyString
  end.

(** [sub in s] *)
Definition contains (sub s : string) : bool :=
  match String.index 0 sub s with Some _ => true | None => false end.

(** ** Frames *)

Record DataFrame : Type := mkDF {
  columns : list string;
  rows : list (gmap string cell)
}.

Abbreviation Series := (list cell) (only parsing).

(** [c in cols], [c in df.columns] *)
Definition inb (cols : list string) (c : string) : bool :=
  bool_decide (c ∈ cols).

Definition has_col (df : DataFrame) (c : string) : bool :=
  inb (columns df) c.

(** One cell of a row; a label the row does not carry reads as NaN. *)
Definition get (r : gmap string cell) (c : string) : cell :=
  default (CNum NaN) (r !! c).

(** [df[c]] *)
Definition col (df : DataFrame) (c : string) : Series :=
  (λ r, get r c) <$> rows df.

Definition add_label (cs : list string) (c : string) : list string :=
  if bool_decide (c ∈ cs) then cs else cs ++ [c].

(** [df[c] = s]: overwrite the column, or append it as the last one. *)
Definition assign (df : DataFrame) (c : string) (s : Series) : DataFrame :=
  mkDF (add_label (columns df) c)
       (zip_with (λ r v, <[c := v]> r) (rows df) s).

(** [df.loc[mask, c] = s]: a missing column is first created full of NaN,
    then the rows selected by [mask] receive their value. *)
Definition loc_assign (df : DataFrame) (mask : list bool) (c : string)
    (s : Series) : DataFrame :=
  mkDF (add_label (columns df) c)
       (zip_with (λ r (mv : bool * cell),
                    if mv.1 then <[c := mv.2]> r
                    else if has_col df c then r else <[c := CNum NaN]> r)
                 (rows df) (zip mask s)).

(** [df.drop(columns=[c])] on a present label; absent labels are the
    caller's business. *)
Definition drop_column (df : DataFrame) (c : string) : DataFrame :=
  mkDF (filter (λ c', c' ≠ c) (columns df)) (delete c <$> rows df).

(** [df[cs]]: the listed columns, in the listed order. *)
Definition select (df : DataFrame) (cs : list string) : DataFrame :=
  mkDF cs ((λ r, list_to_map ((λ c, (c, get r c)) <$> cs)) <$> rows df).

(** Relabel every column through [f] ([df.rename(columns=...)],
    [df.columns = ...]). *)
Definition relabel (f : string → string) (df : DataFrame) : DataFrame :=
  mkDF (f <$> columns df)
       ((λ r, list_to_map ((λ c, (f c, get r c)) <$> columns df)) <$> rows df).

(** [sort_values]: a stable insertion sort; [le x y] says that [x] may
    stand before [y]. *)
Fixpoint insert_by {A} (le : A → A → bool) (x : A) (l : list A) : list A :=
  match l with
  | [] => [x]
  | y :: l' => if le x y then x :: l else y :: insert_by le x l'
  end.

Definition sort_by {A} (le : A → A → bool) (l : list A) : list A :=
  foldr (insert_by le) [] l.

End Pandas.

(** ** Errors *)

Inductive exn : Type :=
  | KeyError (msg : string)
  | ValueError (msg : string)
  | TypeError (msg : string)
  | IndexError (msg : string)
  | RuntimeError (msg : string).

Inductive result (A : Type) : Type :=
  | Ok (a : A)
  | Raise (e : exn).
Arguments Ok {A} a.
Arguments Raise {A} e.

Definition is_ok {A} (r : result A) : bool :=
  match r with Ok _ => true | Raise _ => false end.

(** ** src/features.py *)

Module Features.
Import Pandas.

#[global] Instance Q_eq_dec : EqDecision Q.
Proof. solve_decision. Defined.
#[global] Instance num_eq_dec : EqDecision num.
Proof. solve_decision. Defined.
#[global] Instance cell_eq_dec : EqDecision cell.
Proof. solve_decision. Defined.

Definition _pharm_data : list (string * Q * Q * Q * Q * Q) :=
  [ ("PHE",  0.85, 0.95, 0.30, 0.78, 1.1156);
    ("APAP", 1.06, 1.63, 1.04, 0.86, 1.1724);
    ("ASA",  0.78, 1.69, 0.71, 0.67, 1.2879);
    ("BENZ", 1.03, 1.31, 0.31, 0.69, 1.3133);
    ("CAF",  1.50, 1.72, 0.05, 1.28, 1.3632);
    ("CIP",  2.20, 2.34, 0.70, 2.52, 2.3040);
    ("CIT",  1.83, 1.99, 0.00, 1.53, 2.5328);
    ("DCF",  1.81, 1.85, 0.55, 0.77, 2.0250);
    ("FLX",  1.23, 1.30, 0.12, 1.03, 2.2403);
    ("IBU",  0.73, 0.70, 0.56, 0.79, 1.7771);
    ("MTZ",  1.12, 1.79, 0.37, 1.04, 1.1919);
    ("NPX",  1.51, 2.02, 0.60, 0.67, 1.7821);
    ("NOR",  1.98, 2.50, 0.05, 2.39, 2.2724);
    ("OTC",  3.60, 3.05, 1.65, 3.50, 3.1579);
    ("SA",   0.90, 0.85, 0.73, 0.37, 0.9904);
    ("SDZ",  2.08, 2.55, 0.65, 1.37, 1.7225);
    ("SMR",  2.10, 2.65, 0.65, 1.42, 1.8634);
    ("SMT",  2.13, 2.53, 0.59, 1.53, 2.0043);
    ("SMX",  1.89, 2.23, 0.58, 1.29, 1.7244);
    ("TC",   3.50, 3.60, 1.35, 3.29, 3.0992);
    ("CBZ",  2.15, 1.90, 0.50, 1.15, 1.8106) ]%Q.

(** [.str.strip().str.upper()] on one cell of a text column. *)
Definition str_strip_upper (c : cell) : cell :=
  match c with
  | CStr s => CStr (upper (strip s))
  | _ => CNum NaN
  end.

Definition _pharm_df : DataFrame :=
  let df :=
    mkDF ["Pharmaceutical_code"; "E"; "S"; "A"; "B"; "V"]
         ((λ '(code, e, s, a, b, v),
             list_to_map
               [ ("Pharmaceutical_code", CStr code);
                 ("E", CNum (Finite e)); ("S", CNum (Finite s));
                 ("A", CNum (Finite a)); ("B", CNum (Finite b));
                 ("V", CNum (Finite v)) ])
            <$> _pharm_data) in
  assign df "pharm_code_norm"
         (str_strip_upper <$> col df "Pharmaceutical_code").

Definition map_cols : list string := ["E"; "S"; "A"; "B"; "V"].

Definition tmp_name (c : string) : string := "__map_" +:+ c.

(** [left.merge(right, on=on, how="left")]: every left row is paired with
    each right row of equal key, or padded with NaN when there is none;
    labels other than the key carried by both sides get the suffixes
    [_x] and [_y]. The key must be a column of both frames. *)
Definition merge_left (left right : DataFrame) (on : string) : DataFrame :=
  let overlap c :=
    bool_decide (c ≠ on) && has_col left c && has_col right c in
  let lname c := if overlap c then c +:+ "_x" else c in
  let rname c := if overlap c then c +:+ "_y" else c in
  let rcols := filter (λ c, c ≠ on) (columns right) in
  let lrow (l : gmap string cell) :=
    (λ c, (lname c, get l c)) <$> columns left in
  let rrow (r : gmap string cell) :=
    (λ c, (rname c, get r c)) <$> rcols in
  let nrow := (λ c, (rname c, CNum NaN)) <$> rcols in
  mkDF ((lname <$> columns left) ++ (rname <$> rcols))
       (flat_map
          (λ l,
             match filter (λ r, get r on = get l on) (rows right) with
             | [] => [list_to_map (lrow l ++ nrow)]
             | ms => (λ r, list_to_map (lrow l ++ rrow r)) <$> ms
             end)
          (rows left)).

Section with_runtime.
Context `{Runtime}.

(** [df[c] = pd.to_numeric(df[c], errors="coerce")] *)
Definition coerce (df : DataFrame) (c : string) : DataFrame :=
  assign df c ((λ v, CNum (to_numeric v)) <$> col df c).

(** features.py, lines 47-72. The reference table is an argument so that
    the module-level [_pharm_df] can be passed by whoever owns it. *)
Definition add_pharm_features_with (pharm_df df : DataFrame)
    : result DataFrame :=
  if negb (has_col df "Target_Phar")
  then Raise (KeyError "Target_Phar kolonu bulunamadı.")
  else
    let df :=
      assign df "pharm_code_norm"
             ((λ v, CStr (upper (strip (astype_str v))))
                <$> col df "Target_Phar") in
    let pharm_merge :=
      relabel (λ c, if bool_decide (c ∈ map_cols) then tmp_name c else c)
              (select pharm_df ("pharm_code_norm" :: map_cols)) in
    Ok (merge_left df pharm_merge "pharm_code_norm").

Definition add_pharm_features : DataFrame → result DataFrame :=
  add_pharm_features_with _pharm_df.

(** [a.fillna(b)] *)
Definition fillna (a b : Series) : Series :=
  zip_with (λ x y, if isna x then y else x) a b.

(** One turn of the first loop of [clean_pharm_features] (lines 82-97). *)
Definition move_tmp (df : DataFrame) (c : string) : DataFrame :=
  let tmpc := tmp_name c in
  if negb (has_col df tmpc) then df
  else
    let df :=
      if has_col df c
      then assign df c
             (fillna ((λ v, CNum (to_numeric v)) <$> col df c)
                     (col df tmpc))
      else assign df c (col df tmpc) in
    drop_column df tmpc.

(** features.py, lines 75-107. *)
Definition clean_pharm_features (df : DataFrame) : DataFrame :=
  let df := foldl move_tmp df map_cols in
  let df := drop_column df "pharm_code_norm" in
  foldl (λ df c, if has_col df c then coerce df c else df) df map_cols.

(** Atomic weights, g/mol. *)
Definition aw_C : num := Finite 12.011.
Definition aw_H : num := Finite 1.008.
Definition aw_O : num := Finite 15.999.
Definition aw_N : num := Finite 14.007.
Definition aw_S : num := Finite 32.06.

Definition ratio_cols : list string :=
  ["C_molar"; "H_C_molar"; "O_C_molar"; "N_C_molar"; "S_C_molar"].

(** The float held by a cell of a numeric column. *)
Definition as_num (c : cell) : num :=
  match c with CNum x => x | _ => NaN end.

(** features.py, lines 126-130: numeric coercion of the five inputs. *)
Definition coerce_inputs (df : DataFrame) : DataFrame :=
  foldl (λ df c, if has_col df c then coerce df c else df) df
        ["C_percent"; "O_percent"; "H_percent"; "N_percent"; "S_percent"].

(** [maskC = df[C].notna() & (df[C] > 0)] *)
Definition maskC (df : DataFrame) : list bool :=
  (λ v, negb (isna v) && gt0 (as_num v)) <$> col df "C_percent".

(** [denom = df.loc[maskC, C] / aw["C"]], kept at full length; only the
    masked positions are ever used. *)
Definition denom (df : DataFrame) : list num :=
  (λ v, fdiv (as_num v) aw_C) <$> col df "C_percent".

(** [if X in df.columns: df.loc[maskC, name] = (df.loc[maskC, X] / aw) / denom] *)
Definition ratio (mask : list bool) (den : list num) (df : DataFrame)
    (X : string) (aw : num) (name : string) : DataFrame :=
  if has_col df X
  then loc_assign df mask name
         (zip_with (λ v d, CNum (fdiv (fdiv (as_num v) aw) d)) (col df X) den)
  else df.

(** features.py, lines 134-150, on a frame that has the carbon column. *)
Definition compute_ratios (df : DataFrame) : DataFrame :=
  let mask := maskC df in
  let den := denom df in
  let df := loc_assign df mask "C_molar" (CNum <$> den) in
  let df := ratio mask den df "H_percent" aw_H "H_C_molar" in
  let df := ratio mask den df "O_percent" aw_O "O_C_molar" in
  let df := ratio mask den df "N_percent" aw_N "N_C_molar" in
  ratio mask den df "S_percent" aw_S "S_C_molar".

(** One turn of the safety loop, lines 153-156:
    [df[r] = pd.to_numeric(df[r]); df.loc[df[r] < 0, r] = 0]. *)
Definition clamp_negative (df : DataFrame) (r : string) : DataFrame :=
  if has_col df r
  then
    let df := coerce df r in
    loc_assign df ((λ v, lt0 (as_num v)) <$> col df r) r
               ((λ _, CNum zero) <$> rows df)
  else df.

Definition clamp_negatives (df : DataFrame) : DataFrame :=
  foldl clamp_negative df ratio_cols.

(** features.py, lines 110-158. *)
Definition add_elemental_ratios (df : DataFrame) : DataFrame :=
  let df := coerce_inputs df in
  if has_col df "C_percent"
  then clamp_negatives (compute_ratios df)
  else df.

End with_runtime.

End Features.

(** ** src/preprocessing.py *)

Module Preprocessing.
Import Pandas Features.

Record DomainFE : Type := {
  num_feats : list string;
  cat_feats : list string;
  target_col : string
}.

(** [df[c] = df[c].astype("category")]: the cells stay, missing ones
    become the NaN category. *)
Definition astype_category (df : DataFrame) (c : string) : DataFrame :=
  assign df c ((λ v, if isna v then CNum NaN else v) <$> col df c).

(** scikit-learn's [train_test_split(X, y, test_size=0.2, random_state=s)]:
    [n_test = ceil(0.2 n)] rows go to the test part, the others to the
    train part, and a ValueError is raised when the train part would be
    empty. [shuffle n] is the seeded permutation of [0..n-1]. *)
Class Sklearn := { shuffle : nat → list nat }.

Definition pick {A} (l : list A) (idx : list nat) : list A :=
  omap (λ i, l !! i) idx.

Definition train_test_split `{Sklearn} {A B} (X : list A) (y : list B)
    : result (list A * list A * list B * list B) :=
  let n := length X in
  let n_test := Nat.div (n + 4) 5 in
  let n_train := (n - n_test)%nat in
  if Nat.eqb n_train 0
  then Raise (ValueError "the resulting train set will be empty")
  else
    let perm := shuffle n in
    let ind_test := take n_test perm in
    let ind_train := take n_train (drop n_test perm) in
    Ok (pick X ind_train, pick X ind_test, pick y ind_train, pick y ind_test).

Definition num_feats_all : list string :=
  [ "Agent/Sample(g/g)";
    "Soaking_Time(min)";
    "Soaking_Temp(K)";
    "Activation_Time(min)";
    "Activation_Temp(K)";
    "Activation_Heating_Rate (K/min)";
    "BET_Surface_Area(m2/g)";
    "Total_Pore_Volume(cm3/g)";
    "Micropore_Volume(cm3/g)";
    "Average_Pore_Diameter(nm)";
    "pHpzc";
    "C_molar"; "H_C_molar"; "O_C_molar"; "N_C_molar"; "S_C_molar";
    "Initial_Concentration(mg/L)";
    "Solution_pH";
    "Temperature(K)";
    "Agitation_speed(rpm)";
    "Dosage(g/L)";
    "Contact_Time(min)";
    "E"; "S"; "A"; "B"; "V" ].

Record MLData : Type := {
  X_train : list (gmap string cell);
  X_test : list (gmap string cell);
  y_train : Series;
  y_test : Series;
  ml_num_feats : list string;
  ml_cat_feats : list string;
  cat_idx_raw : list nat;
  printed : list (list string)      (* the "[Bilgi]" notes written to stdout *)
}.

(** Position of a label in an index ([Index.get_loc]). *)
Fixpoint get_loc (cs : list string) (c : string) : nat :=
  match cs with
  | [] => 0
  | c' :: cs' => if bool_decide (c' = c) then 0 else S (get_loc cs' c)
  end.

Section with_runtime.
Context `{Runtime} `{Sklearn}.

(** preprocessing.py, lines 46-65: [DomainFE.transform]. *)
Definition transform_with (pharm_df : DataFrame) (self : DomainFE)
    (X : DataFrame) : result DataFrame :=
  let df := relabel strip X in
  match add_pharm_features_with pharm_df df with
  | Raise e => Raise e
  | Ok df =>
      let df := clean_pharm_features df in
      let df := add_elemental_ratios df in
      let df :=
        foldl (λ df c, if has_col df c then coerce df c else df)
              df (num_feats self) in
      let df :=
        foldl (λ df c, if has_col df c then astype_category df c else df)
              df (cat_feats self) in
      let use_cols :=
        filter (λ c, c ∈ columns df) (num_feats self ++ cat_feats self) in
      Ok (select df use_cols)
  end.

Definition transform : DomainFE → DataFrame → result DataFrame :=
  transform_with _pharm_df.

(** preprocessing.py, lines 67-168: [prepare_ml_data]. The encoder and
    the column transformer are only constructed, never fitted, and are
    left out of the result. *)
Definition prepare_ml_data (df : DataFrame) (target_col : string)
    : result MLData :=
  let df := relabel strip df in
  if negb (has_col df target_col)
  then Raise (KeyError ("Hedef kolon yok: " +:+ target_col))
  else
    let num_feats := filter (λ c, c ∈ columns df) num_feats_all in
    let missing := filter (λ c, c ∉ columns df) num_feats_all in
    let printed := match missing with [] => [] | _ => [missing] end in
    let cat_feats :=
      if has_col df "Activation_Atmosphere"
      then ["Activation_Atmosphere"] else [] in
    if bool_decide (num_feats = []) && bool_decide (cat_feats = [])
    then Raise (ValueError
                  "Hiç bir özellik bulunamadı (num_feats ve cat_feats boş).")
    else
      let df := foldl coerce df (num_feats ++ [target_col]) in
      let df := foldl astype_category df cat_feats in
      let X := select df (num_feats ++ cat_feats) in
      let y := col df target_col in
      match train_test_split (rows X) y with
      | Raise e => Raise e
      | Ok (Xtr, Xte, ytr, yte) =>
          Ok {| X_train := Xtr; X_test := Xte; y_train := ytr; y_test := yte;
                ml_num_feats := num_feats; ml_cat_feats := cat_feats;
                cat_idx_raw := get_loc (columns X) <$> cat_feats;
                printed := printed |}
      end.

End with_runtime.

End Preprocessing.

(** ** Frames as objects

    The same functions once more, now on a store of frame objects, to
    follow which object every statement writes to. A location is the
    allocation rank of the object. *)

Module Store.
Import Pandas Features Preprocessing.

Abbreviation loc := nat (only parsing).
Abbreviation heap := (list DataFrame) (only parsing).

Definition M (A : Type) : Type := heap → heap * result A.

Definition ret {A} (a : A) : M A := λ h, (h, Ok a).
Definition raise {A} (e : exn) : M A := λ h, (h, Raise e).
Definition bind {A B} (m : M A) (k : A → M B) : M B :=
  λ h, match m h with
       | (h', Ok a) => k a h'
       | (h', Raise e) => (h', Raise e)
       end.

#[global] Instance M_ret : MRet M := @ret.
#[global] Instance M_bind : MBind M := λ A B k m, bind m k.

(** A new object. *)
Definition alloc (d : DataFrame) : M loc := λ h, (h ++ [d], Ok (length h)).

Definition read (l : loc) : M DataFrame :=
  λ h, match h !! l with
       | Some d => (h, Ok d)
       | None => (h, Raise (RuntimeError "dangling reference"))
       end.

(** An in-place statement on the object at [l]. *)
Definition update (l : loc) (f : DataFrame → DataFrame) : M unit :=
  λ h, match h !! l with
       | Some d => (<[l := f d]> h, Ok tt)
       | None => (h, Raise (RuntimeError "dangling reference"))
       end.

(** [df.copy()] *)
Definition copy (l : loc) : M loc := d ← read l; alloc d.

Fixpoint for_each {A} (xs : list A) (body : A → M unit) : M unit :=
  match xs with
  | [] => ret tt
  | x :: xs' => body x;; for_each xs' body
  end.

(** Import of features.py: the reference table becomes an object. *)
Definition import_features : M loc :=
  p ← alloc (mkDF ["Pharmaceutical_code"; "E"; "S"; "A"; "B"; "V"]
               ((λ '(code, e, s, a, b, v),
                   list_to_map
                     [ ("Pharmaceutical_code", CStr code);
                       ("E", CNum (Finite e)); ("S", CNum (Finite s));
                       ("A", CNum (Finite a)); ("B", CNum (Finite b));
                       ("V", CNum (Finite v)) ])
                  <$> _pharm_data));
  update p (λ d, assign d "pharm_code_norm"
                   (str_strip_upper <$> col d "Pharmaceutical_code")) ;;
  ret p.

Section with_runtime.
Context `{Runtime}.
Variable _pharm_df : loc.

Definition add_pharm_features (df : loc) : M loc :=
  df ← copy df;
  d ← read df;
  if negb (has_col d "Target_Phar")
  then raise (KeyError "Target_Phar kolonu bulunamadı.")
  else
    update df (λ d, assign d "pharm_code_norm"
                      ((λ v, CStr (upper (strip (astype_str v))))
                         <$> col d "Target_Phar")) ;;
    t ← read _pharm_df;
    sel ← alloc (select t ("pharm_code_norm" :: map_cols));
    s ← read sel;
    pharm_merge ←
      alloc (relabel (λ c, if bool_decide (c ∈ map_cols)
                           then tmp_name c else c) s);
    l ← read df;
    r ← read pharm_merge;
    alloc (merge_left l r "pharm_code_norm").

Definition clean_pharm_features (df : loc) : M loc :=
  df ← copy df;
  for_each map_cols (λ c, update df (λ d, move_tmp d c)) ;;
  update df (λ d, drop_column d "pharm_code_norm") ;;
  for_each map_cols
    (λ c, update df (λ d, if has_col d c then coerce d c else d)) ;;
  ret df.

Definition add_elemental_ratios (df : loc) : M loc :=
  df ← copy df;
  for_each ["C_percent"; "O_percent"; "H_percent"; "N_percent"; "S_percent"]
    (λ c, update df (λ d, if has_col d c then coerce d c else d)) ;;
  d ← read df;
  if has_col d "C_percent"
  then
    update df compute_ratios ;;
    for_each ratio_cols (λ r, update df (λ d, clamp_negative d r)) ;;
    ret df
  else ret df.

Definition transform (self : DomainFE) (X : loc) : M loc :=
  df ← copy X;
  update df (relabel strip) ;;
  df ← add_pharm_features df;
  df ← clean_pharm_features df;
  df ← add_elemental_ratios df;
  for_each (num_feats self)
    (λ c, update df (λ d, if has_col d c then coerce d c else d)) ;;
  for_each (cat_feats self)
    (λ c, update df (λ d, if has_col d c then astype_category d c else d)) ;;
  d ← read df;
  alloc (select d (filter (λ c, c ∈ columns d)
                          (num_feats self ++ cat_feats self))).

End with_runtime.

End Store.

(** ** src/evaluation.py: ranking and winner *)

Module Evaluation.
Import Pandas.

(** The nine numbers of one row of the result table. *)
Record Metrics : Type := {
  cv_r2 : Q; cv_rmse : Q; cv_mae : Q;
  train_r2 : Q; train_rmse : Q; train_mae : Q;
  test_r2 : Q; test_rmse : Q; test_mae : Q
}.

Record ResultRow : Type := { model : string; metrics : Metrics }.


Section with_pipes.
Context {Pipe : Type}.
(** Cross-validation, fit and scoring of one pipeline on the fixed data:
    the nine numbers of its row. *)
Variable assess : Pipe → Metrics.




End with_pipes.

End Evaluation.

(** ** src/tunning.py *)

Module Tuning.
Import Pandas Evaluation.

Inductive pval : Type :=
  | PInt (z : Z)
  | PNone
  | PStr (s : string).

(** One knob of a search space, as written in the source. *)
Inductive grid : Type :=
  | Choices (vs : list pval)
  | Logspace (a b : Z) (n : nat)        (* np.logspace(a, b, n) *)
  | Linspace (a b : Q) (n : nat).        (* np.linspace(a, b, n) *)


Definition get_param_distributions (model_name : string)
    : list (string * grid) :=
  if String.eqb model_name "HistGBR" then
    [ ("reg__learning_rate", Logspace (-3) (-1) 15);
      ("reg__max_iter", Choices [PInt 300; PInt 500; PInt 800; PInt 1000]);
      ("reg__max_depth", Choices [PNone; PInt 3; PInt 5; PInt 7; PInt 9]);
      ("reg__l2_regularization", Logspace (-8) (-2) 8);
      ("reg__min_samples_leaf",
       Choices [PInt 5; PInt 10; PInt 15; PInt 20; PInt 30]);
      ("reg__max_leaf_nodes",
       Choices [PNone; PInt 31; PInt 63; PInt 127; PInt 255]) ]
  else if String.prefix "LightGBM" model_name then
    [ ("reg__num_leaves", Choices [PInt 31; PInt 63; PInt 127; PInt 255]);
      ("reg__learning_rate", Logspace (-3) (-1) 15);
      ("reg__n_estimators",
       Choices [PInt 600; PInt 900; PInt 1200; PInt 1500]);
      ("reg__boosting_type",
       Choices [PStr (if contains "DART" model_name then "dart" else "gbdt")]) ]
  else if String.eqb model_name "XGBoost-GBTree" then
    [ ("reg__n_estimators",
       Choices [PInt 400; PInt 700; PInt 1000; PInt 1500]);
      ("reg__max_depth", Choices [PInt 3; PInt 5; PInt 7; PInt 9]);
      ("reg__learning_rate", Logspace (-3) (-1) 15);
      ("reg__subsample", Linspace 0.6 1.0 5);
      ("reg__colsample_bytree", Linspace 0.6 1.0 5);
      ("reg__reg_lambda", Logspace (-6) (-1) 10);
      ("reg__booster", Choices [PStr "gbtree"]) ]
  else if String.eqb model_name "CatBoost" then
    [ ("reg__depth", Choices [PInt 4; PInt 6; PInt 8; PInt 10]);
      ("reg__learning_rate", Logspace (-3) (-1) 15);
      ("reg__n_estimators",
       Choices [PInt 600; PInt 900; PInt 1200; PInt 1500]) ]
  else if String.eqb model_name "EBM" then
    [ ("reg__learning_rate", Logspace (-3) (-1) 12);
      ("reg__max_leaves", Choices [PInt 2; PInt 3; PInt 5; PInt 7]);
      ("reg__interactions", Choices [PInt 0; PInt 2; PInt 4]);
      ("reg__max_bins", Choices [PInt 128; PInt 256; PInt 512]) ]
  else [].

(** A configuration: for every knob, the rank of the chosen grid point. *)
Abbreviation Params := (gmap string nat) (only parsing).


(** What scikit-learn's [RandomizedSearchCV] contributes: the seeded
    draw of [n_iter] configurations from the space, the mean 5-fold R2 of
    a pipeline under a configuration on the full data, and the pipeline
    refitted under a configuration. *)
Class Search (Pipe : Type) := {
  sampler : list (string * grid) → nat → Z → list (gmap string nat);
  cv_mean_r2 : Pipe → gmap string nat → Q;
  refit : Pipe → gmap string nat → Pipe
}.

Section with_search.
Context {Pipe : Type} `{Search Pipe}.

Record SearchResult : Type := {
  best_score_ : Q;
  best_params_ : gmap string nat;
  best_estimator_ : Pipe
}.

(** The first configuration of highest score. *)
Definition best_of (score : gmap string nat → Q) (p0 : gmap string nat)
    (ps : list (gmap string nat)) : gmap string nat :=
  foldl (λ b p, if Qltb (score b) (score p) then p else b) p0 ps.

(** [RandomizedSearchCV(estimator, param_distributions, n_iter,
    scoring="r2", cv, refit=True, random_state).fit(X_all, y_all)] *)
Definition randomized_search (estimator : Pipe)
    (param_distributions : list (string * grid)) (n_iter : nat)
    (random_state : Z) : result SearchResult :=
  match sampler param_distributions n_iter random_state with
  | [] => Raise (ValueError "no candidate configuration")
  | p0 :: ps =>
      let best := best_of (cv_mean_r2 estimator) p0 ps in
      Ok {| best_score_ := cv_mean_r2 estimator best;
            best_params_ := best;
            best_estimator_ := refit estimator best |}
  end.

Record HpRow : Type := {
  hp_model : string;
  hp_cv_r2 : option Q;
  hp_best_params : option (gmap string nat)
}.

Record Best : Type := {
  best_name : string;
  best_pipe : Pipe;
  best_score : Q;
  best_best_params : gmap string nat
}.

(** The loop over the top-2 candidates, lines 79-119. [best = None] is
    the initial state [best_score = -inf]. *)
Fixpoint hpo_loop (name2pipe : gmap string Pipe) (n_iter : nat)
    (random_state : Z) (top2 : list string) (best : option Best)
    (hp_results : list HpRow) : result (option Best * list HpRow) :=
  match top2 with
  | [] => Ok (best, hp_results)
  | cand :: rest =>
      match name2pipe !! cand with
      | None =>
          hpo_loop name2pipe n_iter random_state rest best
            (hp_results ++ [ {| hp_model := cand; hp_cv_r2 := None;
                                hp_best_params := None |} ])
      | Some base_pipe =>
          let param_dist := get_param_distributions cand in
          match param_dist with
          | [] =>
              hpo_loop name2pipe n_iter random_state rest best
                (hp_results ++ [ {| hp_model := cand; hp_cv_r2 := None;
                                    hp_best_params := None |} ])
          | _ :: _ =>
              match randomized_search base_pipe param_dist n_iter
                      random_state with
              | Raise e => Raise e
              | Ok rsearch =>
                  let hp_results :=
                    hp_results
                    ++ [ {| hp_model := cand;
                            hp_cv_r2 := Some (best_score_ rsearch);
                            hp_best_params := Some (best_params_ rsearch) |} ]
                  in
                  let improves :=
                    match best with
                    | None => true
                    | Some b => Qltb (best_score b) (best_score_ rsearch)
                    end in
                  let best :=
                    if improves
                    then Some {| best_name := cand;
                                 best_pipe := best_estimator_ rsearch;
                                 best_score := best_score_ rsearch;
                                 best_best_params := best_params_ rsearch |}
                    else best in
                  hpo_loop name2pipe n_iter random_state rest best hp_results
              end
          end
      end
  end.

(** [{name: pipe for (name, pipe) in models if pipe is not None}] *)
Definition name2pipe (models : list (string * option Pipe))
    : gmap string Pipe :=
  foldl (λ m (entry : string * option Pipe),
           match entry.2 with
           | Some pipe => <[entry.1 := pipe]> m
           | None => m
           end) ∅ models.

(** tunning.py, lines 51-146, without the spreadsheet export. *)
Definition run_hpo_top2 (models : list (string * option Pipe))
    (res_sorted : list ResultRow) (random_state : Z) (n_iter : nat)
    : result (Best * list HpRow) :=
  match res_sorted with
  | [] => Raise (RuntimeError "run_hpo_top2: results_sorted boş.")
  | _ :: _ =>
      let top2 := model <$> take 2 res_sorted in
      match hpo_loop (name2pipe models) n_iter random_state top2 None [] with
      | Raise e => Raise e
      | Ok (None, _) =>
          Raise (RuntimeError
                   "run_hpo_top2: HPO sonucunda uygun bir model çıkmadı.")
      | Ok (Some best, hp_results) => Ok (best, hp_results)
      end
  end.

End with_search.

End Tuning.

(** ** aqua_ml_app.py: the single-entry tab *)

Module App.
Import Pandas.

(** What the script is served with: the fitted pipeline applied to a
    one-row frame ([float(pipe.predict(pd.DataFrame([row]))[0])], which
    may raise), Python's [float] on a text, and the name column of the
    drug map. *)
Class Served := {
  predict : gmap string cell → result Q;
  py_float : string → option num;
  display_name : string → option string
}.

(** Keys of [solute_params], in the order of the dict literal. *)
Definition solute_params : list (string * (Q * Q * Q * Q * Q)) :=
  [ ("APAP", (1.16, 1.35, 0.49, 0.20, 1.1566));
    ("ASA",  (1.13, 1.12, 0.72, 0.31, 1.0000));
    ("BENZ", (0.60, 0.90, 0.00, 0.39, 1.0000));
    ("CAF",  (1.50, 1.33, 0.00, 0.64, 1.0000));
    ("CIP",  (1.98, 2.50, 0.05, 2.39, 2.2724));
    ("CIT",  (1.77, 1.96, 0.00, 1.12, 2.0000));
    ("DCF",  (1.28, 1.44, 0.00, 0.68, 1.0000));
    ("FLX",  (1.77, 1.96, 0.00, 1.12, 2.0000));
    ("IBU",  (0.62, 0.79, 0.00, 0.40, 1.0000));
    ("MTZ",  (1.28, 1.44, 0.00, 0.68, 1.0000));
    ("NPX",  (1.51, 2.02, 0.60, 0.67, 1.7821));
    ("NOR",  (1.98, 2.50, 0.05, 2.39, 2.2724));
    ("OTC",  (3.60, 3.05, 1.65, 3.50, 3.1579));
    ("SA",   (0.90, 0.85, 0.73, 0.37, 0.9904));
    ("SDZ",  (2.08, 2.55, 0.65, 1.37, 1.7225));
    ("SMR",  (2.10, 2.65, 0.65, 1.42, 1.8634));
    ("SMT",  (2.13, 2.53, 0.59, 1.53, 2.0043));
    ("SMX",  (1.89, 2.23, 0.58, 1.29, 1.7244));
    ("TC",   (3.50, 3.60, 1.35, 3.29, 3.0992));
    ("CBZ",  (2.15, 1.90, 0.50, 1.15, 1.8106));
    ("PHE",  (0.60, 0.90, 0.00, 0.39, 1.0000)) ]%Q.

Definition synthesis : list string :=
  [ "Agent/Sample(g/g)"; "Soaking_Time(min)"; "Soaking_Temp(K)";
    "Activation_Time(min)"; "Activation_Temp(K)";
    "Activation_Heating_Rate (K/min)" ].

Definition adsorbent : list string :=
  [ "BET_Surface_Area(m2/g)"; "Total_Pore_Volume(cm3/g)";
    "Micropore_Volume(cm3/g)"; "Average_Pore_Diameter(nm)"; "pHpzc";
    "C_percent"; "H_percent"; "O_percent"; "N_percent"; "S_percent" ].

Definition process_ : list string :=
  [ "Solution_pH"; "Temperature(K)"; "Initial_Concentration(mg/L)";
    "Dosage(g/L)"; "Contact_Time(min)"; "Agitation_speed(rpm)" ].

Definition categorical : list string := ["Activation_Atmosphere"].
Definition target_phar : list string := ["Target_Phar"].

(** The sensitivity grids, in the order the script draws them. *)
Definition agent_ratios : list Q :=
  [0.1; 0.2; 0.3; 0.4; 0.5; 0.6; 0.7; 0.8; 0.9; 1.0; 1.2; 1.4; 1.6; 1.8;
   2.0; 2.2; 2.4; 2.6; 2.8; 3.0; 3.2; 3.4; 3.6; 3.8; 4.0; 4.2; 4.4; 4.6;
   4.8; 5.0; 5.5; 6.0; 6.5; 7.0; 7.5; 8.0; 8.5; 9.0; 9.5; 10.0]%Q.
Definition soaking_times : list Q :=
  [30; 45; 60; 75; 90; 105; 120; 135; 150; 165; 180; 195; 210; 225; 240;
   255; 270; 285; 300; 315; 330; 345; 360; 375; 390; 405; 420; 435; 450;
   465; 480; 495; 510; 525; 540; 600; 720; 900; 1200; 1500; 1800; 2000]%Q.
Definition activation_times : list Q :=
  [30; 45; 60; 75; 90; 105; 120; 150; 180; 210; 240; 270; 300; 330; 360]%Q.
Definition activation_temps : list Q :=
  [550; 575; 600; 625; 650; 675; 700; 725; 750; 775; 800; 825; 850; 875;
   900; 925; 950; 975; 1000; 1025; 1050; 1075; 1100; 1125; 1150; 1175;
   1200]%Q.
Definition concentrations : list Q :=
  [50; 100; 150; 200; 250; 300; 350; 400; 450; 500; 600; 700; 800; 900;
   1000; 1200; 1400; 1600; 1800; 2000; 2200; 2400; 2600; 2800; 3000]%Q.
Definition temperatures : list Q :=
  [290; 295; 300; 305; 310; 315; 320; 325; 330; 335; 340]%Q.
Definition ph_values : list Q :=
  [2.0; 2.5; 3.0; 3.5; 4.0; 4.5; 5.0; 5.5; 6.0; 6.5; 7.0; 7.5; 8.0; 8.5;
   9.0; 9.5; 10.0; 10.5; 11.0; 11.5; 12.0]%Q.
Definition dosages : list Q :=
  [0.5; 1.0; 1.5; 2.0; 2.5; 3.0; 3.5; 4.0; 4.5; 5.0; 6.0; 7.0; 8.0; 9.0;
   10.0; 11.0; 12.0; 13.0; 14.0; 15.0; 16.0; 17.0; 18.0; 19.0; 20.0]%Q.
Definition contact_times : list Q :=
  [10; 20; 30; 40; 50; 60; 80; 100; 120; 140; 160; 180; 200; 220; 240;
   260; 280; 300; 320; 340; 360; 380; 400; 420; 440; 460; 480; 500; 600;
   720; 900; 1200; 1500; 1800; 2400; 3000; 3600; 4200; 4800; 5400;
   6000]%Q.

(** What the page shows and does, in order. *)
Inductive ui : Type :=
  | StError (msg : string)
  | StWarning (msg : string)
  | StInfo (msg : string)
  | StSuccess (yhat : Q)
  | BarChart (bars : list (string * string * Q))
  | LineChart (field : string) (points : list (Q * Q))
  | PipePredict (row : gmap string cell)      (* a call of pipe.predict *)
  | Uncaught (e : exn)
  | StStop.

(** Truth value of a Python object ([if not v]). *)
Definition truthy (v : cell) : bool :=
  match v with
  | CNone => false
  | CStr s => negb (String.eqb s EmptyString)
  | CNum (Finite q) => negb (Qeq_bool q 0)
  | CNum _ => true
  end.

Fixpoint replace_comma (s : string) : string :=
  match s with
  | String a s' =>
      String (if Ascii.eqb a "," then "."%char else a) (replace_comma s')
  | EmptyString => EmptyString
  end.

(** The text of an exception. *)
Definition exn_text (e : exn) : string :=
  match e with
  | KeyError m | ValueError m | TypeError m | IndexError m
  | RuntimeError m => m
  end.

Section with_service.
Context `{Served}.

(** [_to_float_or_none] on a text. *)
Definition _to_float_or_none (txt : string) : cell :=
  let txt := replace_comma (strip txt) in
  if String.eqb txt EmptyString then CNone
  else match py_float txt with
       | Some x => CNum x
       | None => CNone
       end.

(** [dict.get(k, None)] *)
Definition dict_get (d : gmap string cell) (k : string) : cell :=
  default CNone (d !! k).

(** Lines 452-457: the submitted row. *)
Definition build_row (vals : gmap string cell) : gmap string cell :=
  list_to_map
    ((λ k, (k, match dict_get vals k with
               | CStr s =>
                   if bool_decide (k ∈ ["Target_Phar"; "Activation_Atmosphere"])
                   then CStr s else _to_float_or_none s
               | v => v
               end))
       <$> synthesis ++ adsorbent ++ process_ ++ categorical ++ target_phar).

(** One sensitivity loop (lines 586-596, 624-634, ..., 816-826, ...):
    the grid is walked in order, a failing point is skipped. *)
Definition test_row (base_params : gmap string cell) (target : cell)
    (field : string) (v : Q) : gmap string cell :=
  <[field := CNum (Finite v)]> (<["Target_Phar" := target]> base_params).

Definition sweep (base_params : gmap string cell) (target : cell)
    (field : string) (grid : list Q) : list (Q * Q) :=
  foldl (λ results v,
           match predict (test_row base_params target field v) with
           | Ok pred_qe => results ++ [(v, pred_qe)]
           | Raise _ => results
           end) [] grid.

(** Lines 517-528: one prediction per known drug code. *)
Definition comparison_results (base_params : gmap string cell)
    : list (string * string * Q) :=
  foldl (λ results (entry : string * (Q * Q * Q * Q * Q)),
           let drug_code := entry.1 in
           match predict (<["Target_Phar" := CStr drug_code]> base_params) with
           | Ok pred_qe =>
               results
               ++ [(drug_code, default drug_code (display_name drug_code),
                    pred_qe)]
           | Raise _ => results
           end) [] solute_params.

(** Line 531: [sort_values('Predicted_qe', ascending=False)]. With a
    single key pandas does not promise an order among equal predictions;
    the stable order is one of the admissible ones. *)
Definition comparison_df (base_params : gmap string cell)
    : list (string * string * Q) :=
  sort_by (λ a b, Qle_bool b.2 a.2) (comparison_results base_params).

Definition sweep_trace (base_params : gmap string cell) (target : cell)
    (field : string) (grid : list Q) : list ui :=
  ((λ v, PipePredict (test_row base_params target field v)) <$> grid)
  ++ match sweep base_params target field grid with
     | [] => []
     | points => [LineChart field points]
     end.

Definition comparison_trace (base_params : gmap string cell) : list ui :=
  flat_map
    (λ entry : string * (Q * Q * Q * Q * Q),
       let test_row := <["Target_Phar" := CStr entry.1]> base_params in
       PipePredict test_row
       :: match predict test_row with
          | Ok _ => []
          | Raise e =>
              [StWarning (entry.1 +:+ " için tahmin yapılamadı: "
                          +:+ exn_text e)]
          end)
    solute_params
  ++ match comparison_results base_params with
     | [] => []
     | _ :: _ => [BarChart (comparison_df base_params)]
     end.

(** Lines 494-500. *)
Definition pore_violation (row : gmap string cell) : bool :=
  match dict_get row "Total_Pore_Volume(cm3/g)",
        dict_get row "Micropore_Volume(cm3/g)" with
  | CNum total_pore, CNum micro_pore =>
      negb (is_nan total_pore) && negb (is_nan micro_pore)
      && num_ltb total_pore micro_pore
  | _, _ => false
  end.

(** Lines 918-925: the message shown for a failed prediction. *)
Definition failure_message (e : exn) : string :=
  let error_msg := exn_text e in
  if contains "NaN" error_msg || contains "missing" (lower error_msg)
     || contains "nan" (lower error_msg)
  then "Bazı gerekli alanlar eksik! Lütfen tüm parametreleri doldurunuz."
  else if contains "cat_feature" (lower error_msg)
          || contains "categorical" (lower error_msg)
  then "Kategorik değişken hatası! Lütfen aktivasyon atmosferini seçtiğinizden emin olun."
  else "Tahmin sırasında bir hata oluştu. Lütfen tüm alanları kontrol ediniz.".

(** Lines 451-928: what pressing the button does. *)
Definition on_submit (vals : gmap string cell) : list ui :=
  let row := build_row vals in
  let X := row in
  let base_params := delete "Target_Phar" row in
  if negb (truthy (dict_get vals "Target_Phar"))
  then [StError "Lütfen bir ilaç seçiniz!"; StStop]
  else if negb (truthy (dict_get vals "Activation_Atmosphere"))
  then [StError "Lütfen aktivasyon atmosferini seçiniz!"; StStop]
  else
    let missing_fields :=
      filter (λ k, isna (dict_get row k) = true)
             (synthesis ++ adsorbent ++ process_) in
    let warned :=
      match missing_fields with
      | [] => []
      | _ :: _ =>
          [StWarning "Uyarı: Bazı alanlar boş. Model tahmin yapacak ancak sonuç eksik veriden etkilenebilir."]
      end in
    if pore_violation row
    then warned
         ++ [StError "Hata: Micropore Volume, Total Pore Volume'den büyük olamaz!";
             StStop]
    else
      let target := dict_get vals "Target_Phar" in
      match match target with CStr code => display_name code | _ => None end
      with
      | None =>
          warned
          ++ [Uncaught (IndexError "single positional indexer is out-of-bounds")]
      | Some selected_display =>
          warned ++ [StInfo selected_display; PipePredict X]
          ++ match predict X with
             | Raise e => [StError (failure_message e)]
             | Ok yhat =>
                 [StSuccess yhat]
                 ++ comparison_trace base_params
                 ++ sweep_trace base_params target "Agent/Sample(g/g)" agent_ratios
                 ++ sweep_trace base_params target "Soaking_Time(min)" soaking_times
                 ++ sweep_trace base_params target "Activation_Time(min)" activation_times
                 ++ sweep_trace base_params target "Activation_Temp(K)" activation_temps
                 ++ sweep_trace base_params target "Initial_Concentration(mg/L)" concentrations
                 ++ sweep_trace base_params target "Temperature(K)" temperatures
                 ++ sweep_trace base_params target "Solution_pH" ph_values
                 ++ sweep_trace base_params target "Dosage(g/L)" dosages
                 ++ sweep_trace base_params target "Contact_Time(min)" contact_times
             end
      end.

End with_service.

End App.

(** * Readings of the code, row by row

    The frame operations of [Features] act on every record alike. The
    definitions below say what they do to one record; the properties are
    stated with them. *)

Import Pandas Features Preprocessing.

(** The row-level effect of [df.loc[mask, c] = v]. *)
Definition upd (present m : bool) (c : string) (v : cell)
    (r : gmap string cell) : gmap string cell :=
  if m then <[c := v]> r
  else if present then r else <[c := CNum NaN]> r.

Section record_level.
Context `{Runtime}.

(** [df[c] = pd.to_numeric(df[c], errors="coerce")] on one row, when the
    column is there ([b]). *)
Definition coerce_row (b : bool) (c : string) (r : gmap string cell)
    : gmap string cell :=
  if b then <[c := CNum (to_numeric (get r c))]> r else r.

(** A negative number becomes zero; NaN and the rest stay. *)
Definition clamp0 (x : num) : num := if lt0 x then zero else x.

(** One turn of the safety loop on one row: coerce, then overwrite a
    negative value by zero. *)
Definition clamp_row (b : bool) (c : string) (r : gmap string cell)
    : gmap string cell :=
  if b
  then upd true (lt0 (to_numeric (get r c))) c (CNum zero)
           (<[c := CNum (to_numeric (get r c))]> r)
  else r.

(** The guard and the carbon molar quantity of one (coerced) row. *)
Definition carbon_ok (r : gmap string cell) : bool :=
  negb (isna (get r "C_percent")) && gt0 (as_num (get r "C_percent")).

(** [denom]: the carbon percentage over the atomic weight of carbon. *)
Definition carbon_molar (r : gmap string cell) : num :=
  fdiv (as_num (get r "C_percent")) aw_C.

(** [df.loc[maskC, name] = (df.loc[maskC, X] / aw) / denom] on one row;
    [r0] is the row as it stood when the mask was computed. *)
Definition ratio_row (cols : list string) (r0 r : gmap string cell)
    (X : string) (aw : num) (name : string) : gmap string cell :=
  if inb cols X
  then upd (inb cols name) (carbon_ok r0) name
           (CNum (fdiv (fdiv (as_num (get r X)) aw) (carbon_molar r0))) r
  else r.

(** Lines 140-150 on one row. *)
Definition compute_row (cols : list string) (r : gmap string cell)
    : gmap string cell :=
  let r1 := upd (inb cols "C_molar") (carbon_ok r) "C_molar"
                (CNum (carbon_molar r)) r in
  let r2 := ratio_row cols r r1 "H_percent" aw_H "H_C_molar" in
  let r3 := ratio_row cols r r2 "O_percent" aw_O "O_C_molar" in
  let r4 := ratio_row cols r r3 "N_percent" aw_N "N_C_molar" in
  ratio_row cols r r4 "S_percent" aw_S "S_C_molar".

(** The type-cleaning loop on one row. *)
Definition coerce_inputs_row (cols : list string) (r : gmap string cell)
    : gmap string cell :=
  foldl (λ r c, coerce_row (inb cols c) c r) r
        ["C_percent"; "O_percent"; "H_percent"; "N_percent"; "S_percent"].

(** The safety loop on one row. *)
Definition clamp_negatives_row (cols : list string) (r : gmap string cell)
    : gmap string cell :=
  foldl (λ r c, clamp_row (inb cols c) c r) r ratio_cols.

(** [add_elemental_ratios], one row at a time. *)
Definition ratios_row (cols pre : list string) (r : gmap string cell)
    : gmap string cell :=
  let r0 := coerce_inputs_row cols r in
  if inb cols "C_percent"
  then clamp_negatives_row pre (compute_row cols r0)
  else r0.

(** The five input columns and, for each ratio, its numerator column,
    atomic weight and name. *)
Definition percent_cols : list string :=
  ["C_percent"; "O_percent"; "H_percent"; "N_percent"; "S_percent"].

Definition ratio_specs : list (string * num * string) :=
  [ ("H_percent", aw_H, "H_C_molar"); ("O_percent", aw_O, "O_C_molar");
    ("N_percent", aw_N, "N_C_molar"); ("S_percent", aw_S, "S_C_molar") ].

(** [x.fillna(y)] on one cell. *)
Definition fill (x y : cell) : cell := if isna x then y else x.

(** The value that one turn of the first loop stores under [c]. *)
Definition moved_value (bc : bool) (r : gmap string cell) (c : string) : cell :=
  if bc then fill (CNum (to_numeric (get r c))) (get r (tmp_name c))
  else get r (tmp_name c).

(** One turn of the first loop of [clean_pharm_features] on one row. *)
Definition move_row (bt bc : bool) (c : string) (r : gmap string cell)
    : gmap string cell :=
  if bt then delete (tmp_name c) (<[c := moved_value bc r c]> r) else r.

(** The normalised code of a record. *)
Definition norm_code (r : gmap string cell) : cell :=
  CStr (upper (strip (astype_str (get r "Target_Phar")))).

(** The frame with its [pharm_code_norm] column. *)
Definition with_code (df : DataFrame) : DataFrame :=
  assign df "pharm_code_norm"
         ((λ v, CStr (upper (strip (astype_str v)))) <$> col df "Target_Phar").

End record_level.

(** [_pharm_df[["pharm_code_norm"] + map_cols].rename(columns=tmp_map)] *)
Definition pharm_merge : DataFrame :=
  relabel (λ c, if bool_decide (c ∈ map_cols) then tmp_name c else c)
          (select _pharm_df ("pharm_code_norm" :: map_cols)).

(** The five temporary labels. *)
Definition tmp_cols : list string := tmp_name <$> map_cols.


(** The row that a left join builds from a left row and its match. *)
Definition joined_row (lcols rcols : list string) (l : gmap string cell)
    (m : option (gmap string cell)) : gmap string cell :=
  list_to_map
    (((λ c, (c, get l c)) <$> lcols)
     ++ ((λ c, (c, match m with Some t => get t c | None => CNum NaN end))
           <$> rcols)).


(** The feature lists and the note of [prepare_ml_data], read off the
    trimmed labels. *)
Definition resolved_num_feats (df : DataFrame) : list string :=
  filter (λ c, c ∈ strip <$> columns df) num_feats_all.

Definition missing_num_feats (df : DataFrame) : list string :=
  filter (λ c, c ∉ strip <$> columns df) num_feats_all.

Definition resolved_cat_feats (df : DataFrame) : list string :=
  if bool_decide ("Activation_Atmosphere" ∈ strip <$> columns df)
  then ["Activation_Atmosphere"] else [].

(** ** Ranking *)

Import Evaluation.


Section evaluation_loop.
Context {Pipe : Type} (assess : Pipe → Metrics).


End evaluation_loop.

(** ** Search *)

Import Tuning.

Section search_draws.
Context {Pipe : Type} `{Search Pipe}.


End search_draws.

(** ** The page *)

Import App.

(** Kinds of page events. *)
Definition calls_predict (u : ui) : bool :=
  match u with PipePredict _ => true | _ => false end.

Definition shows_result (u : ui) : bool :=
  match u with
  | StSuccess _ | BarChart _ | LineChart _ _ => true
  | _ => false
  end.

Definition is_warning (u : ui) : bool :=
  match u with StWarning _ => true | _ => false end.

Definition is_failure (u : ui) : bool :=
  match u with StError _ | Uncaught _ | StStop => true | _ => false end.

(** [sort_values('Predicted_qe', ascending=False)]: [a] may stand before
    [b]. *)
Definition by_prediction_desc (a b : string * string * Q) : bool :=
  Qle_bool b.2 a.2.

Section one_point.
Context `{Served}.

(** What one grid point contributes to a sweep. *)
Definition sweep_point (base_params : gmap string cell) (target : cell)
    (field : string) (v : Q) : option (Q * Q) :=
  match predict (test_row base_params target field v) with
  | Ok pred_qe => Some (v, pred_qe)
  | Raise _ => None
  end.

(** What one drug code contributes to the comparison. *)
Definition comparison_point (base_params : gmap string cell)
    (entry : string * (Q * Q * Q * Q * Q)) : option (string * string * Q) :=
  match predict (<["Target_Phar" := CStr entry.1]> base_params) with
  | Ok pred_qe =>
      Some (entry.1, default entry.1 (display_name entry.1), pred_qe)
  | Raise _ => None
  end.

End one_point.

(** * Concrete inputs *)

(** A runtime for frames that hold numbers only: no text is ever parsed. *)
Definition numeric_runtime : Runtime :=
  {| str_to_float := λ _, NaN; float_repr := λ _, EmptyString |}.

(** One record with a negative hydrogen percentage; one that already
    carries a ratio and has no carbon; one good and one carbon-free record. *)
Definition df_negative_H : DataFrame :=
  mkDF ["C_percent"; "H_percent"]
       [ {[ "C_percent" := CNum (Finite 12.011);
            "H_percent" := CNum (Finite (-1.008)) ]} ].



(** A record that brings its own E beside a known code written with
    blanks and in lower case, and the same record without E. *)
Definition df_carried_E : DataFrame :=
  mkDF ["Target_Phar"; "E"]
       [ {[ "Target_Phar" := CStr " cip "; "E" := CNum (Finite 9.99) ]} ].

Definition df_known_code : DataFrame :=
  mkDF ["Target_Phar"] [ {[ "Target_Phar" := CStr " cip " ]} ].

(** A deriver that keeps the descriptor E only. *)
Definition fe_E_only : DomainFE :=
  {| num_feats := ["E"]; cat_feats := []; target_col := "qe(mg/g)" |}.




(** A served model that always answers 42, and a form whose micropore
    volume exceeds the total pore volume. *)
Definition constant_service : Served :=
  {| predict := λ _, Ok 42%Q;
     py_float := λ _, None;
     display_name := λ code, Some code |}.

Definition form_with_large_micropore : gmap string cell :=
  list_to_map
    [ ("Target_Phar", CStr "CIP");
      ("Activation_Atmosphere", CStr "N2");
      ("Total_Pore_Volume(cm3/g)", CNum (Finite 0.5));
      ("Micropore_Volume(cm3/g)", CNum (Finite 0.8)) ].

(** The seeded permutation taken as the identity. *)
Definition identity_shuffle : Sklearn := {| shuffle := seq 0 |}.


Definition df_five_rows : DataFrame :=
  mkDF [" pHpzc"; "qe(mg/g) "]
       ((λ q, list_to_map [(" pHpzc", CNum (Finite 7));
                           ("qe(mg/g) ", CNum (Finite q))])
          <$> [10; 20; 30; 40; 50]%Q).

(** A search whose draws never contain the configuration the candidates
    were first scored with: every knob stands at rank 0, except the
    learning rate, which takes the ranks 2, 3, ... in turn. The first
    configuration, every knob at rank 1, scores 0.9, any other 0.5. *)
Definition config_at (dist : list (string * grid)) (rate other : nat)
    : gmap string nat :=
  list_to_map
    ((λ kg : string * grid,
        (kg.1, if String.eqb kg.1 "reg__learning_rate" then rate else other))
       <$> dist).

Definition presearch_config (cand : string) : gmap string nat :=
  config_at (get_param_distributions cand) 1 1.

Definition narrow_search : Search string :=
  {| sampler := λ dist n_iter _, (λ i, config_at dist (2 + i) 0) <$> seq 0 n_iter;
     cv_mean_r2 := λ _ p,
       if bool_decide (p !! "reg__learning_rate" = Some 1%nat)
       then 0.9%Q else 0.5%Q;
     refit := λ pipe _, pipe |}.

(** A ranking table whose cross-validated R2 is the score of the first
    configuration. *)
Definition metrics_with_cv_r2 (q : Q) : Metrics :=
  {| cv_r2 := q; cv_rmse := 1 - q; cv_mae := 0;
     train_r2 := 0; train_rmse := 0; train_mae := 0;
     test_r2 := 0; test_rmse := 0; test_mae := 0 |}.

Definition two_pipes : list (string * option string) :=
  [("CatBoost", Some "CatBoost"); ("HistGBR", Some "HistGBR")].

Definition ranked_two : list ResultRow :=
  [ {| model := "CatBoost";
       metrics := metrics_with_cv_r2 (@cv_mean_r2 _ narrow_search "CatBoost"
                                        (presearch_config "CatBoost")) |};
    {| model := "HistGBR";
       metrics := metrics_with_cv_r2 (@cv_mean_r2 _ narrow_search "HistGBR"
                                        (presearch_config "HistGBR")) |} ].

(** ** src/estimators.py: the wrappers' parameters *)

Module Estimators.
Import Pandas Preprocessing.

(** An entry of a [cat_features] list: a column label or a position. *)
Inductive feature_ref : Type :=
  | ByName (label : string)
  | ByPos (i : nat).

Record CatBoostSk : Type := {
  cb_depth : Z;
  cb_learning_rate : Q;
  cb_n_estimators : Z;
  cb_random_state : Z;
  cb_verbose : bool;
  cb_allow_writing_files : bool;
  cb_cat_features : option (list feature_ref)
}.

(** [CatBoostSk(cat_features=...)], the other parameters at their
    defaults. *)
Definition CatBoostSk_init (cat_features : option (list feature_ref))
    : CatBoostSk :=
  {| cb_depth := 8; cb_learning_rate := 0.05; cb_n_estimators := 1200;
     cb_random_state := 42; cb_verbose := false;
     cb_allow_writing_files := false; cb_cat_features := cat_features |}.

Record LGBMSk : Type := {
  lgbm_boosting_type : string;
  lgbm_num_leaves : Z;
  lgbm_learning_rate : Q;
  lgbm_n_estimators : Z;
  lgbm_random_state : Z;
  lgbm_categorical_feature : option (list feature_ref)
}.

Definition LGBMSk_init (boosting_type : string)
    (categorical_feature : option (list feature_ref)) : LGBMSk :=
  {| lgbm_boosting_type := boosting_type; lgbm_num_leaves := 63;
     lgbm_learning_rate := 0.05; lgbm_n_estimators := 1500;
     lgbm_random_state := 42;
     lgbm_categorical_feature := categorical_feature |}.

Record XGBSk : Type := {
  xgb_n_estimators : Z;
  xgb_max_depth : Z;
  xgb_learning_rate : Q;
  xgb_subsample : Q;
  xgb_colsample_bytree : Q;
  xgb_reg_lambda : Q;
  xgb_booster : string;
  xgb_random_state : Z;
  xgb_enable_categorical : bool
}.

Definition XGBSk_init : XGBSk :=
  {| xgb_n_estimators := 1500; xgb_max_depth := 8;
     xgb_learning_rate := 0.05; xgb_subsample := 0.8;
     xgb_colsample_bytree := 0.8; xgb_reg_lambda := 1.0;
     xgb_booster := "gbtree"; xgb_random_state := 42;
     xgb_enable_categorical := true |}.

(** [X.columns.get_loc(c)] on an index of text labels: KeyError for a
    label that is not there. *)
Definition columns_get_loc (cols : list string) (c : feature_ref)
    : result nat :=
  match c with
  | ByName label =>
      if inb cols label then Ok (get_loc cols label)
      else Raise (KeyError label)
  | ByPos i => Raise (KeyError (pretty i))
  end.

(** [[f(c) for c in cf]]: left to right, the first error ends it. *)
Fixpoint comprehension {A B} (f : A → result B) (l : list A)
    : result (list B) :=
  match l with
  | [] => Ok []
  | x :: l' =>
      match f x with
      | Raise e => Raise e
      | Ok y =>
          match comprehension f l' with
          | Raise e => Raise e
          | Ok ys => Ok (y :: ys)
          end
      end
  end.

(** [CatBoostSk.fit], lines 54-60: the [cat_features] handed to the
    inner model for a frame with columns [cols]. *)
Definition fit_cat_features (cols : list string)
    (cat_features : option (list feature_ref))
    : result (option (list feature_ref)) :=
  match cat_features with
  | None => Ok None
  | Some cf =>
      match cf with
      | ByName _ :: _ =>
          match comprehension (columns_get_loc cols) cf with
          | Raise e => Raise e
          | Ok idx => Ok (Some (ByPos <$> idx))
          end
      | _ => Ok (Some cf)
      end
  end.

End Estimators.

(** ** src/config.py and src/pipelines.py: the model pool *)

Module Pipelines.
Import Pandas Preprocessing Estimators.

(** [have.get(k, False)] *)
Definition have_get (have : gmap string bool) (k : string) : bool :=
  default false (have !! k).

Inductive regressor : Type :=
  | RegCatBoost (m : CatBoostSk)
  | RegLGBM (m : LGBMSk)
  | RegXGB (m : XGBSk)
  | HistGradientBoostingRegressor (max_depth : option Z) (learning_rate : Q)
      (max_iter : Z) (random_state : Z)
  | ExplainableBoostingRegressor (interactions max_leaves : Z)
      (learning_rate : Q) (max_bins random_state : Z).

Section with_encoder.
(** The column transformer with the one-hot encoder is built by the
    caller and only placed in the pipelines. *)
Context {Encoder : Type}.

Inductive step : Type :=
  | Fe (fe : DomainFE)
  | Pre (pre : Encoder)
  | Reg (reg : regressor).

(** [DomainFE(num_feats=..., cat_feats=...)] *)
Definition DomainFE_init (num_feats cat_feats : list string) : DomainFE :=
  {| num_feats := num_feats; cat_feats := cat_feats;
     target_col := "qe(mg/g)" |}.

(** pipelines.py, lines 21-115. [RANDOM_STATE] is 42. *)
Definition build_model_pool (have : gmap string bool) (pre_ohe : Encoder)
    (num_feats cat_feats : list string)
    : list (string * option (list (string * step))) :=
  let fe := ("fe", Fe (DomainFE_init num_feats cat_feats)) in
  let names := Some (ByName <$> cat_feats) in
  let models := [] in
  let models :=
    models ++
    [ if have_get have "catboost"
      then ("CatBoost",
            Some [fe; ("reg", Reg (RegCatBoost (CatBoostSk_init names)))])
      else ("CatBoost (skipped)", None) ] in
  let models :=
    models ++
    [ if have_get have "lightgbm"
      then ("LightGBM-GBDT",
            Some [fe; ("reg", Reg (RegLGBM (LGBMSk_init "gbdt" names)))])
      else ("LightGBM-GBDT (skipped)", None) ] in
  let models :=
    models ++
    [ if have_get have "xgboost"
      then ("XGBoost-GBTree", Some [fe; ("reg", Reg (RegXGB XGBSk_init))])
      else ("XGBoost-GBTree (skipped)", None) ] in
  let models :=
    models ++
    [ ("HistGBR",
       Some [fe; ("pre", Pre pre_ohe);
             ("reg", Reg (HistGradientBoostingRegressor None 0.08 500 42))]) ]
  in
  let models :=
    models ++
    [ if have_get have "ebm"
      then ("EBM",
            Some [fe; ("pre", Pre pre_ohe);
                  ("reg", Reg (ExplainableBoostingRegressor 0 3 0.05 256 42))])
      else ("EBM (skipped)", None) ] in
  let models :=
    models ++
    [ if have_get have "lightgbm"
      then ("LightGBM-DART",
            Some [fe; ("reg", Reg (RegLGBM (LGBMSk_init "dart" names)))])
      else ("LightGBM-DART (skipped)", None) ] in
  models.

End with_encoder.

Arguments step : clear implicits.

End Pipelines.

(** ** Further readings *)

Section evaluated_rows.
Context {Pipe : Type} (assess : Pipe → Metrics).


End evaluated_rows.
Section typed.
Context `{Runtime}.

(** The table of [prepare_ml_data] after its type conversions (step 3),
    and the feature table [X] cut from it (step 4). *)
Definition typed_frame (df : DataFrame) (target_col : string) : DataFrame :=
  foldl astype_category
        (foldl coerce (relabel strip df)
               (resolved_num_feats df ++ [target_col]))
        (resolved_cat_feats df).

Definition feature_frame (df : DataFrame) (target_col : string)
    : DataFrame :=
  select (typed_frame df target_col)
         (resolved_num_feats df ++ resolved_cat_feats df).

End typed.
Section search_report.
Context {Pipe : Type} `{Search Pipe}.

(** A candidate the search passes over: no pipeline under its name, or
    no search space. *)
Definition passed_over (name2pipe : gmap string Pipe) (cand : string)
    : Prop :=
  name2pipe !! cand = None ∨ get_param_distributions cand = [].

(** What holds of the best candidate so far and the report rows written
    so far, at every turn of the loop of [run_hpo_top2]. *)
Definition report_inv (name2pipe : gmap string Pipe)
    (best : option (@Best Pipe)) (hp_results : list HpRow) : Prop :=
  (∀ row s, row ∈ hp_results → hp_cv_r2 row = Some s →
     ∃ b, best = Some b ∧ (s <= best_score b)%Q)
  ∧ (∀ b, best = Some b →
       ∃ row, row ∈ hp_results ∧ hp_model row = Tuning.best_name b
              ∧ hp_cv_r2 row = Some (best_score b)
              ∧ hp_best_params row = Some (best_best_params b))
  ∧ (∀ row, row ∈ hp_results →
       hp_cv_r2 row = None ↔ passed_over name2pipe (hp_model row)).

End search_report.
(** The fields the nine sensitivity loops vary, in the order of the
    page. *)
Definition swept_fields : list string :=
  [ "Agent/Sample(g/g)"; "Soaking_Time(min)"; "Activation_Time(min)";
    "Activation_Temp(K)"; "Initial_Concentration(mg/L)"; "Temperature(K)";
    "Solution_pH"; "Dosage(g/L)"; "Contact_Time(min)" ].

Section submitted.
Context `{Served}.

(** The name shown for the chosen drug: [.iloc[0]] of the matching rows
    of the drug map, if there is one. *)
Definition selected_display (vals : gmap string cell) : option string :=
  match dict_get vals "Target_Phar" with
  | CStr code => display_name code
  | _ => None
  end.

(** Drug and atmosphere chosen, pore volumes consistent, drug known to
    the drug map: the tests the page makes before it predicts. *)
Definition accepted (vals : gmap string cell) : bool :=
  truthy (dict_get vals "Target_Phar")
  && truthy (dict_get vals "Activation_Atmosphere")
  && negb (pore_violation (build_row vals))
  && bool_decide (is_Some (selected_display vals)).

End submitted.
(** A form with drug and atmosphere chosen and one numeric field filled,
    and a served model that fails on every record. *)
Definition form_minimal : gmap string cell :=
  list_to_map
    [ ("Target_Phar", CStr "CIP");
      ("Activation_Atmosphere", CStr "N2");
      ("Solution_pH", CNum (Finite 7)) ].


(** ** src/evaluation.py: file names that overwrite nothing *)

Module Paths.

(** A path is its directory and its final component; the file system is
    the set of the path texts that exist. *)
Record Path : Type := { parent : string; name : string }.

Definition path_text (p : Path) : string := parent p +:+ "/" +:+ name p.

(** [p.exists()] *)
Definition exists_ (fs : gset string) (p : Path) : bool :=
  bool_decide (path_text p ∈ fs).

(** The final component cut at its last point: what stands before the
    point, and the rest from the point on. *)
Fixpoint rsplit_dot (s : string) : option (string * string) :=
  match s with
  | EmptyString => None
  | String a s' =>
      match rsplit_dot s' with
      | Some (pre, suf) => Some (String a pre, suf)
      | None => if Ascii.eqb a "." then Some (EmptyString, s) else None
      end
  end.

(** [p.suffix] and [p.stem]: a leading or a trailing point starts no
    suffix. *)
Definition suffix (p : Path) : string :=
  match rsplit_dot (name p) with
  | Some (pre, suf) =>
      if String.eqb pre EmptyString || String.eqb suf "." then EmptyString
      else suf
  | None => EmptyString
  end.

Definition stem (p : Path) : string :=
  match rsplit_dot (name p) with
  | Some (pre, suf) =>
      if String.eqb pre EmptyString || String.eqb suf "." then name p
      else pre
  | None => name p
  end.

(** [p.with_name(f"{stem}__v{k}{suffix}")] *)
Definition versioned (p : Path) (k : nat) : Path :=
  {| parent := parent p;
     name := stem p +:+ "__v" +:+ pretty k +:+ suffix p |}.

(** The [while True] loop of [_unique_path], from version [k] on, cut
    off after [fuel] turns. *)
Fixpoint first_free (fs : gset string) (p : Path) (k fuel : nat)
    : option Path :=
  match fuel with
  | O => None
  | S fuel' =>
      let cand := versioned p k in
      if negb (exists_ fs cand) then Some cand
      else first_free fs p (S k) fuel'
  end.

(** evaluation.py, lines 27-37. *)
Definition _unique_path (fuel : nat) (fs : gset string) (p : Path)
    : option Path :=
  if negb (exists_ fs p) then Some p else first_free fs p 2 fuel.

End Paths.

(** ** src/evaluation.py: out-of-fold errors *)

Module Oof.
Import Pandas.







(** The finite edges of [bins]; the last edge is [np.inf]. *)
Definition bin_edges : list Q := [0; 5; 10; 15; 20; 30; 50; 100]%Q.


(** [pd.cut(ape, bins, right=False)] on one value: the rank of its bin.
    [searchsorted(side="right")] counts the edges that do not exceed the
    value; a count of 0 or of all nine edges is out of range. *)
Definition cut (x : num) : option nat :=
  match x with
  | Finite q =>
      match length (filter (λ e, Qle_bool e q = true) bin_edges) with
      | O => None
      | S k => Some k
      end
  | _ => None
  end.


End Oof.

(** A figure path, and a directory that holds the figure and its
    second version. *)
Definition fig_path : Paths.Path :=
  {| Paths.parent := "figures"; Paths.name := "oof_error_bins__PRE__EBM.png" |}.

Definition two_figures : gset string :=
  {[ "figures/oof_error_bins__PRE__EBM.png";
     "figures/oof_error_bins__PRE__EBM__v2.png" ]}.

(** ** aqua_ml_app.py: the upload tab *)

Module Batch.
Import Pandas.

(** What the tab is served with: the fitted pipeline applied to a whole
    frame ([pipe.predict(X)], which may raise). *)
Class ServedFrame := {
  predict_frame : DataFrame → result (list Q)
}.

Definition required_cols : list string :=
  ["Target_Phar"; "Activation_Atmosphere"].

(** The tuple handed to [str.startswith] on line 1011. *)
Definition known_prefixes : list string :=
  [ "Agent"; "Soaking"; "Activation"; "BET"; "Total"; "Micropore";
    "Average"; "pHpzc"; "C_percent"; "H_percent"; "O_percent"; "N_percent";
    "S_percent"; "Solution"; "Temperature"; "Initial"; "Dosage"; "Contact";
    "Agitation" ].

(** [c.startswith(prefixes)] *)
Definition startswith (prefixes : list string) (c : string) : bool :=
  existsb (λ p, String.prefix p c) prefixes.

(** Line 378. *)
Definition align_and_cast (df : DataFrame) : DataFrame := df.

(** [df.head(n)] *)
Definition head (n : nat) (df : DataFrame) : DataFrame :=
  mkDF (columns df) (take n (rows df)).

(** What the tab shows and does, in order. *)
Inductive ui : Type :=
  | StInfo (msg : string)
  | MissingRequired (cols : list string)     (* st.error, line 1007 *)
  | Unrecognised (cols : list string)        (* st.warning, line 1013 *)
  | PipePredict (X : DataFrame)              (* a call of pipe.predict *)
  | PredictFailed (e : exn)                  (* st.error, line 1020 *)
  | StSuccess (n : nat)
  | StDataframe (shown : DataFrame)
  | Download (file_name : string) (out : DataFrame)
  | Uncaught (e : exn)
  | StStop.

Section with_service.
Context `{ServedFrame}.

(** Lines 1002-1048: what the tab does with a frame that was read. A
    list of predictions whose length is not the number of records cannot
    be stored as a column: the assignment of line 1024 raises. *)
Definition on_upload (df : DataFrame) : list ui :=
  StInfo "Not: Model pipeline'ı tüm preprocessing'i yapacak (percent→molar, solute params, vs.)"
  ::
  let missing_required := filter (λ col, col ∉ columns df) required_cols in
  match missing_required with
  | _ :: _ =>
      [ MissingRequired missing_required;
        StInfo "Excel'inizde Target_Phar ve Activation_Atmosphere kolonları olmalı.";
        StStop ]
  | [] =>
      let extra :=
        filter (λ c, (c ∉ required_cols) ∧ startswith known_prefixes c = false)
               (columns df) in
      let warned :=
        match extra with [] => [] | _ :: _ => [Unrecognised extra] end in
      let X := align_and_cast df in
      warned
      ++ PipePredict X
         :: match predict_frame X with
            | Raise e => [PredictFailed e; StStop]
            | Ok yhat =>
                if bool_decide (length yhat = length (rows df))
                then
                  let out :=
                    assign df "Pred_qe" ((λ y, CNum (Finite y)) <$> yhat) in
                  [ StSuccess (length (rows out));
                    StDataframe (head 20 out);
                    Download "aquaml_predictions.csv" out;
                    Download "aquaml_predictions.xlsx" out ]
                else
                  [ Uncaught (ValueError
                      "Length of values does not match length of index") ]
            end
  end.

End with_service.

End Batch.


Definition upload_shows_result (u : Batch.ui) : bool :=
  match u with
  | Batch.StSuccess _ | Batch.StDataframe _ | Batch.Download _ _ => true
  | _ => false
  end.

(** An uploaded table with an unrecognised column, and a pipeline that
    answers 42 for every record. *)
Definition df_upload : DataFrame :=
  mkDF ["Target_Phar"; "Activation_Atmosphere"; "Solution_pH"; "Remark"]
       [ {[ "Target_Phar" := CStr "CIP"; "Activation_Atmosphere" := CStr "N2";
            "Solution_pH" := CNum (Finite 7); "Remark" := CStr "first" ]};
         {[ "Target_Phar" := CStr "SMX"; "Activation_Atmosphere" := CStr "Air";
            "Solution_pH" := CNum (Finite 6.5); "Remark" := CStr "second" ]} ].

Definition constant_frame_service : Batch.ServedFrame :=
  {| Batch.predict_frame := λ X, Ok ((λ _, 42%Q) <$> rows X) |}.

(** * Properties *)

Set Warnings "-clear-no-such-hyp".

(** ** Frames, row by row *)

Lemma elem_of_add_label (cs : list string) (c c' : string) :
  c' ∈ add_label cs c ↔ c' = c ∨ c' ∈ cs.
Proof.
  unfold add_label. case_bool_decide as Hc.
  - split; [auto | intros [->|?]; auto].
  - rewrite elem_of_app, list_elem_of_singleton. tauto.
Qed.

Lemma add_label_present (cs : list string) (c : string) :
  c ∈ cs → add_label cs c = cs.
Proof. intros Hc. unfold add_label. by rewrite bool_decide_eq_true_2. Qed.

Lemma has_col_spec (df : DataFrame) (c : string) :
  has_col df c = true ↔ c ∈ columns df.
Proof. unfold has_col, inb. apply bool_decide_eq_true. Qed.

Lemma has_col_inb (df : DataFrame) (c : string) :
  has_col df c = inb (columns df) c.
Proof. reflexivity. Qed.

Lemma inb_spec (cs : list string) (c : string) : inb cs c = true ↔ c ∈ cs.
Proof. unfold inb. apply bool_decide_eq_true. Qed.

Lemma get_insert_eq (r : gmap string cell) (c : string) (v : cell) :
  get (<[c := v]> r) c = v.
Proof. unfold get. by rewrite lookup_insert_eq. Qed.

Lemma get_insert_ne (r : gmap string cell) (c c' : string) (v : cell) :
  c ≠ c' → get (<[c := v]> r) c' = get r c'.
Proof. intros Hne. unfold get. by rewrite lookup_insert_ne. Qed.

Lemma get_delete_ne (r : gmap string cell) (c c' : string) :
  c ≠ c' → get (delete c r) c' = get r c'.
Proof. intros Hne. unfold get. by rewrite lookup_delete_ne. Qed.

Section over_an_index.
Context {A : Type} (l : list A).

Lemma col_fmap (df : DataFrame) (φ : A → gmap string cell) (c : string) :
  rows df = φ <$> l → col df c = (λ x, get (φ x) c) <$> l.
Proof. intros Hr. unfold col. rewrite Hr. by rewrite <- list_fmap_compose. Qed.

Lemma zip_with_fmap_same {B C D} (f : B → C → D) (g : A → B) (h : A → C) :
  zip_with f (g <$> l) (h <$> l) = (λ x, f (g x) (h x)) <$> l.
Proof. induction l as [|x l' IH]; [done | csimpl; by f_equal]. Qed.

Lemma rows_assign_fmap (df : DataFrame) (φ : A → gmap string cell)
    (c : string) (v : A → cell) :
  rows df = φ <$> l →
  rows (assign df c (v <$> l)) = (λ x, <[c := v x]> (φ x)) <$> l.
Proof. intros Hr. unfold assign; cbn [rows]. rewrite Hr. by rewrite zip_with_fmap_same. Qed.

Lemma rows_loc_assign_fmap (df : DataFrame) (φ : A → gmap string cell)
    (m : A → bool) (c : string) (v : A → cell) :
  rows df = φ <$> l →
  rows (loc_assign df (m <$> l) c (v <$> l))
  = (λ x, upd (has_col df c) (m x) c (v x) (φ x)) <$> l.
Proof.
  intros Hr. unfold loc_assign; cbn [rows]. rewrite Hr.
  by rewrite !zip_with_fmap_same.
Qed.

End over_an_index.

Lemma has_col_assign (df : DataFrame) (c c' : string) (s : Series) :
  has_col (assign df c s) c' = bool_decide (c' = c) || has_col df c'.
Proof.
  apply eq_true_iff_eq. rewrite orb_true_iff, !has_col_spec, bool_decide_eq_true.
  apply elem_of_add_label.
Qed.

Lemma has_col_loc_assign (df : DataFrame) (m : list bool) (c c' : string)
    (s : Series) :
  has_col (loc_assign df m c s) c' = bool_decide (c' = c) || has_col df c'.
Proof.
  apply eq_true_iff_eq. rewrite orb_true_iff, !has_col_spec, bool_decide_eq_true.
  apply elem_of_add_label.
Qed.

Lemma get_upd_eq (p m : bool) (c : string) (v : cell) (r : gmap string cell) :
  get (upd p m c v r) c = if m then v else if p then get r c else CNum NaN.
Proof. unfold upd. destruct m, p; by rewrite ?get_insert_eq. Qed.

Lemma get_upd_ne (p m : bool) (c c' : string) (v : cell)
    (r : gmap string cell) :
  c ≠ c' → get (upd p m c v r) c' = get r c'.
Proof. intros Hne. unfold upd. destruct m, p; by rewrite ?get_insert_ne. Qed.

Ltac str_decide :=
  repeat match goal with
  | |- context [bool_decide (@eq string ?a ?b)] =>
      first [ rewrite (bool_decide_eq_false_2 (a = b)) by discriminate
            | rewrite (bool_decide_eq_true_2 (a = b)) by reflexivity ]
  end.

Section rowwise.
Context `{Runtime}.

Lemma get_coerce_row_eq b c r :
  get (coerce_row b c r) c = if b then CNum (to_numeric (get r c)) else get r c.
Proof. unfold coerce_row. destruct b; by rewrite ?get_insert_eq. Qed.

Lemma get_coerce_row_ne b c c' r :
  c ≠ c' → get (coerce_row b c r) c' = get r c'.
Proof. intros. unfold coerce_row. destruct b; by rewrite ?get_insert_ne. Qed.

Lemma get_clamp_row_eq b c r :
  get (clamp_row b c r) c
  = if b then CNum (clamp0 (to_numeric (get r c))) else get r c.
Proof.
  unfold clamp_row, clamp0. destruct b; [|done].
  rewrite get_upd_eq, get_insert_eq. by destruct (lt0 _).
Qed.

Lemma get_clamp_row_ne b c c' r :
  c ≠ c' → get (clamp_row b c r) c' = get r c'.
Proof.
  intros. unfold clamp_row. destruct b; [|done].
  by rewrite get_upd_ne, get_insert_ne.
Qed.

Lemma rows_coerce_fmap {A} (l : list A) df (φ : A → gmap string cell) c :
  rows df = φ <$> l →
  rows (coerce df c) = (λ x, coerce_row true c (φ x)) <$> l.
Proof.
  intros Hr. unfold coerce. rewrite (col_fmap l df φ c Hr).
  rewrite <- list_fmap_compose. by rewrite (rows_assign_fmap l df φ).
Qed.

Lemma columns_coerce df c : c ∈ columns df → columns (coerce df c) = columns df.
Proof. intros. unfold coerce, assign; cbn [columns]. by apply add_label_present. Qed.

Lemma coerce_if_rows df c :
  rows (if has_col df c then coerce df c else df)
  = coerce_row (has_col df c) c <$> rows df.
Proof.
  destruct (has_col df c) eqn:Hc.
  - apply (rows_coerce_fmap (rows df) df id). by rewrite list_fmap_id.
  - by rewrite list_fmap_id.
Qed.

Lemma coerce_if_columns df c :
  columns (if has_col df c then coerce df c else df) = columns df.
Proof.
  destruct (has_col df c) eqn:Hc; [|done].
  apply columns_coerce. by apply has_col_spec.
Qed.

Lemma clamp_negative_rows df c :
  rows (clamp_negative df c) = clamp_row (has_col df c) c <$> rows df.
Proof.
  unfold clamp_negative. destruct (has_col df c) eqn:Hc; [|by rewrite list_fmap_id].
  assert (rows (coerce df c) = coerce_row true c <$> rows df) as Hco.
  { apply (rows_coerce_fmap (rows df) df id). by rewrite list_fmap_id. }
  rewrite (col_fmap (rows df) (coerce df c) _ c Hco), Hco.
  rewrite <- !list_fmap_compose.
  rewrite (rows_loc_assign_fmap (rows df) (coerce df c) _ _ c _ Hco).
  apply list_fmap_ext. intros _ r _. unfold clamp_row, coerce_row, compose.
  rewrite get_insert_eq. cbn [as_num].
  unfold coerce. rewrite has_col_assign, bool_decide_eq_true_2 by done. done.
Qed.

Lemma clamp_negative_columns df c :
  columns (clamp_negative df c) = columns df.
Proof.
  unfold clamp_negative. destruct (has_col df c) eqn:Hc; [|done].
  apply has_col_spec in Hc.
  unfold loc_assign; cbn [columns]. rewrite columns_coerce by done.
  by apply add_label_present.
Qed.

(** A loop of column-preserving, row-wise statements is row-wise. *)
Lemma foldl_rowwise (f : DataFrame → string → DataFrame)
    (g : list string → string → gmap string cell → gmap string cell)
    (cs : list string) :
  (∀ df c, rows (f df c) = g (columns df) c <$> rows df) →
  (∀ df c, columns (f df c) = columns df) →
  ∀ df, rows (foldl f df cs) = (λ r, foldl (λ r c, g (columns df) c r) r cs) <$> rows df
        ∧ columns (foldl f df cs) = columns df.
Proof.
  intros Hrows Hcols. induction cs as [|c cs IH]; intros df; simpl.
  - by rewrite list_fmap_id.
  - destruct (IH (f df c)) as [IHr IHc]. rewrite IHr, IHc, Hrows, Hcols.
    split; [|done]. by rewrite <- list_fmap_compose.
Qed.

Lemma rows_ratio_fmap {A} (l : list A) (φ : A → gmap string cell)
    (m : A → bool) (d : A → num) df X aw name :
  rows df = φ <$> l →
  rows (ratio (m <$> l) (d <$> l) df X aw name)
  = (λ x, if has_col df X
          then upd (has_col df name) (m x) name
                   (CNum (fdiv (fdiv (as_num (get (φ x) X)) aw) (d x))) (φ x)
          else φ x) <$> l.
Proof.
  intros Hr. unfold ratio. destruct (has_col df X); [|done].
  rewrite (col_fmap l df φ X Hr), zip_with_fmap_same.
  by rewrite (rows_loc_assign_fmap l df φ m name _ Hr).
Qed.

Lemma has_col_ratio m d df X aw name c :
  has_col (ratio m d df X aw name) c
  = (has_col df X && bool_decide (c = name)) || has_col df c.
Proof.
  unfold ratio. destruct (has_col df X); [|done].
  by rewrite has_col_loc_assign.
Qed.

Lemma coerce_inputs_rows df :
  rows (coerce_inputs df) = coerce_inputs_row (columns df) <$> rows df
  ∧ columns (coerce_inputs df) = columns df.
Proof.
  unfold coerce_inputs, coerce_inputs_row.
  apply (foldl_rowwise _ (λ cols c, coerce_row (inb cols c) c)).
  - intros d c. apply coerce_if_rows.
  - intros d c. apply coerce_if_columns.
Qed.

Lemma clamp_negatives_rows df :
  rows (clamp_negatives df) = clamp_negatives_row (columns df) <$> rows df
  ∧ columns (clamp_negatives df) = columns df.
Proof.
  unfold clamp_negatives, clamp_negatives_row.
  apply (foldl_rowwise _ (λ cols c, clamp_row (inb cols c) c)).
  - intros d c. apply clamp_negative_rows.
  - intros d c. apply clamp_negative_columns.
Qed.

Lemma compute_ratios_rows df :
  rows (compute_ratios df) = compute_row (columns df) <$> rows df.
Proof.
  unfold compute_ratios, maskC, denom.
  rewrite (col_fmap (rows df) df id "C_percent") by (by rewrite list_fmap_id).
  rewrite <- !list_fmap_compose.
  set (m := (λ v, negb (isna v) && gt0 (as_num v)) ∘ _).
  set (d := (λ v, fdiv (as_num v) aw_C) ∘ _).
  rewrite (list_fmap_compose d CNum).
  rewrite <- (list_fmap_compose d CNum).
  set (df1 := loc_assign df _ _ _).
  assert (rows df1 = (λ r, upd (has_col df "C_molar") (m r) "C_molar"
                             ((CNum ∘ d) r) r) <$> rows df) as H1.
  { apply (rows_loc_assign_fmap (rows df) df id). by rewrite list_fmap_id. }
  set (df2 := ratio _ _ df1 "H_percent" _ _).
  pose proof (rows_ratio_fmap (rows df) _ m d df1 "H_percent" aw_H "H_C_molar" H1) as H2.
  fold df2 in H2.
  set (df3 := ratio _ _ df2 "O_percent" _ _).
  pose proof (rows_ratio_fmap (rows df) _ m d df2 "O_percent" aw_O "O_C_molar" H2) as H3.
  fold df3 in H3.
  set (df4 := ratio _ _ df3 "N_percent" _ _).
  pose proof (rows_ratio_fmap (rows df) _ m d df3 "N_percent" aw_N "N_C_molar" H3) as H4.
  fold df4 in H4.
  rewrite (rows_ratio_fmap (rows df) _ m d df4 "S_percent" aw_S "S_C_molar" H4).
  apply list_fmap_ext. intros _ r _.
  unfold compute_row, ratio_row, carbon_ok, carbon_molar, inb.
  subst df4 df3 df2 df1.
  rewrite !has_col_ratio, !has_col_loc_assign. str_decide.
  rewrite ?andb_false_r, ?orb_false_l. done.
Qed.

Lemma has_col_compute_ratios df c :
  has_col (compute_ratios df) c
  = (has_col df "S_percent" && bool_decide (c = "S_C_molar"))
    || (has_col df "N_percent" && bool_decide (c = "N_C_molar"))
    || (has_col df "O_percent" && bool_decide (c = "O_C_molar"))
    || (has_col df "H_percent" && bool_decide (c = "H_C_molar"))
    || bool_decide (c = "C_molar") || has_col df c.
Proof.
  unfold compute_ratios.
  rewrite !has_col_ratio, !has_col_loc_assign. str_decide.
  rewrite ?andb_false_r, ?orb_false_l, ?orb_false_r.
  by rewrite !orb_assoc.
Qed.

Lemma add_elemental_ratios_rows df :
  rows (add_elemental_ratios df)
  = ratios_row (columns df) (columns (compute_ratios (coerce_inputs df)))
      <$> rows df.
Proof.
  unfold add_elemental_ratios, ratios_row.
  destruct (coerce_inputs_rows df) as [Hr Hc].
  unfold has_col, inb. rewrite Hc.
  case_bool_decide.
  - destruct (clamp_negatives_rows (compute_ratios (coerce_inputs df))) as [-> _].
    rewrite compute_ratios_rows, Hr, Hc. by rewrite <- !list_fmap_compose.
  - by rewrite Hr.
Qed.

Lemma get_ratio_row_eq cols r0 r X aw name :
  get (ratio_row cols r0 r X aw name) name
  = if inb cols X
    then (if carbon_ok r0
          then CNum (fdiv (fdiv (as_num (get r X)) aw) (carbon_molar r0))
          else if inb cols name then get r name else CNum NaN)
    else get r name.
Proof. unfold ratio_row. destruct (inb cols X); by rewrite ?get_upd_eq. Qed.

Lemma get_ratio_row_ne cols r0 r X aw name c :
  name ≠ c → get (ratio_row cols r0 r X aw name) c = get r c.
Proof. intros. unfold ratio_row. destruct (inb cols X); by rewrite ?get_upd_ne. Qed.

End rowwise.

Ltac get_simpl :=
  repeat first
    [ rewrite get_ratio_row_ne by discriminate
    | rewrite get_ratio_row_eq
    | rewrite get_upd_ne by discriminate
    | rewrite get_upd_eq
    | rewrite get_clamp_row_ne by discriminate
    | rewrite get_clamp_row_eq
    | rewrite get_coerce_row_ne by discriminate
    | rewrite get_coerce_row_eq
    | rewrite get_insert_ne by discriminate
    | rewrite get_insert_eq ].

Section rowwise_get.
Context `{Runtime}.

Lemma get_coerce_inputs_row cols r X :
  X ∈ percent_cols →
  get (coerce_inputs_row cols r) X
  = if inb cols X then CNum (to_numeric (get r X)) else get r X.
Proof.
  intros HX. unfold coerce_inputs_row; cbn [foldl].
  unfold percent_cols in HX. set_unfold.
  destruct HX as [->|[->|[->|[->|[->|[]]]]]]; by get_simpl.
Qed.

Lemma get_coerce_inputs_row_other cols r c :
  c ∉ percent_cols → get (coerce_inputs_row cols r) c = get r c.
Proof.
  intros Hc. unfold coerce_inputs_row; cbn [foldl].
  unfold percent_cols in Hc. set_unfold.
  rewrite !get_coerce_row_ne by naive_solver. done.
Qed.

Lemma get_compute_row_C_molar cols r :
  get (compute_row cols r) "C_molar"
  = if carbon_ok r then CNum (carbon_molar r)
    else if inb cols "C_molar" then get r "C_molar" else CNum NaN.
Proof. unfold compute_row. by get_simpl. Qed.

Lemma get_compute_row_ratio cols r X aw name :
  (X, aw, name) ∈ ratio_specs →
  get (compute_row cols r) name
  = if inb cols X
    then (if carbon_ok r
          then CNum (fdiv (fdiv (as_num (get r X)) aw) (carbon_molar r))
          else if inb cols name then get r name else CNum NaN)
    else get r name.
Proof.
  intros HX. unfold ratio_specs in HX. set_unfold.
  unfold compute_row.
  destruct HX as [HX|[HX|[HX|[HX|[]]]]]; inversion HX; subst; by get_simpl.
Qed.

Lemma get_clamp_negatives_row pre r c :
  c ∈ ratio_cols →
  get (clamp_negatives_row pre r) c
  = if inb pre c then CNum (clamp0 (to_numeric (get r c))) else get r c.
Proof.
  intros Hc. unfold clamp_negatives_row; cbn [foldl ratio_cols].
  unfold ratio_cols in Hc. set_unfold.
  destruct Hc as [->|[->|[->|[->|[->|[]]]]]]; by get_simpl.
Qed.

End rowwise_get.

(** ** Signs and infinities *)

Lemma Qltb_lt (a b : Q) : Qltb a b = true ↔ (a < b)%Q.
Proof.
  unfold Qltb. rewrite negb_true_iff, <- not_true_iff_false, Qle_bool_iff.
  split; [apply Qnot_le_lt | apply Qlt_not_le].
Qed.

Lemma lt0_zero : lt0 zero = false.
Proof. reflexivity. Qed.


Lemma lt0_clamp0 (x : num) : lt0 (clamp0 x) = false.
Proof. unfold clamp0. by destruct (lt0 x) eqn:Hx. Qed.







Section ratios.
Context `{Runtime}.

Lemma coerced_carbon cols r :
  inb cols "C_percent" = true →
  carbon_ok (coerce_inputs_row cols r)
  = negb (is_nan (to_numeric (get r "C_percent")))
    && gt0 (to_numeric (get r "C_percent"))
  ∧ carbon_molar (coerce_inputs_row cols r)
    = fdiv (to_numeric (get r "C_percent")) aw_C.
Proof.
  intros HC. unfold carbon_ok, carbon_molar.
  rewrite get_coerce_inputs_row by (unfold percent_cols; set_solver).
  rewrite HC. cbn. by destruct (to_numeric _).
Qed.

Lemma add_elemental_ratios_with_carbon (df : DataFrame) :
  has_col df "C_percent" = true →
  add_elemental_ratios df = clamp_negatives (compute_ratios (coerce_inputs df)).
Proof.
  intros HC. unfold add_elemental_ratios.
  destruct (coerce_inputs_rows df) as [_ Hcols].
  unfold has_col in *. rewrite Hcols, HC. done.
Qed.

Lemma add_elemental_ratios_without_carbon (df : DataFrame) :
  has_col df "C_percent" = false →
  add_elemental_ratios df = coerce_inputs df.
Proof.
  intros HC. unfold add_elemental_ratios.
  destruct (coerce_inputs_rows df) as [_ Hcols].
  unfold has_col in *. rewrite Hcols, HC. done.
Qed.

Lemma clamp_negatives_row_sign (r : gmap string cell) (c : string)
    (pre : list string) :
  c ∈ ratio_cols → inb pre c = true →
  (lt0 (to_numeric (get r c)) = true →
   get (clamp_negatives_row pre r) c = CNum zero)
  ∧ (lt0 (to_numeric (get r c)) = false →
     get (clamp_negatives_row pre r) c = CNum (to_numeric (get r c)))
  ∧ lt0 (as_num (get (clamp_negatives_row pre r) c)) = false.
Proof.
  intros Hc Hpre.
  rewrite get_clamp_negatives_row by done.
  rewrite Hpre. cbn [as_num].
  unfold clamp0. destruct (lt0 (to_numeric (get r c))) eqn:Hlt.
  - split; [intros _; reflexivity|]. split; [intros ?; discriminate|]. reflexivity.
  - split; [intros ?; discriminate|]. split; [intros _; reflexivity|]. exact Hlt.
Qed.

(** C1 (amended). Whenever the carbon column is present, the safety loop
    of [add_elemental_ratios] replaces every negative value of a derived
    column by 0 (not by null) and leaves the other values as they are, so
    no derived field of the output is negative. *)
Theorem add_elemental_ratios_clamps_to_zero (df : DataFrame) (c : string)
    (i : nat) (r : gmap string cell) :
  has_col df "C_percent" = true →
  c ∈ ratio_cols →
  has_col (compute_ratios (coerce_inputs df)) c = true →
  rows (compute_ratios (coerce_inputs df)) !! i = Some r →
  ∃ r', rows (add_elemental_ratios df) !! i = Some r'
    ∧ (lt0 (to_numeric (get r c)) = true → get r' c = CNum zero)
    ∧ (lt0 (to_numeric (get r c)) = false →
       get r' c = CNum (to_numeric (get r c)))
    ∧ lt0 (as_num (get r' c)) = false.
Proof.
  intros HC Hc Hpre Hi.
  rewrite add_elemental_ratios_with_carbon by exact HC.
  destruct (clamp_negatives_rows (compute_ratios (coerce_inputs df)))
    as [Hrows _].
  exists (clamp_negatives_row (columns (compute_ratios (coerce_inputs df))) r).
  split.
  - rewrite Hrows, list_lookup_fmap, Hi. reflexivity.
  - apply clamp_negatives_row_sign; [exact Hc|].
    rewrite <- has_col_inb. exact Hpre.
Qed.

Lemma has_col_coerce_inputs (df : DataFrame) (c : string) :
  has_col (coerce_inputs df) c = has_col df c.
Proof.
  destruct (coerce_inputs_rows df) as [_ Hcols].
  by rewrite !has_col_inb, Hcols.
Qed.

Lemma has_col_pre_C_molar (df : DataFrame) :
  has_col (compute_ratios (coerce_inputs df)) "C_molar" = true.
Proof.
  rewrite has_col_compute_ratios. str_decide.
  by rewrite ?andb_false_r, ?orb_false_l, orb_true_l.
Qed.

Lemma has_col_pre_ratio (df : DataFrame) (X : string) (aw : num)
    (name : string) :
  (X, aw, name) ∈ ratio_specs →
  has_col (compute_ratios (coerce_inputs df)) name
  = has_col df X || has_col df name.
Proof.
  intros HX. unfold ratio_specs in HX. set_unfold.
  rewrite has_col_compute_ratios, !has_col_coerce_inputs.
  destruct HX as [HX|[HX|[HX|[HX|[]]]]]; inversion HX; subst; str_decide;
    by rewrite ?andb_false_r, ?andb_true_r, ?orb_false_l, ?orb_false_r.
Qed.

Lemma ratio_cols_cases (c : string) :
  c ∈ ratio_cols →
  c = "C_molar" ∨ ∃ X aw, (X, aw, c) ∈ ratio_specs.
Proof.
  unfold ratio_cols, ratio_specs. set_unfold.
  intros [->|[->|[->|[->|[->|[]]]]]]; [by left|right..].
  - exists "H_percent", aw_H. auto.
  - exists "O_percent", aw_O. auto.
  - exists "N_percent", aw_N. auto.
  - exists "S_percent", aw_S. auto 6.
Qed.

Lemma ratio_specs_facts (X : string) (aw : num) (name : string) :
  (X, aw, name) ∈ ratio_specs →
  X ∈ percent_cols ∧ name ∈ ratio_cols ∧ (name ∉ percent_cols)
  ∧ ∃ a, aw = Finite a ∧ Qeq_bool a 0 = false.
Proof.
  unfold ratio_specs, percent_cols, ratio_cols. set_unfold.
  intros [HX|[HX|[HX|[HX|[]]]]]; inversion HX; subst.
  all: split; [auto 6|]; split; [auto 6|]; split;
    [intros Hn; repeat (destruct Hn as [Hn|Hn]; [discriminate|]); done|].
  all: eexists; split; [reflexivity|reflexivity].
Qed.

(** The row of the output at the position of an input row. *)
Lemma add_elemental_ratios_lookup (df : DataFrame) (i : nat)
    (r : gmap string cell) :
  rows df !! i = Some r →
  rows (add_elemental_ratios df) !! i
  = Some (ratios_row (columns df)
            (columns (compute_ratios (coerce_inputs df))) r).
Proof.
  intros Hi. by rewrite add_elemental_ratios_rows, list_lookup_fmap, Hi.
Qed.

(** The derived cells of an output row when the carbon column exists. *)
Lemma get_ratios_row_C_molar (df : DataFrame) (r : gmap string cell) :
  has_col df "C_percent" = true →
  let C := to_numeric (get r "C_percent") in
  get (ratios_row (columns df) (columns (compute_ratios (coerce_inputs df))) r)
      "C_molar"
  = CNum (clamp0 (if negb (is_nan C) && gt0 C then fdiv C aw_C
                  else if has_col df "C_molar"
                       then to_numeric (get r "C_molar") else NaN)).
Proof.
  intros HC C. unfold ratios_row. rewrite <- has_col_inb, HC.
  rewrite get_clamp_negatives_row by (unfold ratio_cols; set_solver).
  rewrite <- has_col_inb, has_col_pre_C_molar.
  rewrite get_compute_row_C_molar.
  rewrite has_col_inb in HC.
  destruct (coerced_carbon (columns df) r HC) as [-> ->]. fold C.
  rewrite get_coerce_inputs_row_other
    by (unfold percent_cols; set_unfold; intros Hn;
        repeat (destruct Hn as [Hn|Hn]; [discriminate|]); done).
  rewrite <- has_col_inb.
  destruct (negb (is_nan C) && gt0 C); [done|].
  by destruct (has_col df "C_molar").
Qed.

Lemma get_ratios_row_ratio (df : DataFrame) (r : gmap string cell)
    (X : string) (aw : num) (name : string) :
  has_col df "C_percent" = true →
  (X, aw, name) ∈ ratio_specs →
  has_col df X = true →
  let C := to_numeric (get r "C_percent") in
  get (ratios_row (columns df) (columns (compute_ratios (coerce_inputs df))) r)
      name
  = CNum (clamp0 (if negb (is_nan C) && gt0 C
                  then fdiv (fdiv (to_numeric (get r X)) aw) (fdiv C aw_C)
                  else if has_col df name
                       then to_numeric (get r name) else NaN)).
Proof.
  intros HC HX HhasX C.
  destruct (ratio_specs_facts X aw name HX) as (HXp & Hname & Hnp & _).
  unfold ratios_row. rewrite <- has_col_inb, HC.
  rewrite get_clamp_negatives_row by done.
  rewrite <- has_col_inb, (has_col_pre_ratio df X aw name HX), HhasX, orb_true_l.
  rewrite (get_compute_row_ratio _ _ X aw name HX).
  rewrite has_col_inb in HC, HhasX.
  destruct (coerced_carbon (columns df) r HC) as [-> ->]. fold C.
  rewrite HhasX.
  rewrite (get_coerce_inputs_row _ _ X HXp), HhasX.
  rewrite (get_coerce_inputs_row_other _ _ name Hnp).
  rewrite <- has_col_inb. cbn [as_num].
  destruct (negb (is_nan C) && gt0 C); [done|].
  by destruct (has_col df name).
Qed.


End ratios.

(** ** Concrete frames *)

(** C1, counterexample: with C = 12.011 and H = -1.008 the computed H/C
    ratio is negative, and the output holds 0 there, not null. *)
Lemma negative_ratio_becomes_zero :
  (λ v, lt0 (as_num v))
    <$> col (@compute_ratios (@coerce_inputs numeric_runtime df_negative_H))
            "H_C_molar" = [true]
  ∧ col (@add_elemental_ratios numeric_runtime df_negative_H) "H_C_molar"
    = [CNum (Finite 0)]
  ∧ isna <$> col (@add_elemental_ratios numeric_runtime df_negative_H)
                 "H_C_molar" = [false].
Proof. vm_compute. auto. Qed.

Lemma add_elemental_ratios_clamps_to_zero_witness :
  ∃ r', rows (@add_elemental_ratios numeric_runtime df_negative_H) !! 0%nat
        = Some r'
        ∧ get r' "H_C_molar" = CNum zero.
Proof.
  destruct (@add_elemental_ratios_clamps_to_zero numeric_runtime
              df_negative_H "H_C_molar" 0%nat
              (default ∅ (rows (@compute_ratios
                 (@coerce_inputs numeric_runtime df_negative_H)) !! 0%nat)))
    as (r' & Hr' & Hneg & _).
  - reflexivity.
  - compute_done.
  - reflexivity.
  - reflexivity.
  - exists r'. split; [exact Hr'|]. apply Hneg. reflexivity.
Defined.



(** ** The descriptor join *)

Lemma lookup_list_to_map_keys (cs : list string) (g : string → cell)
    (k : string) :
  (list_to_map ((λ c, (c, g c)) <$> cs) : gmap string cell) !! k
  = if inb cs k then Some (g k) else None.
Proof.
  induction cs as [|c cs IH]; [done|].
  rewrite fmap_cons, list_to_map_cons, lookup_insert. cbn [fst snd].
  unfold inb in *. destruct (decide (c = k)) as [->|Hk].
  - rewrite bool_decide_eq_true_2 by left. done.
  - rewrite IH. case_bool_decide as H1; case_bool_decide as H2; try done.
    + exfalso. apply H2. by right.
    + exfalso. apply elem_of_cons in H2 as [?|?]; [by subst|done].
Qed.

Lemma get_list_to_map_app (L1 L2 : list (string * cell)) (k : string) :
  get (list_to_map (L1 ++ L2)) k
  = match (list_to_map L1 : gmap string cell) !! k with
    | Some v => v
    | None => get (list_to_map L2) k
    end.
Proof.
  unfold get. rewrite list_to_map_app, lookup_union.
  by destruct (list_to_map L1 !! k), (list_to_map L2 !! k).
Qed.

Lemma flat_map_singleton {A B} (f : A → B) (g : A → list B) (l : list A) :
  (∀ x, x ∈ l → g x = [f x]) → flat_map g l = f <$> l.
Proof.
  induction l as [|x l IH]; intros Hg; [done|].
  cbn [flat_map]. rewrite (Hg x) by left. rewrite IH; [done|].
  intros y Hy. apply Hg. by right.
Qed.

(** With pairwise distinct keys a key selects at most one row. *)
Lemma filter_key_unique {A K} `{EqDecision K} (key : A → K) (L : list A)
    (x : A) :
  NoDup (key <$> L) → x ∈ L → filter (λ r, key r = key x) L = [x].
Proof.
  induction L as [|y L IH]; intros Hnd Hx; [by apply elem_of_nil in Hx|].
  rewrite fmap_cons in Hnd. apply NoDup_cons in Hnd as [Hy Hnd].
  apply elem_of_cons in Hx as [->|Hx].
  - rewrite filter_cons_True by done. f_equal.
    apply elem_of_nil_inv. intros z Hz.
    apply list_elem_of_filter in Hz as [Hz1 Hz2].
    apply Hy. rewrite <- Hz1. by apply list_elem_of_fmap_2.
  - rewrite filter_cons_False; [by apply IH|].
    intros Hyx. apply Hy. rewrite Hyx. by apply list_elem_of_fmap_2.
Qed.


Lemma foldl_ext_in {A B} (f g : A → B → A) (l : list B) :
  (∀ a b, b ∈ l → f a b = g a b) → ∀ a, foldl f a l = foldl g a l.
Proof.
  induction l as [|b l IH]; intros Hfg a; [done|].
  cbn [foldl]. rewrite (Hfg a b) by left.
  apply IH. intros a' b' Hb'. apply Hfg. by right.
Qed.

(** *** The reference frame *)

Lemma pharm_merge_columns : columns pharm_merge = "pharm_code_norm" :: tmp_cols.
Proof. reflexivity. Qed.

Lemma pharm_merge_keys_NoDup :
  NoDup ((λ r, get r "pharm_code_norm") <$> rows pharm_merge).
Proof. compute_done. Qed.




Lemma filter_key_at_most_one {A K} `{EqDecision K} (key : A → K)
    (L : list A) (k : K) :
  NoDup (key <$> L) →
  filter (λ r, key r = k) L = []
  ∨ ∃ x, x ∈ L ∧ key x = k ∧ filter (λ r, key r = k) L = [x].
Proof.
  intros Hnd. destruct (filter (λ r, key r = k) L) as [|x l'] eqn:Hf; [by left|].
  right. exists x.
  assert (x ∈ filter (λ r, key r = k) L) as Hx by (rewrite Hf; left).
  apply list_elem_of_filter in Hx as [Hk Hx].
  split; [done|]. split; [done|].
  rewrite <- Hf. subst k. by apply filter_key_unique.
Qed.

Lemma merge_left_rows (left right : DataFrame) (on : string) :
  (∀ c, c ∈ columns left → c ≠ on → has_col right c = false) →
  NoDup ((λ r, get r on) <$> rows right) →
  let rcols := filter (λ c, c ≠ on) (columns right) in
  columns (merge_left left right on) = columns left ++ rcols
  ∧ rows (merge_left left right on)
    = (λ l, joined_row (columns left) rcols l
              (head (filter (λ r, get r on = get l on) (rows right))))
        <$> rows left.
Proof.
  intros Hov Hnd rcols. unfold merge_left. cbv zeta. fold rcols.
  set (overlap := λ c, bool_decide (c ≠ on) && has_col left c && has_col right c).
  assert (∀ c, c ∈ columns left → overlap c = false) as Hl.
  { intros c Hc. unfold overlap. destruct (decide (c = on)) as [->|Hne].
    - by rewrite bool_decide_eq_false_2 by (intros ?; done).
    - by rewrite (Hov c Hc Hne), andb_false_r. }
  assert (∀ c, c ∈ rcols → overlap c = false) as Hr.
  { intros c Hc. apply list_elem_of_filter in Hc as [Hne Hc].
    unfold overlap. destruct (has_col left c) eqn:Hlc.
    - apply has_col_spec in Hlc. by rewrite (Hov c Hlc Hne), andb_false_r.
    - by rewrite andb_false_r. }
  assert (∀ (g : string → cell) (cs : list string),
            (∀ c, c ∈ cs → overlap c = false) →
            ∀ sfx, (λ c, (if overlap c then c +:+ sfx else c, g c)) <$> cs
                   = (λ c, (c, g c)) <$> cs) as Hext.
  { intros g cs Hcs sfx. apply list_fmap_ext. intros j c Hj.
    by rewrite (Hcs c) by (by eapply list_elem_of_lookup_2). }
  assert (∀ (cs : list string), (∀ c, c ∈ cs → overlap c = false) →
            ∀ sfx, (λ c, if overlap c then c +:+ sfx else c) <$> cs = cs)
    as Hext0.
  { intros cs Hcs sfx. rewrite <- (list_fmap_id cs) at 2.
    apply list_fmap_ext. intros j c Hj.
    by rewrite (Hcs c) by (by eapply list_elem_of_lookup_2). }
  cbn [columns rows]. split.
  - by rewrite (Hext0 _ Hl), (Hext0 _ Hr).
  - apply flat_map_singleton. intros l _.
    rewrite (Hext (get l) _ Hl).
    destruct (filter_key_at_most_one (λ r, get r on) (rows right) (get l on) Hnd)
      as [->|(x & _ & _ & ->)]; cbn [head fmap list_fmap].
    + unfold joined_row. by rewrite (Hext (λ _, CNum NaN) _ Hr).
    + unfold joined_row. by rewrite (Hext (get x) _ Hr).
Qed.

(** *** [clean_pharm_features], row by row *)

Lemma tmp_name_inj (a b : string) : tmp_name a = tmp_name b → a = b.
Proof. unfold tmp_name. cbn. by intros [=]. Qed.

Lemma tmp_name_not_descriptor (a c : string) : c ∈ map_cols → tmp_name a ≠ c.
Proof.
  unfold map_cols, tmp_name. set_unfold. cbn.
  intros [->|[->|[->|[->|[->|[]]]]]]; discriminate.
Qed.



Section cleaning.
Context `{Runtime}.

Lemma move_tmp_rows (df : DataFrame) (c : string) :
  rows (move_tmp df c)
  = move_row (has_col df (tmp_name c)) (has_col df c) c <$> rows df.
Proof.
  unfold move_tmp, move_row, moved_value.
  destruct (has_col df (tmp_name c)); cbn [negb]; [|by rewrite list_fmap_id].
  unfold drop_column; cbn [rows].
  assert (rows df = id <$> rows df) as Hid by (by rewrite list_fmap_id).
  destruct (has_col df c).
  - unfold fillna.
    rewrite !(col_fmap (rows df) df id _ Hid), <- list_fmap_compose.
    rewrite zip_with_fmap_same.
    rewrite (rows_assign_fmap (rows df) df id c _ Hid).
    by rewrite <- list_fmap_compose.
  - rewrite (col_fmap (rows df) df id _ Hid).
    rewrite (rows_assign_fmap (rows df) df id c _ Hid).
    by rewrite <- list_fmap_compose.
Qed.

Lemma move_tmp_columns (df : DataFrame) (c c' : string) :
  has_col df (tmp_name c) = true →
  c' ∈ columns (move_tmp df c)
  ↔ c' ≠ tmp_name c ∧ (c' = c ∨ c' ∈ columns df).
Proof.
  intros Ht. unfold move_tmp. rewrite Ht. cbn [negb].
  unfold drop_column; cbn [columns]. rewrite list_elem_of_filter.
  destruct (has_col df c); unfold assign; cbn [columns];
    by rewrite elem_of_add_label.
Qed.


Lemma get_move_row_ne (bc : bool) (c c' : string) (r : gmap string cell) :
  c' ≠ c → c' ≠ tmp_name c → get (move_row true bc c r) c' = get r c'.
Proof.
  intros H1 H2. unfold move_row.
  by rewrite get_delete_ne, get_insert_ne.
Qed.

Lemma foldl_move_tmp (cs : list string) :
  ∀ df,
    NoDup cs →
    (∀ c, c ∈ cs → has_col df (tmp_name c) = true) →
    (∀ c c', c ∈ cs → c' ∈ cs → tmp_name c ≠ c') →
    rows (foldl move_tmp df cs)
    = (λ r, foldl (λ r c, move_row true (has_col df c) c r) r cs) <$> rows df
    ∧ ∀ c', c' ∈ columns (foldl move_tmp df cs)
            ↔ (c' ∈ cs ∨ c' ∈ columns df) ∧ (c' ∉ tmp_name <$> cs).
Proof.
  induction cs as [|c cs IH]; intros df Hnd Htmp Hdis.
  - cbn [foldl]. split; [by rewrite list_fmap_id|].
    intros c'. rewrite fmap_nil, !elem_of_nil. tauto.
  - apply NoDup_cons in Hnd as [Hc Hnd]. cbn [foldl].
    assert (has_col df (tmp_name c) = true) as Htc by (apply Htmp; left).
    destruct (IH (move_tmp df c)) as [IHr IHc].
    + done.
    + intros c2 Hc2. apply has_col_spec, move_tmp_columns; [done|].
      split.
      * intros E. apply tmp_name_inj in E. by subst.
      * right. apply has_col_spec, Htmp. by right.
    + intros c1 c2 H1 H2. apply Hdis; by right.
    + split.
      * rewrite IHr, move_tmp_rows, Htc, <- list_fmap_compose.
        apply list_fmap_ext. intros _ r _. cbn [compose].
        apply foldl_ext_in. intros r' c2 Hc2. f_equal.
        apply eq_true_iff_eq. rewrite !has_col_spec, move_tmp_columns by done.
        split; [intros [_ [->|?]]; done|].
        intros Hin. split; [|by right].
        intros E. apply (Hdis c c2); [by left|by right|done].
      * intros c'. rewrite IHc, move_tmp_columns by done.
        rewrite fmap_cons, not_elem_of_cons, elem_of_cons.
        assert (∀ x, x ∈ cs → x ≠ tmp_name c) as F.
        { intros x Hx E. apply (Hdis c x); [by left|by right|done]. }
        naive_solver.
Qed.

Lemma get_foldl_move_row_other (b : string → bool) (cs : list string)
    (c' : string) :
  ∀ r, c' ∉ cs → (c' ∉ tmp_name <$> cs) →
       get (foldl (λ r c, move_row true (b c) c r) r cs) c' = get r c'.
Proof.
  induction cs as [|c cs IH]; intros r H1 H2; [done|].
  cbn [foldl]. rewrite fmap_cons in H2.
  apply not_elem_of_cons in H1 as [H1 H1'].
  apply not_elem_of_cons in H2 as [H2 H2'].
  rewrite IH by done. by apply get_move_row_ne.
Qed.



Lemma map_cols_NoDup : NoDup map_cols.
Proof. compute_done. Qed.



End cleaning.

(** *** The join, end to end *)



Lemma pharm_merge_rcols :
  filter (λ c, c ≠ "pharm_code_norm") (columns pharm_merge) = tmp_cols.
Proof. reflexivity. Qed.

Section join.
Context `{Runtime}.

Lemma add_pharm_features_ok (df : DataFrame) :
  has_col df "Target_Phar" = true →
  add_pharm_features df
  = Ok (merge_left (with_code df) pharm_merge "pharm_code_norm").
Proof.
  intros HT. unfold add_pharm_features, add_pharm_features_with.
  by rewrite HT.
Qed.

Lemma add_pharm_features_raises (df : DataFrame) :
  has_col df "Target_Phar" = false →
  add_pharm_features df = Raise (KeyError "Target_Phar kolonu bulunamadı.").
Proof.
  intros HT. unfold add_pharm_features, add_pharm_features_with.
  by rewrite HT.
Qed.

Lemma with_code_rows (df : DataFrame) :
  rows (with_code df)
  = (λ r, <["pharm_code_norm" := norm_code r]> r) <$> rows df.
Proof.
  unfold with_code.
  assert (rows df = id <$> rows df) as Hid by (by rewrite list_fmap_id).
  rewrite (col_fmap (rows df) df id _ Hid), <- list_fmap_compose.
  by rewrite (rows_assign_fmap (rows df) df id _ _ Hid).
Qed.

Lemma with_code_columns (df : DataFrame) (c : string) :
  c ∈ columns (with_code df) ↔ c = "pharm_code_norm" ∨ c ∈ columns df.
Proof. unfold with_code, assign; cbn [columns]. apply elem_of_add_label. Qed.

Lemma elem_of_tmp_cols (c : string) :
  c ∈ tmp_cols ↔ ∃ x, c = tmp_name x ∧ x ∈ map_cols.
Proof. unfold tmp_cols. apply list_elem_of_fmap. Qed.

Section one_record.
Variables (df : DataFrame) (i : nat) (r : gmap string cell).
Hypothesis HT : has_col df "Target_Phar" = true.
Hypothesis Hfree : ∀ c', c' ∈ map_cols → has_col df (tmp_name c') = false.
Hypothesis Hi : rows df !! i = Some r.

Let merged : DataFrame :=
  merge_left (with_code df) pharm_merge "pharm_code_norm".











End one_record.
End join.



(** ** Objects: every write goes to a fresh copy *)

Section store.
Import Store.

Lemma run_bind {A B} (m : M A) (k : A → M B) (h : heap) :
  (m ≫= k) h
  = match m h with
    | (h', Ok a) => k a h'
    | (h', Raise e) => (h', Raise e)
    end.
Proof. reflexivity. Qed.

Lemma run_read_old (h K : heap) (l : loc) (d : DataFrame) :
  h !! l = Some d → read l (h ++ K) = (h ++ K, Ok d).
Proof. intros Hl. unfold read. by rewrite (lookup_app_l_Some _ _ _ _ Hl). Qed.

Lemma run_read_new (h K : heap) (n : nat) (l : loc) (d : DataFrame) :
  l = (length h + n)%nat → K !! n = Some d →
  read l (h ++ K) = (h ++ K, Ok d).
Proof.
  intros -> Hn. unfold read.
  by rewrite lookup_app_r, Nat.add_comm, Nat.add_sub, Hn by lia.
Qed.

Lemma run_update_new (h K : heap) (n : nat) (l : loc) (d : DataFrame)
    (f : DataFrame → DataFrame) :
  l = (length h + n)%nat → K !! n = Some d →
  update l f (h ++ K) = (h ++ <[n := f d]> K, Ok tt).
Proof.
  intros -> Hn. unfold update.
  rewrite lookup_app_r, Nat.add_comm, Nat.add_sub, Hn by lia.
  rewrite Nat.add_comm. by rewrite insert_app_r.
Qed.

Lemma run_alloc (h K : heap) (d : DataFrame) :
  alloc d (h ++ K) = (h ++ (K ++ [d]), Ok (length h + length K)%nat).
Proof. unfold alloc. by rewrite length_app, app_assoc. Qed.

Lemma run_for_each_update (h K : heap) (n : nat) (l : loc) {A}
    (cs : list A) (g : A → DataFrame → DataFrame) :
  l = (length h + n)%nat →
  ∀ d, K !! n = Some d →
       for_each cs (λ c, update l (g c)) (h ++ K)
       = (h ++ <[n := foldl (λ d c, g c d) d cs]> K, Ok tt).
Proof.
  intros ->. revert K. induction cs as [|c cs IH]; intros K d Hn.
  - cbn [for_each foldl]. by rewrite list_insert_id.
  - cbn [for_each foldl]. rewrite run_bind.
    rewrite (run_update_new h K n _ d) by done.
    rewrite (IH _ (g c d)).
    + by rewrite list_insert_insert_eq.
    + apply list_lookup_insert_eq. by eapply lookup_lt_Some.
Qed.

Lemma run_copy_old (h K : heap) (l : loc) (d : DataFrame) :
  h !! l = Some d →
  copy l (h ++ K) = (h ++ (K ++ [d]), Ok (length h + length K)%nat).
Proof.
  intros Hl. unfold copy. rewrite run_bind, (run_read_old h K l d Hl).
  apply run_alloc.
Qed.

Lemma run_copy_new (h K : heap) (n : nat) (l : loc) (d : DataFrame) :
  l = (length h + n)%nat → K !! n = Some d →
  copy l (h ++ K) = (h ++ (K ++ [d]), Ok (length h + length K)%nat).
Proof.
  intros Hl Hn. unfold copy. rewrite run_bind, (run_read_new h K n l d Hl Hn).
  apply run_alloc.
Qed.

Section with_runtime.
Context `{Runtime}.

(** Each of the three feature functions leaves the store as it was and
    adds its own objects; the last one holds the value of the pure
    function. *)
Lemma run_clean_pharm_features (h K : heap) (n : nat) (l : loc)
    (d : DataFrame) :
  l = (length h + n)%nat → K !! n = Some d →
  Store.clean_pharm_features l (h ++ K)
  = (h ++ (K ++ [Features.clean_pharm_features d]),
     Ok (length h + length K)%nat).
Proof.
  intros Hl Hn. unfold Store.clean_pharm_features.
  rewrite run_bind, (run_copy_new h K n l d Hl Hn).
  assert ((K ++ [d]) !! length K = Some d) as Hlast
    by (by rewrite lookup_app_r, Nat.sub_diag).
  rewrite run_bind, (run_for_each_update h _ (length K) _ _ _ eq_refl d Hlast).
  rewrite run_bind.
  erewrite (run_update_new h _ (length K) _ _ _ eq_refl).
  2:{ apply list_lookup_insert_eq. rewrite length_app. cbn. lia. }
  rewrite list_insert_insert_eq.
  rewrite run_bind.
  erewrite (run_for_each_update h _ (length K) _ _ _ eq_refl).
  2:{ apply list_lookup_insert_eq. rewrite length_app. cbn. lia. }
  rewrite list_insert_insert_eq.
  cbn [mret M_ret ret].
  rewrite insert_app_r_alt, Nat.sub_diag by lia.
  unfold Features.clean_pharm_features. cbn [insert list_insert]. reflexivity.
Qed.

Lemma run_add_elemental_ratios (h K : heap) (n : nat) (l : loc)
    (d : DataFrame) :
  l = (length h + n)%nat → K !! n = Some d →
  Store.add_elemental_ratios l (h ++ K)
  = (h ++ (K ++ [Features.add_elemental_ratios d]),
     Ok (length h + length K)%nat).
Proof.
  intros Hl Hn. unfold Store.add_elemental_ratios.
  rewrite run_bind, (run_copy_new h K n l d Hl Hn).
  assert (∀ v : DataFrame, (K ++ [v]) !! length K = Some v) as Hlast
    by (intros v; by rewrite lookup_app_r, Nat.sub_diag).
  assert (∀ v w : DataFrame, <[length K := w]> (K ++ [v]) = K ++ [w]) as Hset
    by (intros v w; by rewrite insert_app_r_alt, Nat.sub_diag by lia).
  rewrite run_bind,
    (run_for_each_update h _ (length K) _ _ _ eq_refl d (Hlast d)), Hset.
  fold (coerce_inputs d).
  rewrite run_bind, (run_read_new h _ (length K) _ _ eq_refl (Hlast _)).
  unfold Features.add_elemental_ratios. cbv zeta.
  destruct (has_col (coerce_inputs d) "C_percent"); [|reflexivity].
  rewrite run_bind,
    (run_update_new h _ (length K) _ _ _ eq_refl (Hlast _)), Hset.
  rewrite run_bind,
    (run_for_each_update h _ (length K) _ _ _ eq_refl _ (Hlast _)), Hset.
  unfold clamp_negatives. reflexivity.
Qed.

Lemma run_add_pharm_features (_pharm_df : loc) (h K : heap) (n : nat)
    (l : loc) (d t : DataFrame) :
  l = (length h + n)%nat → K !! n = Some d → h !! _pharm_df = Some t →
  ∃ junk,
    Store.add_pharm_features _pharm_df l (h ++ K)
    = match add_pharm_features_with t d with
      | Ok v => (h ++ (K ++ junk ++ [v]),
                 Ok (length h + length (K ++ junk))%nat)
      | Raise e => (h ++ (K ++ junk), Raise e)
      end.
Proof.
  intros Hl Hn Ht. unfold Store.add_pharm_features, add_pharm_features_with.
  rewrite run_bind, (run_copy_new h K n l d Hl Hn).
  assert (∀ v : DataFrame, (K ++ [v]) !! length K = Some v) as Hlast
    by (intros v; by rewrite lookup_app_r, Nat.sub_diag).
  assert (∀ v w : DataFrame, <[length K := w]> (K ++ [v]) = K ++ [w]) as Hset
    by (intros v w; by rewrite insert_app_r_alt, Nat.sub_diag by lia).
  rewrite run_bind, (run_read_new h _ (length K) _ _ eq_refl (Hlast _)).
  destruct (has_col d "Target_Phar"); cbn [negb].
  2:{ exists [d]. reflexivity. }
  rewrite run_bind,
    (run_update_new h _ (length K) _ _ _ eq_refl (Hlast _)), Hset.
  rewrite run_bind, (run_read_old h _ _ t Ht).
  rewrite run_bind, run_alloc.
  rewrite run_bind.
  erewrite (run_read_new h _ (length (K ++ [_])) _ _ eq_refl).
  2:{ by rewrite lookup_app_r, Nat.sub_diag. }
  rewrite run_bind, run_alloc.
  rewrite run_bind.
  erewrite (run_read_new h _ (length K)).
  2:{ reflexivity. }
  2:{ rewrite <- !app_assoc. rewrite lookup_app_r, Nat.sub_diag by lia.
      reflexivity. }
  rewrite run_bind.
  erewrite (run_read_new h _ (length ((K ++ [_]) ++ [_]))).
  2:{ reflexivity. }
  2:{ by rewrite lookup_app_r, Nat.sub_diag. }
  rewrite run_alloc.
  eexists [_; _; _].
  rewrite <- !app_assoc. cbn [app]. reflexivity.
Qed.

Lemma lookup_snoc {A} (K : list A) (v : A) : (K ++ [v]) !! length K = Some v.
Proof. by rewrite lookup_app_r, Nat.sub_diag. Qed.

Lemma insert_snoc {A} (K : list A) (v w : A) :
  <[length K := w]> (K ++ [v]) = K ++ [w].
Proof. by rewrite insert_app_r_alt, Nat.sub_diag by lia. Qed.

(** [transform] on the store: the old objects are untouched, and the
    object returned last holds the value of the pure [transform_with]. *)
Lemma run_transform (_pharm_df X : loc) (self : DomainFE) (h : heap)
    (t x : DataFrame) :
  h !! _pharm_df = Some t → h !! X = Some x →
  ∃ junk,
    Store.transform _pharm_df self X h
    = match transform_with t self x with
      | Ok v => (h ++ junk ++ [v], Ok (length h + length junk)%nat)
      | Raise e => (h ++ junk, Raise e)
      end.
Proof.
  intros Ht HX. unfold Store.transform, transform_with.
  pose proof (run_copy_old h [] X x HX) as Hcopy.
  rewrite app_nil_r in Hcopy. cbn [app length] in Hcopy.
  rewrite run_bind, Hcopy.
  rewrite run_bind, (run_update_new h [x] 0 _ x) by done.
  cbn [insert list_insert].
  destruct (run_add_pharm_features _pharm_df h [relabel strip x] 0
              (length h + 0)%nat (relabel strip x) t eq_refl eq_refl Ht)
    as [junk1 Hjoin].
  rewrite run_bind, Hjoin. clear Hjoin.
  destruct (add_pharm_features_with t (relabel strip x)) as [v|e].
  2:{ by exists ([relabel strip x] ++ junk1). }
  set (K1 := [relabel strip x] ++ junk1).
  rewrite (app_assoc _ junk1 [v]). fold K1.
  rewrite run_bind.
  rewrite (run_clean_pharm_features h (K1 ++ [v]) (length K1) _ v eq_refl
             (lookup_snoc K1 v)).
  set (K2 := K1 ++ [v]).
  set (cv := Features.clean_pharm_features v).
  rewrite run_bind.
  rewrite (run_add_elemental_ratios h (K2 ++ [cv]) (length K2) _ cv eq_refl
             (lookup_snoc K2 cv)).
  set (K3 := K2 ++ [cv]).
  set (rv := Features.add_elemental_ratios cv).
  rewrite run_bind.
  rewrite (run_for_each_update h (K3 ++ [rv]) (length K3) _ _ _ eq_refl rv
             (lookup_snoc K3 rv)), insert_snoc.
  rewrite run_bind.
  rewrite (run_for_each_update h (K3 ++ [_]) (length K3) _ _ _ eq_refl _
             (lookup_snoc K3 _)), insert_snoc.
  rewrite run_bind.
  rewrite (run_read_new h (K3 ++ [_]) (length K3) _ _ eq_refl
             (lookup_snoc K3 _)).
  rewrite run_alloc.
  eexists. reflexivity.
Qed.

Lemma lookup_fresh {A} (h junk : list A) (v : A) :
  (h ++ junk ++ [v]) !! (length h + length junk)%nat = Some v.
Proof.
  rewrite lookup_app_r by lia.
  replace (length h + length junk - length h)%nat with (length junk) by lia.
  apply lookup_snoc.
Qed.

(** C4. [DomainFE.transform], run on a store that holds the reference
    table and the input frame, writes to none of the objects that exist
    when it is called (the input and the table in particular), and a
    second run on the resulting store ends the same way: with an equal
    frame, the value of the pure [transform_with], or with the same
    error. *)
Theorem transform_is_pure (_pharm_df X : loc) (self : DomainFE) (h : heap)
    (t x : DataFrame) :
  h !! _pharm_df = Some t →
  h !! X = Some x →
  ∃ h1 h2 res1 res2,
    Store.transform _pharm_df self X h = (h1, res1)
    ∧ Store.transform _pharm_df self X h1 = (h2, res2)
    ∧ (∀ l d, h !! l = Some d → h1 !! l = Some d)
    ∧ (∀ l d, h1 !! l = Some d → h2 !! l = Some d)
    ∧ match res1, res2 with
      | Ok o1, Ok o2 =>
          ∃ v, h1 !! o1 = Some v ∧ h2 !! o2 = Some v
               ∧ transform_with t self x = Ok v
      | Raise e1, Raise e2 =>
          e1 = e2 ∧ transform_with t self x = Raise e1
      | _, _ => False
      end.
Proof.
  intros Ht HX.
  destruct (run_transform _pharm_df X self h t x Ht HX) as [junk1 Hrun1].
  destruct (transform_with t self x) as [v|e] eqn:Hpure.
  - set (h1 := h ++ junk1 ++ [v]) in *.
    assert (∀ l d, h !! l = Some d → h1 !! l = Some d) as Hkeep1
      by (intros l d Hl; by apply lookup_app_l_Some).
    destruct (run_transform _pharm_df X self h1 t x
                (Hkeep1 _ _ Ht) (Hkeep1 _ _ HX)) as [junk2 Hrun2].
    rewrite Hpure in Hrun2.
    exists h1, (h1 ++ junk2 ++ [v]), (Ok (length h + length junk1)%nat),
      (Ok (length h1 + length junk2)%nat).
    split; [exact Hrun1|]. split; [exact Hrun2|]. split; [exact Hkeep1|].
    split; [intros l d Hl; by apply lookup_app_l_Some|].
    exists v. split; [apply lookup_fresh|]. split; [apply lookup_fresh|done].
  - set (h1 := h ++ junk1) in *.
    assert (∀ l d, h !! l = Some d → h1 !! l = Some d) as Hkeep1
      by (intros l d Hl; by apply lookup_app_l_Some).
    destruct (run_transform _pharm_df X self h1 t x
                (Hkeep1 _ _ Ht) (Hkeep1 _ _ HX)) as [junk2 Hrun2].
    rewrite Hpure in Hrun2.
    exists h1, (h1 ++ junk2), (Raise e), (Raise e).
    split; [exact Hrun1|]. split; [exact Hrun2|]. split; [exact Hkeep1|].
    split; [intros l d Hl; by apply lookup_app_l_Some|done].
Qed.

End with_runtime.

End store.

(** On import the table object holds [_pharm_df]. *)
Lemma import_features_table :
  Store.import_features [] = ([_pharm_df], Ok 0%nat).
Proof. reflexivity. Qed.

Lemma transform_is_pure_witness :
  ∃ h1 res1,
    @Store.transform numeric_runtime 0%nat fe_E_only 1%nat
      [_pharm_df; df_known_code] = (h1, res1)
    ∧ h1 !! 1%nat = Some df_known_code
    ∧ ∃ o v, res1 = Ok o ∧ h1 !! o = Some v
             ∧ @transform numeric_runtime fe_E_only df_known_code = Ok v.
Proof.
  destruct (@transform_is_pure numeric_runtime 0%nat 1%nat fe_E_only
              [_pharm_df; df_known_code] _pharm_df df_known_code)
    as (h1 & h2 & res1 & res2 & Hrun1 & _ & Hkeep & _ & Hsame).
  - reflexivity.
  - reflexivity.
  - exists h1, res1. split; [exact Hrun1|]. split; [by apply Hkeep|].
    destruct res1 as [o1|e1], res2 as [o2|e2].
    + destruct Hsame as (v & Hv & _ & Hpure). exists o1, v.
      split; [reflexivity|]. split; [exact Hv | exact Hpure].
    + destruct Hsame.
    + destruct Hsame.
    + destruct Hsame as [_ Hpure]. vm_compute in Hpure. discriminate.
Defined.

(** ** Sorting *)

Section sorting.
Context {A : Type} (le : A → A → bool).

Lemma insert_by_perm (x : A) (l : list A) : insert_by le x l ≡ₚ x :: l.
Proof.
  induction l as [|y l IH]; cbn [insert_by]; [done|].
  destruct (le x y); [done|]. rewrite IH. apply Permutation_swap.
Qed.

Lemma sort_by_perm (l : list A) : sort_by le l ≡ₚ l.
Proof.
  induction l as [|x l IH]; [done|].
  unfold sort_by in *. cbn [foldr]. by rewrite insert_by_perm, IH.
Qed.

Hypothesis le_total : ∀ x y, le x y = true ∨ le y x = true.
Hypothesis le_trans : ∀ x y z, le x y = true → le y z = true → le x z = true.

Lemma insert_by_sorted (x : A) (l : list A) :
  StronglySorted (λ a b, le a b = true) l →
  StronglySorted (λ a b, le a b = true) (insert_by le x l).
Proof.
  induction 1 as [|y l Hs IH Hy]; cbn [insert_by].
  - constructor; [constructor | constructor].
  - destruct (le x y) eqn:Hxy.
    + constructor; [by constructor|].
      constructor; [done|].
      eapply Forall_impl; [exact Hy|]. intros z Hz. by eapply le_trans.
    + constructor; [exact IH|].
      rewrite insert_by_perm. constructor; [|exact Hy].
      destruct (le_total x y) as [E|E]; [congruence | exact E].
Qed.

Lemma sort_by_sorted (l : list A) :
  StronglySorted (λ a b, le a b = true) (sort_by le l).
Proof.
  induction l as [|x l IH]; [constructor|].
  unfold sort_by in *. cbn [foldr]. by apply insert_by_sorted.
Qed.



End sorting.

(** ** Ranking and winner *)




Section evaluation.
Context {Pipe : Type} (assess : Pipe → Metrics).



End evaluation.

Lemma StronglySorted_weaken {A} (R1 R2 : A → A → Prop) (l : list A) :
  (∀ a b, R1 a b → R2 a b) → StronglySorted R1 l → StronglySorted R2 l.
Proof.
  intros HR. induction 1 as [|x l _ IH Hx]; constructor; [done|].
  eapply Forall_impl; [exact Hx|]. intros; by apply HR.
Qed.

Section winner.
Context {Pipe : Type} (assess : Pipe → Metrics).



End winner.



(** ** The single-entry page *)

Lemma omap_length_le {A B} (g : A → option B) (l : list A) :
  (length (omap g l) ≤ length l)%nat.
Proof. induction l as [|v l IH]; cbn; [done|]. destruct (g v); cbn; lia. Qed.

Section page.
Context `{Served}.

Lemma sweep_loop base_params target field grid (acc : list (Q * Q)) :
  foldl (λ results v,
           match predict (test_row base_params target field v) with
           | Ok pred_qe => results ++ [(v, pred_qe)]
           | Raise _ => results
           end) acc grid
  = acc ++ omap (sweep_point base_params target field) grid.
Proof.
  revert acc. induction grid as [|v grid IH]; intros acc; cbn [foldl].
  - cbn. by rewrite app_nil_r.
  - rewrite IH. cbn [omap list_omap]. unfold sweep_point at 2.
    destruct (predict _); [by rewrite <- app_assoc | done].
Qed.

Lemma sweep_omap base_params target field grid :
  sweep base_params target field grid
  = omap (sweep_point base_params target field) grid.
Proof. unfold sweep. by rewrite sweep_loop. Qed.

Lemma sweep_trace_quiet base_params target field grid :
  Forall (λ u, is_failure u = false)
         (sweep_trace base_params target field grid).
Proof.
  unfold sweep_trace. apply Forall_app. split.
  - apply Forall_fmap, Forall_forall. done.
  - destruct (sweep _ _ _ _); [constructor | by repeat constructor].
Qed.

(** C6. A sweep returns, in grid order, exactly the grid points whose
    prediction succeeded, each paired with its prediction; a point whose
    prediction raises is left out and the walk goes on. A shorter result
    is a result: the page shows the calls and at most a chart, no error
    and no stop. *)
Theorem sweep_keeps_successes_in_order
    (base_params : gmap string cell) (target : cell) (field : string)
    (grid : list Q) :
  let ok v := is_ok (predict (test_row base_params target field v)) in
  let points := sweep base_params target field grid in
  points = omap (sweep_point base_params target field) grid
  ∧ fst <$> points = filter (λ v, ok v = true) grid
  ∧ (∀ v p, (v, p) ∈ points ↔
       v ∈ grid ∧ predict (test_row base_params target field v) = Ok p)
  ∧ (∀ v e, predict (test_row base_params target field v) = Raise e →
       v ∉ fst <$> points)
  ∧ fst <$> points `sublist_of` grid
  ∧ (length points ≤ length grid)%nat
  ∧ Forall (λ u, is_failure u = false)
           (sweep_trace base_params target field grid).
Proof.
  intros ok points. subst points.
  assert (fst <$> sweep base_params target field grid
          = filter (λ v, ok v = true) grid) as Hkeys.
  { rewrite sweep_omap. clear. induction grid as [|v grid IH]; [done|].
    cbn [omap list_omap]. unfold sweep_point at 1. subst ok. cbn beta.
    destruct (predict (test_row base_params target field v)) eqn:E.
    - rewrite filter_cons_True by (cbn beta; by rewrite E).
      cbn. by rewrite IH.
    - rewrite filter_cons_False by (cbn beta; by rewrite E). done. }
  assert (∀ v p, (v, p) ∈ sweep base_params target field grid ↔
            v ∈ grid ∧ predict (test_row base_params target field v) = Ok p)
    as Hmem.
  { intros v p. rewrite sweep_omap, list_elem_of_omap. unfold sweep_point.
    split.
    - intros (v' & Hin & Hv').
      destruct (predict (test_row base_params target field v')) eqn:E;
        [|done].
      injection Hv' as <- <-. done.
    - intros [Hin Hv]. exists v. by rewrite Hv. }
  split; [apply sweep_omap|]. split; [exact Hkeys|]. split; [exact Hmem|].
  split.
  { intros v e Hv [[v' p] [Heq Hin]]%list_elem_of_fmap. cbn in Heq. subst v'.
    apply Hmem in Hin as [_ Hp]. congruence. }
  split; [rewrite Hkeys; apply sublist_filter|].
  split; [rewrite sweep_omap; apply omap_length_le|].
  apply sweep_trace_quiet.
Qed.

Lemma comparison_loop base_params (entries : list (string * (Q * Q * Q * Q * Q)))
    (acc : list (string * string * Q)) :
  foldl (λ results (entry : string * (Q * Q * Q * Q * Q)),
           let drug_code := entry.1 in
           match predict (<["Target_Phar" := CStr drug_code]> base_params) with
           | Ok pred_qe =>
               results
               ++ [(drug_code, default drug_code (display_name drug_code),
                    pred_qe)]
           | Raise _ => results
           end) acc entries
  = acc ++ omap (comparison_point base_params) entries.
Proof.
  revert acc. induction entries as [|e entries IH]; intros acc; cbn [foldl].
  - cbn. by rewrite app_nil_r.
  - rewrite IH. cbn [omap list_omap]. unfold comparison_point at 2.
    cbn zeta. destruct (predict _); [by rewrite <- app_assoc | done].
Qed.

Lemma comparison_results_omap base_params :
  comparison_results base_params
  = omap (comparison_point base_params) solute_params.
Proof. unfold comparison_results. by rewrite comparison_loop. Qed.

Lemma comparison_codes_sublist base_params
    (entries : list (string * (Q * Q * Q * Q * Q))) :
  (λ t : string * string * Q, t.1.1)
    <$> omap (comparison_point base_params) entries
  `sublist_of` fst <$> entries.
Proof.
  induction entries as [|e entries IH]; [done|].
  cbn [omap list_omap]. unfold comparison_point at 1.
  destruct (predict _); cbn.
  - by apply sublist_skip.
  - by apply sublist_cons.
Qed.

End page.

Lemma solute_params_codes_NoDup : NoDup (fst <$> solute_params).
Proof. compute_done. Qed.

Lemma by_prediction_desc_total a b :
  by_prediction_desc a b = true ∨ by_prediction_desc b a = true.
Proof.
  unfold by_prediction_desc. rewrite !Qle_bool_iff.
  destruct (Qlt_le_dec a.2 b.2); [right; lra | left; lra].
Qed.

Lemma by_prediction_desc_trans a b c :
  by_prediction_desc a b = true → by_prediction_desc b c = true →
  by_prediction_desc a c = true.
Proof. unfold by_prediction_desc. rewrite !Qle_bool_iff. lra. Qed.

Section comparison.
Context `{Served}.

(** C7. The comparison asks for one prediction per known drug code with
    the code as the only changed field, keeps the codes that could be
    predicted, and is shown sorted by prediction, highest first: at most
    21 rows, no code twice. *)
Theorem comparison_sorted_without_repeats (base_params : gmap string cell) :
  let shown := comparison_df base_params in
  length solute_params = 21%nat
  ∧ (length shown ≤ 21)%nat
  ∧ NoDup ((λ t : string * string * Q, t.1.1) <$> shown)
  ∧ StronglySorted (λ a b : string * string * Q, (b.2 <= a.2)%Q) shown
  ∧ shown ≡ₚ comparison_results base_params
  ∧ (∀ code name p, (code, name, p) ∈ shown →
       code ∈ fst <$> solute_params
       ∧ predict (<["Target_Phar" := CStr code]> base_params) = Ok p)
  ∧ (∀ bars, BarChart bars ∈ comparison_trace base_params → bars = shown).
Proof.
  intros shown. subst shown. unfold comparison_df.
  fold by_prediction_desc.
  pose proof (sort_by_perm by_prediction_desc (comparison_results base_params))
    as Hperm.
  split; [reflexivity|]. split.
  { rewrite Hperm, comparison_results_omap.
    etrans; [apply omap_length_le | done]. }
  split.
  { rewrite Hperm, comparison_results_omap.
    eapply sublist_NoDup; [|apply comparison_codes_sublist].
    apply solute_params_codes_NoDup. }
  split.
  { eapply StronglySorted_weaken; [|apply sort_by_sorted].
    - intros a b. unfold by_prediction_desc. by rewrite Qle_bool_iff.
    - apply by_prediction_desc_total.
    - apply by_prediction_desc_trans. }
  split; [exact Hperm|]. split.
  { intros code name p. rewrite Hperm, comparison_results_omap.
    rewrite list_elem_of_omap. intros ([code' params] & Hin & Hpt).
    unfold comparison_point in Hpt. cbn [fst] in Hpt.
    destruct (predict _) eqn:E; [|done]. injection Hpt as <- _ <-.
    split; [|done]. apply list_elem_of_fmap. by exists (code', params). }
  intros bars [Hin|Hin]%elem_of_app.
  - apply list_elem_of_In, in_flat_map in Hin as (e & _ & Hin).
    destruct Hin as [Hin|Hin]; [done|].
    destruct (predict _); [done|]. by destruct Hin.
  - destruct (comparison_results base_params) eqn:E; [by apply elem_of_nil in Hin|].
    apply list_elem_of_singleton in Hin. injection Hin as ->.
    unfold comparison_df. by rewrite E.
Qed.

End comparison.

Section pore_check.
Context `{Served}.

Lemma pore_violation_true (row : gmap string cell) (t m : num) :
  dict_get row "Total_Pore_Volume(cm3/g)" = CNum t →
  dict_get row "Micropore_Volume(cm3/g)" = CNum m →
  is_nan t = false → is_nan m = false → num_ltb t m = true →
  pore_violation row = true.
Proof.
  intros Ht Hm Hnt Hnm Hlt. unfold pore_violation.
  by rewrite Ht, Hm, Hnt, Hnm, Hlt.
Qed.

(** C10. When the submitted row carries numbers for the total and the
    micropore volume, neither of them NaN, and the micropore volume is the
    larger one, pressing the button ends with an error message followed by
    a stop; before it the page shows at most the missing-fields warning.
    The pipeline is not called and no prediction, comparison or sweep is
    shown. *)
Theorem pore_check_stops_before_predict
    (vals : gmap string cell) (total_pore micro_pore : num) :
  dict_get (build_row vals) "Total_Pore_Volume(cm3/g)" = CNum total_pore →
  dict_get (build_row vals) "Micropore_Volume(cm3/g)" = CNum micro_pore →
  is_nan total_pore = false →
  is_nan micro_pore = false →
  num_ltb total_pore micro_pore = true →
  ∃ warned msg,
    on_submit vals = warned ++ [StError msg; StStop]
    ∧ Forall (λ u, is_warning u = true) warned
    ∧ Forall (λ u, calls_predict u = false ∧ shows_result u = false)
             (on_submit vals).
Proof.
  intros Ht Hm Hnt Hnm Hlt.
  pose proof (pore_violation_true _ _ _ Ht Hm Hnt Hnm Hlt) as Hv.
  unfold on_submit. cbn zeta.
  destruct (negb (truthy (dict_get vals "Target_Phar"))).
  { eexists [], _. split; [reflexivity|]. split; [constructor|].
    by repeat constructor. }
  destruct (negb (truthy (dict_get vals "Activation_Atmosphere"))).
  { eexists [], _. split; [reflexivity|]. split; [constructor|].
    by repeat constructor. }
  rewrite Hv.
  destruct (filter _ _).
  - eexists [], _. split; [reflexivity|]. split; [constructor|].
    by repeat constructor.
  - eexists [_], _. split; [reflexivity|]. split; [by repeat constructor|].
    by repeat constructor.
Qed.

End pore_check.

Lemma pore_check_stops_before_predict_witness :
  ∃ warned msg,
    @on_submit constant_service form_with_large_micropore
    = warned ++ [StError msg; StStop]
    ∧ Forall (λ u, is_warning u = true) warned
    ∧ Forall (λ u, calls_predict u = false ∧ shows_result u = false)
             (@on_submit constant_service form_with_large_micropore).
Proof.
  apply (@pore_check_stops_before_predict constant_service
           form_with_large_micropore (Finite 0.5) (Finite 0.8)).
  - by vm_compute.
  - by vm_compute.
  - reflexivity.
  - reflexivity.
  - reflexivity.
Defined.

(** ** Feature-set resolution *)


Section resolver.
Context `{Runtime} `{Sklearn}.


Lemma length_rows_assign df c (f : cell → cell) :
  length (rows (assign df c (f <$> col df c))) = length (rows df).
Proof.
  unfold assign, col; cbn [rows].
  rewrite length_zip_with, !length_fmap. lia.
Qed.

Lemma length_rows_foldl (f : DataFrame → string → DataFrame) cs :
  (∀ df c, length (rows (f df c)) = length (rows df)) →
  ∀ df, length (rows (foldl f df cs)) = length (rows df).
Proof.
  intros Hf. induction cs as [|c cs IH]; intros df; cbn [foldl]; [done|].
  by rewrite IH, Hf.
Qed.

Lemma length_rows_select df cs : length (rows (select df cs)) = length (rows df).
Proof. unfold select; cbn [rows]. by rewrite length_fmap. Qed.

Lemma length_rows_relabel f df : length (rows (relabel f df)) = length (rows df).
Proof. unfold relabel; cbn [rows]. by rewrite length_fmap. Qed.


End resolver.



(** ** Hyperparameter search *)

Lemma Qltb_false (a b : Q) : Qltb a b = false ↔ (b <= a)%Q.
Proof.
  rewrite <- not_true_iff_false, Qltb_lt.
  split; [apply Qnot_lt_le | apply Qle_not_lt].
Qed.

Lemma best_of_spec (score : gmap string nat → Q) (p0 : gmap string nat)
    (ps : list (gmap string nat)) :
  best_of score p0 ps ∈ p0 :: ps
  ∧ ∀ p, p ∈ p0 :: ps → (score p <= score (best_of score p0 ps))%Q.
Proof.
  unfold best_of. revert p0. induction ps as [|q ps IH]; intros p0.
  - cbn. split; [by apply list_elem_of_singleton|].
    intros p ->%list_elem_of_singleton. lra.
  - cbn [foldl].
    destruct (IH (if Qltb (score p0) (score q) then q else p0)) as [Hin Hmax].
    split.
    + apply elem_of_cons in Hin as [Hin|Hin].
      * rewrite Hin. destruct (Qltb _ _); set_solver.
      * set_solver.
    + intros p Hp.
      assert (score p0 <= score (if Qltb (score p0) (score q) then q else p0)
              ∧ score q <= score (if Qltb (score p0) (score q) then q else p0))%Q
        as [H0 Hq].
      { destruct (Qltb (score p0) (score q)) eqn:E.
        - apply Qltb_lt in E. split; lra.
        - apply Qltb_false in E. split; lra. }
      pose proof (Hmax _ ltac:(apply elem_of_cons; by left)) as Hb.
      apply elem_of_cons in Hp as [->|Hp]; [lra|].
      apply elem_of_cons in Hp as [->|Hp]; [lra|].
      apply Hmax. apply elem_of_cons; by right.
Qed.

Section tuning.
Context {Pipe : Type} `{Search Pipe}.



End tuning.



(** ** The join leaves the rest of the record alone *)

Section join_frame.
Context `{Runtime}.

Lemma get_foldl_coerce_row_other (cols cs : list string) (c : string) :
  ∀ r, c ∉ cs →
       get (foldl (λ r c, coerce_row (inb cols c) c r) r cs) c = get r c.
Proof.
  induction cs as [|c0 cs IH]; intros r Hc; [done|].
  apply not_elem_of_cons in Hc as [Hne Hc]. cbn [foldl].
  rewrite IH by done. by apply get_coerce_row_ne.
Qed.

(** Rows and columns of [clean_pharm_features] on a frame that has all
    five temporary columns. *)
Lemma clean_pharm_features_shape (df : DataFrame) :
  (∀ c', c' ∈ map_cols → has_col df (tmp_name c') = true) →
  rows (clean_pharm_features df)
  = (λ r, foldl (λ r c, coerce_row
                          (inb (columns (drop_column (foldl move_tmp df map_cols)
                                           "pharm_code_norm")) c) c r)
            (delete "pharm_code_norm"
               (foldl (λ r c, move_row true (has_col df c) c r) r map_cols))
            map_cols) <$> rows df
  ∧ ∀ c, c ∈ columns (clean_pharm_features df)
         ↔ (c ∈ map_cols ∨ c ∈ columns df) ∧ (c ∉ tmp_cols)
           ∧ c ≠ "pharm_code_norm".
Proof.
  intros Htmp. unfold clean_pharm_features.
  destruct (foldl_move_tmp map_cols df map_cols_NoDup Htmp) as [Hrows Hcols].
  { intros c1 c2 _ H2. by apply tmp_name_not_descriptor. }
  set (dfm := foldl move_tmp df map_cols) in *.
  set (dfd := drop_column dfm "pharm_code_norm").
  destruct (foldl_rowwise
              (λ d c, if has_col d c then coerce d c else d)
              (λ cols c, coerce_row (inb cols c) c) map_cols) with (df := dfd)
    as [Hr2 Hc2].
  { intros d c'. apply coerce_if_rows. }
  { intros d c'. apply coerce_if_columns. }
  split.
  - rewrite Hr2. unfold dfd at 2, drop_column; cbn [rows].
    by rewrite Hrows, <- !list_fmap_compose.
  - intros c. rewrite Hc2. unfold dfd, drop_column; cbn [columns].
    rewrite list_elem_of_filter, Hcols. unfold tmp_cols. tauto.
Qed.

(** The joined and cleaned frame, record by record. *)
Lemma descriptor_join_shape (df : DataFrame) :
  has_col df "Target_Phar" = true →
  (∀ c', c' ∈ map_cols → has_col df (tmp_name c') = false) →
  let merged := merge_left (with_code df) pharm_merge "pharm_code_norm" in
  add_pharm_features df = Ok merged
  ∧ (∀ c, c ∈ columns (clean_pharm_features merged)
          ↔ (c ∈ map_cols ∨ c ∈ columns df) ∧ c ≠ "pharm_code_norm")
  ∧ ∃ F, rows (clean_pharm_features merged) = F <$> rows df
         ∧ ∀ r c, c ∈ columns df → c ∉ map_cols → c ≠ "pharm_code_norm" →
                  get (F r) c = get r c.
Proof.
  intros HT Hfree merged.
  split; [by apply add_pharm_features_ok|].
  destruct (merge_left_rows (with_code df) pharm_merge "pharm_code_norm")
    as [Hmc Hmr].
  { intros c Hc Hne. apply with_code_columns in Hc as [->|Hc]; [done|].
    apply not_true_iff_false. intros Hp. apply has_col_spec in Hp.
    rewrite pharm_merge_columns in Hp.
    apply elem_of_cons in Hp as [->|Hp]; [done|].
    apply elem_of_tmp_cols in Hp as (x & -> & Hx).
    apply has_col_spec in Hc. by rewrite (Hfree x Hx) in Hc. }
  { apply pharm_merge_keys_NoDup. }
  rewrite pharm_merge_rcols in Hmc, Hmr. fold merged in Hmc, Hmr.
  assert (∀ c', c' ∈ map_cols → has_col merged (tmp_name c') = true) as Htmp.
  { intros c' Hc'. apply has_col_spec. rewrite Hmc, elem_of_app. right.
    apply elem_of_tmp_cols. eauto. }
  destruct (clean_pharm_features_shape merged Htmp) as [Hrows Hcols].
  assert (∀ c, c ∈ columns df → c ∉ tmp_cols) as Hnot_tmp.
  { intros c Hc (x & -> & Hx)%elem_of_tmp_cols.
    apply has_col_spec in Hc. by rewrite (Hfree x Hx) in Hc. }
  assert (∀ c, c ∈ map_cols → c ∉ tmp_cols) as Hdesc_tmp.
  { intros c Hc (x & E & Hx)%elem_of_tmp_cols.
    symmetry in E. by apply tmp_name_not_descriptor in E. }
  split.
  { intros c. rewrite Hcols, Hmc, elem_of_app, with_code_columns.
    split.
    - intros ([?|[[->|?]|?]] & ? & ?); try done; auto.
    - intros ([?|?] & ?); (split; [auto|]); split; auto. }
  eexists. split.
  { rewrite Hrows, Hmr, with_code_rows, <- !list_fmap_compose. reflexivity. }
  intros r c Hc Hnd Hkey. cbn [compose].
  rewrite get_foldl_coerce_row_other by done.
  rewrite get_delete_ne by done.
  rewrite get_foldl_move_row_other; [|done|by apply Hnot_tmp].
  unfold joined_row. rewrite get_list_to_map_app, lookup_list_to_map_keys.
  assert (inb (columns (with_code df)) c = true) as ->.
  { apply inb_spec, with_code_columns. by right. }
  by apply get_insert_ne.
Qed.

(** X1. For a frame with a [Target_Phar] column and none of the temporary
    columns, the descriptor join followed by the cleaning returns a frame
    with one record per input record, in the same order; its columns are
    the input's columns and the five descriptors, without the helper
    column [pharm_code_norm] and without any temporary column; and every
    input column other than the descriptors keeps its value in every
    record. *)
Theorem descriptor_join_keeps_other_fields (df : DataFrame) :
  has_col df "Target_Phar" = true →
  (∀ c', c' ∈ map_cols → has_col df (tmp_name c') = false) →
  ∃ d, add_pharm_features df = Ok d
    ∧ length (rows (clean_pharm_features d)) = length (rows df)
    ∧ (∀ c, c ∈ columns (clean_pharm_features d)
            ↔ (c ∈ map_cols ∨ c ∈ columns df) ∧ c ≠ "pharm_code_norm")
    ∧ (∀ c, c ∈ tmp_cols → c ∉ columns (clean_pharm_features d))
    ∧ (∀ i r, rows df !! i = Some r →
         ∃ r', rows (clean_pharm_features d) !! i = Some r'
           ∧ ∀ c, c ∈ columns df → c ∉ map_cols → c ≠ "pharm_code_norm" →
                  get r' c = get r c).
Proof.
  intros HT Hfree.
  destruct (descriptor_join_shape df HT Hfree)
    as (Hok & Hcols & F & Hrows & Hget).
  eexists. split; [exact Hok|].
  split; [by rewrite Hrows, length_fmap|].
  split; [exact Hcols|]. split.
  - intros c (x & -> & Hx)%elem_of_tmp_cols [[Hin|Hin] _]%Hcols.
    + exact (tmp_name_not_descriptor x _ Hin eq_refl).
    + apply has_col_spec in Hin. by rewrite (Hfree x Hx) in Hin.
  - intros i r Hi. exists (F r).
    split; [by rewrite Hrows, list_lookup_fmap, Hi|].
    intros c. apply Hget.
Qed.

End join_frame.

Lemma descriptor_join_keeps_other_fields_witness :
  ∃ d, @add_pharm_features numeric_runtime df_carried_E = Ok d
    ∧ length (rows (@clean_pharm_features numeric_runtime d)) = 1%nat
    ∧ ∃ r', rows (@clean_pharm_features numeric_runtime d) !! 0%nat = Some r'
            ∧ get r' "Target_Phar" = CStr " cip ".
Proof.
  destruct (@descriptor_join_keeps_other_fields numeric_runtime df_carried_E)
    as (d & Hd & Hlen & _ & _ & Hrow).
  - reflexivity.
  - intros c' Hc'. apply not_true_iff_false. intros Hin.
    apply has_col_spec in Hin. cbn in Hin.
    apply elem_of_cons in Hin as [E|Hin]; [vm_compute in E; discriminate|].
    apply list_elem_of_singleton in Hin.
    apply (tmp_name_not_descriptor c' "E") in Hin; [done|].
    apply elem_of_cons; by left.
  - exists d. split; [exact Hd|]. split; [exact Hlen|].
    destruct (Hrow 0%nat _ eq_refl) as (r' & Hr' & Hget).
    exists r'. split; [exact Hr'|].
    rewrite Hget; [reflexivity|compute_done|compute_done|discriminate].
Defined.

(** ** What [add_elemental_ratios] touches *)

Section ratios_frame.
Context `{Runtime}.

Lemma get_compute_row_other cols r c :
  c ∉ ratio_cols → get (compute_row cols r) c = get r c.
Proof.
  intros Hc. unfold ratio_cols in Hc. set_unfold.
  unfold compute_row, ratio_row.
  repeat match goal with
         | |- context [if ?b then _ else _] => destruct b
         end;
    rewrite ?get_upd_ne by naive_solver; done.
Qed.

Lemma get_clamp_negatives_row_other pre r c :
  c ∉ ratio_cols → get (clamp_negatives_row pre r) c = get r c.
Proof.
  intros Hc. unfold clamp_negatives_row; cbn [foldl ratio_cols].
  unfold ratio_cols in Hc. set_unfold.
  rewrite !get_clamp_row_ne by naive_solver. done.
Qed.

Lemma percent_not_ratio c : c ∈ percent_cols → c ∉ ratio_cols.
Proof.
  unfold percent_cols, ratio_cols. set_unfold.
  intros [->|[->|[->|[->|[->|[]]]]]]; naive_solver.
Qed.

Lemma get_ratios_row_other cols pre r c :
  c ∉ ratio_cols →
  get (ratios_row cols pre r) c = get (coerce_inputs_row cols r) c.
Proof.
  intros Hc. unfold ratios_row. destruct (inb cols "C_percent"); [|done].
  by rewrite get_clamp_negatives_row_other, get_compute_row_other.
Qed.

(** X2. [add_elemental_ratios] returns one record per input record, in the
    same order. In every record the five percentage columns that exist
    hold their value coerced to a number, and every column other than
    the five percentages and the five derived quantities holds what it
    held. *)
Theorem add_elemental_ratios_frame (df : DataFrame) :
  length (rows (add_elemental_ratios df)) = length (rows df)
  ∧ ∀ i r, rows df !! i = Some r →
      ∃ r', rows (add_elemental_ratios df) !! i = Some r'
        ∧ (∀ c, c ∉ percent_cols → c ∉ ratio_cols → get r' c = get r c)
        ∧ (∀ c, c ∈ percent_cols →
                get r' c = if has_col df c then CNum (to_numeric (get r c))
                           else get r c).
Proof.
  split; [by rewrite add_elemental_ratios_rows, length_fmap|].
  intros i r Hi. eexists. split; [by apply add_elemental_ratios_lookup|].
  split.
  - intros c Hp Hr.
    by rewrite get_ratios_row_other, get_coerce_inputs_row_other.
  - intros c Hp.
    rewrite get_ratios_row_other by (by apply percent_not_ratio).
    by rewrite get_coerce_inputs_row, has_col_inb.
Qed.

Lemma has_col_add_elemental_ratios (df : DataFrame) (c : string) :
  has_col (add_elemental_ratios df) c
  = has_col df c
    || (has_col df "C_percent"
        && (bool_decide (c = "C_molar")
            || (has_col df "H_percent" && bool_decide (c = "H_C_molar"))
            || (has_col df "O_percent" && bool_decide (c = "O_C_molar"))
            || (has_col df "N_percent" && bool_decide (c = "N_C_molar"))
            || (has_col df "S_percent" && bool_decide (c = "S_C_molar")))).
Proof.
  destruct (has_col df "C_percent") eqn:HC.
  - rewrite add_elemental_ratios_with_carbon by done.
    destruct (clamp_negatives_rows (compute_ratios (coerce_inputs df)))
      as [_ Hcols].
    rewrite (has_col_inb (clamp_negatives _)), Hcols, <- has_col_inb.
    rewrite has_col_compute_ratios, !has_col_coerce_inputs.
    destruct (has_col df c), (has_col df "H_percent"),
      (has_col df "O_percent"), (has_col df "N_percent"),
      (has_col df "S_percent"), (bool_decide (c = "C_molar")),
      (bool_decide (c = "H_C_molar")), (bool_decide (c = "O_C_molar")),
      (bool_decide (c = "N_C_molar")), (bool_decide (c = "S_C_molar"));
      reflexivity.
  - rewrite add_elemental_ratios_without_carbon by done.
    by rewrite has_col_coerce_inputs, andb_false_l, orb_false_r.
Qed.

(** X3. The columns of the result are the input's columns and, when the
    input has a [C_percent] column, [C_molar] and the ratio of every
    element whose percentage column is present. Nothing else is created,
    and nothing at all without the carbon column. *)
Theorem add_elemental_ratios_columns (df : DataFrame) (c : string) :
  c ∈ columns (add_elemental_ratios df)
  ↔ c ∈ columns df
    ∨ (has_col df "C_percent" = true
       ∧ (c = "C_molar"
          ∨ ∃ X aw, (X, aw, c) ∈ ratio_specs ∧ has_col df X = true)).
Proof.
  rewrite <- !has_col_spec, has_col_add_elemental_ratios.
  rewrite !orb_true_iff, !andb_true_iff, !orb_true_iff, !andb_true_iff,
    !bool_decide_eq_true.
  unfold ratio_specs. split.
  - intros [?|[? [[[[ ->|[? ->]]|[? ->]]|[? ->]]|[? ->]]]]; auto;
      right; (split; [done|]); right; do 2 eexists;
      (split; [|eassumption]);
      repeat first [ apply list_elem_of_here | apply list_elem_of_further ].
  - intros [?|[? [ ->|(X & aw & Hin & HX)]]]; auto 10.
    repeat (apply elem_of_cons in Hin as [E|Hin];
            [injection E as -> -> ->; auto 10|]).
    by apply elem_of_nil in Hin.
Qed.

End ratios_frame.

(** ** Which models are evaluated *)

Section evaluated.
Context {Pipe : Type} (assess : Pipe → Metrics).



End evaluated.

(** ** The model pool *)

Section pool.
Import Estimators Pipelines.
Context {Encoder : Type}.
Implicit Types (have : gmap string bool) (pre_ohe : Encoder)
  (num_feats cat_feats : list string).

Ltac pool_cases have :=
  unfold build_model_pool;
  destruct (have_get have "catboost"), (have_get have "lightgbm"),
    (have_get have "xgboost"), (have_get have "ebm").

Ltac pool_member H :=
  cbn [app] in H;
  repeat (apply elem_of_cons in H as [H|H]; [simplify_eq|]);
  try (by apply elem_of_nil in H).

(** X5. Whatever libraries are installed, the pool has six entries with
    six different names, and HistGBR always has a pipeline. A model has
    a pipeline exactly when its name carries no [(skipped)] mark; every
    pipeline starts with the feature deriver built from the same feature
    lists and ends with its regressor, and the encoder step stands
    between them for HistGBR and EBM only. *)
Theorem build_model_pool_shape have pre_ohe num_feats cat_feats :
  let pool := build_model_pool have pre_ohe num_feats cat_feats in
  length pool = 6%nat
  ∧ NoDup (fst <$> pool)
  ∧ (∃ steps, ("HistGBR", Some steps) ∈ pool)
  ∧ (∀ name, (name, None) ∈ pool → contains "(skipped)" name = true)
  ∧ (∀ name steps, (name, Some steps) ∈ pool →
       contains "(skipped)" name = false
       ∧ ∃ reg,
           (steps = [("fe", Fe (DomainFE_init num_feats cat_feats));
                     ("reg", Reg reg)]
            ∧ name ≠ "HistGBR" ∧ name ≠ "EBM")
           ∨ (steps = [("fe", Fe (DomainFE_init num_feats cat_feats));
                       ("pre", Pre pre_ohe); ("reg", Reg reg)]
              ∧ (name = "HistGBR" ∨ name = "EBM"))).
Proof.
  intros pool. subst pool. split; [by pool_cases have|].
  split; [pool_cases have; cbn; compute_done|].
  split.
  { eexists. pool_cases have; cbn [app];
      repeat first [ apply list_elem_of_here | apply list_elem_of_further ]. }
  split.
  - intros name. pool_cases have; intros Hin; pool_member Hin; reflexivity.
  - intros name steps.
    pool_cases have; intros Hin; pool_member Hin;
      (split; [reflexivity|]); eexists;
      first [ left; split; [reflexivity|]; split; discriminate
            | right; split; [reflexivity|]; auto ].
Qed.





(** X7. Every model of the pool that has a pipeline is found by the
    search under its name and has a search space, so the search never
    passes over a ranked candidate of the pool; a skipped model has no
    pipeline to search. *)
Theorem pool_candidates_are_searchable have pre_ohe num_feats cat_feats :
  let pool := build_model_pool have pre_ohe num_feats cat_feats in
  (∀ name steps, (name, Some steps) ∈ pool →
     name2pipe pool !! name = Some steps
     ∧ get_param_distributions name ≠ [])
  ∧ (∀ name, (name, None) ∈ pool → name2pipe pool !! name = None).
Proof.
  intros pool. subst pool. split.
  - intros name steps.
    pool_cases have; intros Hin; pool_member Hin;
      (split; [vm_compute; reflexivity | vm_compute; discriminate]).
  - intros name.
    pool_cases have; intros Hin; pool_member Hin; vm_compute; reflexivity.
Qed.

End pool.

(** ** Positions of labels *)

Lemma get_loc_lookup (cs : list string) (c : string) :
  c ∈ cs → cs !! get_loc cs c = Some c.
Proof.
  induction cs as [|c' cs IH]; intros Hc; [by apply elem_of_nil in Hc|].
  cbn [get_loc]. case_bool_decide as E; [by subst|].
  apply elem_of_cons in Hc as [->|Hc]; [done|]. by apply IH.
Qed.

Section cat_features.
Import Estimators.

Lemma comprehension_names (cols : list string) (names : list string) :
  match comprehension (columns_get_loc cols) (ByName <$> names) with
  | Ok idx => Forall2 (λ i n, cols !! i = Some n) idx names
  | Raise e => ∃ n, e = KeyError n ∧ n ∈ names ∧ n ∉ cols
  end.
Proof.
  induction names as [|n names IH]; cbn [fmap list_fmap comprehension].
  - constructor.
  - unfold columns_get_loc at 1. destruct (inb cols n) eqn:Hn.
    + apply inb_spec in Hn.
      destruct (comprehension _ _) as [idx|e].
      * constructor; [|exact IH]. by apply get_loc_lookup.
      * destruct IH as (m & -> & Hm & Hno). exists m.
        split; [done|]. split; [by right | done].
    + exists n. split; [done|]. split; [by left|].
      intros Hin%inb_spec. congruence.
Qed.

(** X8. [CatBoostSk.fit] turns a list of categorical column names into
    positions in the frame it is fitted on: looking a position up among
    the columns gives the name back. It raises KeyError, naming a label
    of the list that the frame lacks, exactly when some name is no
    column; it never returns a partial list. *)
Theorem fit_cat_features_positions (cols names : list string) :
  match fit_cat_features cols (Some (ByName <$> names)) with
  | Ok (Some refs) =>
      ∃ idx, refs = ByPos <$> idx
             ∧ Forall2 (λ i n, cols !! i = Some n) idx names
  | Ok None => False
  | Raise e => ∃ n, e = KeyError n ∧ n ∈ names ∧ n ∉ cols
  end
  ∧ (is_ok (fit_cat_features cols (Some (ByName <$> names))) = true
     ↔ ∀ n, n ∈ names → n ∈ cols).
Proof.
  pose proof (comprehension_names cols names) as Hc.
  unfold fit_cat_features.
  destruct names as [|n names]; cbn [fmap list_fmap] in *.
  { split; [|split; [intros _ n Hn; by apply elem_of_nil in Hn | done]].
    exists []. split; [done | constructor]. }
  destruct (comprehension _ _) as [idx|e].
  - split; [by exists idx|]. split; [|done]. intros _ m Hm.
    apply list_elem_of_lookup in Hm as [k Hk].
    destruct (Forall2_lookup_r _ _ _ _ _ Hc Hk) as (i & _ & Hi).
    by apply list_elem_of_lookup_2 in Hi.
  - split; [exact Hc|]. split; [done|]. intros Hall.
    destruct Hc as (m & _ & Hm & Hno). by apply Hall in Hm.
Qed.

End cat_features.

(** ** The prepared data *)

Lemma pick_cons {A} (l : list A) (i : nat) (idx : list nat) :
  pick l (i :: idx)
  = match l !! i with Some x => x :: pick l idx | None => pick l idx end.
Proof. reflexivity. Qed.

Lemma pick_app {A} (l : list A) (idx1 idx2 : list nat) :
  pick l (idx1 ++ idx2) = pick l idx1 ++ pick l idx2.
Proof. apply omap_app. Qed.

Lemma pick_zip {A B} (a : list A) (b : list B) (idx : list nat) :
  length a = length b → pick (zip a b) idx = zip (pick a idx) (pick b idx).
Proof.
  intros Hlen. induction idx as [|i idx IH]; [done|].
  rewrite !pick_cons, IH. rewrite lookup_zip_with.
  destruct (a !! i) as [x|] eqn:Ha; cbn.
  - destruct (lookup_lt_is_Some_2 b i) as [y Hy].
    { rewrite <- Hlen. by eapply lookup_lt_Some. }
    by rewrite Hy.
  - apply lookup_ge_None in Ha. rewrite Hlen in Ha.
    apply lookup_ge_None in Ha. by rewrite Ha.
Qed.

Lemma omap_fmap_compose {A B C} (f : B → option C) (g : A → B)
    (l : list A) :
  omap f (g <$> l) = omap (λ x, f (g x)) l.
Proof.
  induction l as [|x l IH]; [done|]. csimpl. by rewrite IH.
Qed.

Lemma pick_all {A} (l : list A) : pick l (seq 0 (length l)) = l.
Proof.
  unfold pick. induction l as [|x l IH]; [done|].
  cbn [length seq omap list_omap lookup list_lookup].
  rewrite <- fmap_S_seq, omap_fmap_compose. f_equal. exact IH.
Qed.

Lemma pick_length {A} (l : list A) (idx : list nat) :
  Forall (λ i, (i < length l)%nat) idx → length (pick l idx) = length idx.
Proof.
  induction 1 as [|i idx Hi _ IH]; [done|].
  rewrite pick_cons. destruct (lookup_lt_is_Some_2 l i Hi) as [x ->].
  cbn. by rewrite IH.
Qed.

Section split.
Context `{Sklearn}.

(** The parts of a split, when the seeded shuffle is a permutation of
    the positions. *)
Lemma train_test_split_parts {A B} (X : list A) (y : list B)
    (Xtr Xte : list A) (ytr yte : list B) :
  length X = length y →
  shuffle (length X) ≡ₚ seq 0 (length X) →
  train_test_split X y = Ok (Xtr, Xte, ytr, yte) →
  zip Xte yte ++ zip Xtr ytr ≡ₚ zip X y
  ∧ length Xte = ((length X + 4) / 5)%nat
  ∧ length Xtr = (length X - (length X + 4) / 5)%nat
  ∧ length ytr = length Xtr ∧ length yte = length Xte.
Proof.
  intros Hlen Hperm. unfold train_test_split. cbn zeta.
  set (n := length X) in *. set (n_test := ((n + 4) / 5)%nat).
  destruct (Nat.eqb_spec (n - n_test) 0) as [E|E]; [done|].
  intros [= <- <- <- <-].
  assert (length (shuffle n) = n) as Hsl.
  { by rewrite Hperm, length_seq. }
  assert (n_test ≤ n)%nat as Hle by lia.
  assert (take (n - n_test) (drop n_test (shuffle n)) = drop n_test (shuffle n))
    as Hrest.
  { apply take_ge. rewrite length_drop. lia. }
  rewrite Hrest.
  assert (Forall (λ i, (i < n)%nat) (shuffle n)) as Hrange.
  { rewrite Hperm. apply Forall_forall. intros i Hi.
    apply list_elem_of_lookup in Hi as [k Hk].
    apply lookup_seq in Hk. lia. }
  assert (Forall (λ i, (i < n)%nat) (take n_test (shuffle n))) as Hr1
    by (by apply Forall_take).
  assert (Forall (λ i, (i < n)%nat) (drop n_test (shuffle n))) as Hr2
    by (by apply Forall_drop).
  split.
  - rewrite <- !pick_zip by done. rewrite <- pick_app, take_drop.
    assert (length (zip X y) = n) as Hz.
    { rewrite length_zip_with_l_eq; done. }
    unfold pick. rewrite Hperm. fold (pick (zip X y) (seq 0 n)).
    by rewrite <- Hz, pick_all.
  - rewrite !pick_length; rewrite <- ?Hlen; try done.
    rewrite length_take, length_drop. lia.
Qed.

End split.

Section prepared.
Context `{Runtime} `{Sklearn}.

Lemma prepare_ml_data_inv (df : DataFrame) (target_col : string)
    (d : MLData) :
  prepare_ml_data df target_col = Ok d →
  target_col ∈ strip <$> columns df
  ∧ ¬ (resolved_num_feats df = [] ∧ resolved_cat_feats df = [])
  ∧ ml_num_feats d = resolved_num_feats df
  ∧ ml_cat_feats d = resolved_cat_feats df
  ∧ cat_idx_raw d
    = get_loc (resolved_num_feats df ++ resolved_cat_feats df)
        <$> resolved_cat_feats df
  ∧ train_test_split (rows (feature_frame df target_col))
                     (col (typed_frame df target_col) target_col)
    = Ok (X_train d, X_test d, y_train d, y_test d).
Proof.
  unfold prepare_ml_data, feature_frame, typed_frame. cbn zeta.
  change (columns (relabel strip df)) with (strip <$> columns df).
  fold (resolved_num_feats df) (missing_num_feats df).
  assert (has_col (relabel strip df) "Activation_Atmosphere"
          = bool_decide ("Activation_Atmosphere" ∈ strip <$> columns df))
    as Hatm.
  { apply eq_true_iff_eq. by rewrite has_col_spec, bool_decide_eq_true. }
  assert ((if has_col (relabel strip df) "Activation_Atmosphere"
           then ["Activation_Atmosphere"] else [])
          = resolved_cat_feats df) as ->.
  { unfold resolved_cat_feats. by rewrite Hatm. }
  destruct (has_col (relabel strip df) target_col) eqn:Ht; cbn [negb];
    [|done].
  assert (target_col ∈ strip <$> columns df) as Hin
    by (by apply (has_col_spec (relabel strip df))).
  destruct (bool_decide (resolved_num_feats df = [])
            && bool_decide (resolved_cat_feats df = [])) eqn:Hempty; [done|].
  assert (¬ (resolved_num_feats df = [] ∧ resolved_cat_feats df = []))
    as Hfeat.
  { intros [E1 E2]. rewrite E1, E2 in Hempty. done. }
  destruct (train_test_split _ _) as [[[[Xtr Xte] ytr] yte]|e]; [|done].
  intros [= <-]. done.
Qed.

Lemma length_rows_typed_frame (df : DataFrame) (target_col : string) :
  length (rows (typed_frame df target_col)) = length (rows df).
Proof.
  unfold typed_frame.
  rewrite !length_rows_foldl, length_rows_relabel; [done|..];
    intros; apply length_rows_assign.
Qed.


(** X10. When the seeded shuffle is a permutation of the row positions,
    the split of [prepare_ml_data] loses and repeats nothing: train and
    test part together are a rearrangement of the prepared records, each
    feature row still paired with its own target value. The test part
    has a fifth of the records, rounded up, and the train part the others. *)
Theorem prepare_ml_data_split (df : DataFrame) (target_col : string)
    (d : MLData) :
  shuffle (length (rows df)) ≡ₚ seq 0 (length (rows df)) →
  prepare_ml_data df target_col = Ok d →
  zip (X_test d) (y_test d) ++ zip (X_train d) (y_train d)
  ≡ₚ zip (rows (feature_frame df target_col))
         (col (typed_frame df target_col) target_col)
  ∧ length (X_test d) = ((length (rows df) + 4) / 5)%nat
  ∧ length (X_train d) = (length (rows df) - (length (rows df) + 4) / 5)%nat
  ∧ length (y_train d) = length (X_train d)
  ∧ length (y_test d) = length (X_test d).
Proof.
  intros Hperm Hd.
  destruct (prepare_ml_data_inv df target_col d Hd)
    as (_ & _ & _ & _ & _ & Hsplit).
  assert (length (rows (feature_frame df target_col)) = length (rows df))
    as Hlen.
  { unfold feature_frame. by rewrite length_rows_select, length_rows_typed_frame. }
  assert (length (col (typed_frame df target_col) target_col)
          = length (rows df)) as Hleny.
  { unfold col. by rewrite length_fmap, length_rows_typed_frame. }
  assert (length (rows (feature_frame df target_col))
          = length (col (typed_frame df target_col) target_col)) as Heq
    by (by rewrite Hlen, Hleny).
  rewrite <- Hlen in Hperm |- *.
  exact (train_test_split_parts _ _ _ _ _ _ Heq Hperm Hsplit).
Qed.

End prepared.


Lemma prepare_ml_data_split_witness :
  ∃ d, @prepare_ml_data numeric_runtime identity_shuffle df_five_rows
         "qe(mg/g)" = Ok d
       ∧ length (X_test d) = 1%nat ∧ length (X_train d) = 4%nat.
Proof.
  destruct (@prepare_ml_data numeric_runtime identity_shuffle df_five_rows
              "qe(mg/g)") as [d|e] eqn:Hd; [|by vm_compute in Hd].
  destruct (@prepare_ml_data_split numeric_runtime identity_shuffle
              df_five_rows "qe(mg/g)" d) as (_ & Hte & Htr & _).
  - reflexivity.
  - exact Hd.
  - exists d. split; [done|]. split; [exact Hte | exact Htr].
Defined.

(** ** The feature deriver *)



Section deriver.
Context `{Runtime}.






End deriver.


(** ** The search report *)

Section report.
Context {Pipe : Type} `{Search Pipe}.

Lemma randomized_search_score (estimator : Pipe)
    (dist : list (string * grid)) (n_iter : nat) (random_state : Z)
    (r : SearchResult) :
  randomized_search estimator dist n_iter random_state = Ok r →
  best_params_ r ∈ sampler dist n_iter random_state
  ∧ best_score_ r = cv_mean_r2 estimator (best_params_ r)
  ∧ best_estimator_ r = refit estimator (best_params_ r).
Proof.
  unfold randomized_search.
  destruct (sampler dist n_iter random_state) as [|p0 ps]; [done|].
  intros [= <-]. cbn. split; [|done].
  apply (best_of_spec (cv_mean_r2 estimator) p0 ps).
Qed.

Lemma hpo_loop_report (n2p : gmap string Pipe) (n_iter : nat)
    (random_state : Z) (cands : list string) :
  ∀ (best : option Best) (hp : list HpRow) best' hp',
    report_inv n2p best hp →
    hpo_loop n2p n_iter random_state cands best hp = Ok (best', hp') →
    report_inv n2p best' hp'
    ∧ hp_model <$> hp' = (hp_model <$> hp) ++ cands.
Proof.
  induction cands as [|cand cands IH]; intros best hp best' hp' Hinv;
    cbn [hpo_loop].
  { intros [= <- <-]. by rewrite app_nil_r. }
  destruct Hinv as (Hmax & Hbest & Hnone).
  assert (∀ row0 : HpRow,
            hp_model row0 = cand → hp_cv_r2 row0 = None →
            passed_over n2p cand →
            report_inv n2p best (hp ++ [row0])) as Hskip.
  { intros row0 Hm Hs Hp. split; [|split].
    - intros row s [Hin|Hin]%elem_of_app Hrow; [by eapply Hmax|].
      apply list_elem_of_singleton in Hin as ->. congruence.
    - intros b Hb. destruct (Hbest b Hb) as (row & Hin & ?).
      exists row. split; [apply elem_of_app; by left | done].
    - intros row [Hin|Hin]%elem_of_app; [by apply Hnone|].
      apply list_elem_of_singleton in Hin as ->. by rewrite Hm. }
  destruct (n2p !! cand) as [base_pipe|] eqn:Hpipe.
  2:{ intros Hrun. apply IH in Hrun as [Hinv' Hnames].
      - split; [exact Hinv'|].
        rewrite Hnames, fmap_app, <- app_assoc. done.
      - apply Hskip; [done|done|by left]. }
  destruct (get_param_distributions cand) as [|kg dist] eqn:Hdist.
  { intros Hrun. apply IH in Hrun as [Hinv' Hnames].
    - split; [exact Hinv'|].
      rewrite Hnames, fmap_app, <- app_assoc. done.
    - apply Hskip; [done|done|by right]. }
  destruct (randomized_search base_pipe (kg :: dist) n_iter random_state)
    as [rsearch|e] eqn:Hsearch; [|done].
  intros Hrun. apply IH in Hrun as [Hinv' Hnames].
  { split; [exact Hinv'|]. rewrite Hnames, fmap_app, <- app_assoc. done. }
  set (row0 := {| hp_model := cand; hp_cv_r2 := Some (best_score_ rsearch);
                  hp_best_params := Some (best_params_ rsearch) |}).
  assert (¬ passed_over n2p cand) as Hused.
  { intros [E|E]; congruence. }
  split; [|split].
  - intros row s [Hin|Hin]%elem_of_app Hrow.
    + destruct (Hmax row s Hin Hrow) as (b & -> & Hle).
      destruct (Qltb (best_score b) (best_score_ rsearch)) eqn:E.
      * apply Qltb_lt in E. eexists. split; [done|]. cbn. lra.
      * by exists b.
    + apply list_elem_of_singleton in Hin as ->. cbn in Hrow.
      injection Hrow as <-.
      destruct best as [b|]; cbn.
      * destruct (Qltb (best_score b) (best_score_ rsearch)) eqn:E.
        -- eexists. split; [done|]. cbn. lra.
        -- apply Qltb_false in E. by exists b.
      * eexists. split; [done|]. cbn. lra.
  - intros b Hb.
    assert (b = {| Tuning.best_name := cand;
                   Tuning.best_pipe := best_estimator_ rsearch;
                   best_score := best_score_ rsearch;
                   best_best_params := best_params_ rsearch |}
            ∨ best = Some b) as [->|Hold].
    { destruct best as [b0|]; cbn in Hb.
      - destruct (Qltb _ _); injection Hb as <-; auto.
      - injection Hb as <-; auto. }
    + exists row0. split; [|done].
      apply elem_of_app; right. by apply list_elem_of_singleton.
    + destruct (Hbest b Hold) as (row & Hin & ?).
      exists row. split; [apply elem_of_app; by left | done].
  - intros row [Hin|Hin]%elem_of_app; [by apply Hnone|].
    apply list_elem_of_singleton in Hin as ->. cbn. split; [done|].
    intros Hp. by destruct Hused.
Qed.

(** X13. When [run_hpo_top2] returns, its report has one line for each
    of the first two models of the ranking, in ranking order, and never
    more. A line carries no score exactly when the model has no pipeline
    under its name or no search space; the winner is one of the scored
    lines, with that line's score and parameters; and no line of the
    report scores higher than the winner. *)
Theorem run_hpo_top2_report (models : list (string * option Pipe))
    (res_sorted : list ResultRow) (random_state : Z) (n_iter : nat)
    (best : Best) (hp_results : list HpRow) :
  run_hpo_top2 models res_sorted random_state n_iter = Ok (best, hp_results) →
  hp_model <$> hp_results = model <$> take 2 res_sorted
  ∧ (∃ row, row ∈ hp_results ∧ hp_model row = Tuning.best_name best
            ∧ hp_cv_r2 row = Some (best_score best)
            ∧ hp_best_params row = Some (best_best_params best))
  ∧ (∀ row s, row ∈ hp_results → hp_cv_r2 row = Some s →
              (s <= best_score best)%Q)
  ∧ (∀ row, row ∈ hp_results →
       hp_cv_r2 row = None
       ↔ passed_over (name2pipe models) (hp_model row)).
Proof.
  unfold run_hpo_top2. destruct res_sorted as [|r0 rest]; [done|].
  set (top2 := model <$> take 2 (r0 :: rest)).
  destruct (hpo_loop (name2pipe models) n_iter random_state top2 None [])
    as [[[b|] hp]|e] eqn:Hloop; [|done|done].
  intros [= <- <-].
  destruct (hpo_loop_report (name2pipe models) n_iter random_state top2
              None [] (Some b) hp) as [(Hmax & Hbest & Hnone) Hnames].
  { split; [|split].
    - intros row s Hin. by apply elem_of_nil in Hin.
    - done.
    - intros row Hin. by apply elem_of_nil in Hin. }
  { exact Hloop. }
  split; [exact Hnames|]. split; [by apply Hbest|].
  split; [|exact Hnone].
  intros row s Hin Hs. destruct (Hmax row s Hin Hs) as (b' & [= <-] & Hle).
  exact Hle.
Qed.

Lemma hpo_loop_passed_over (n2p : gmap string Pipe) (n_iter : nat)
    (random_state : Z) (cands : list string) :
  Forall (passed_over n2p) cands →
  ∀ best hp, ∃ hp',
    hpo_loop n2p n_iter random_state cands best hp = Ok (best, hp').
Proof.
  induction 1 as [|cand cands Hc _ IH]; intros best hp; cbn [hpo_loop].
  { by eexists. }
  destruct (n2p !! cand) as [base_pipe|] eqn:Hpipe; [|apply IH].
  destruct Hc as [Hc|Hc]; [congruence|]. rewrite Hc. apply IH.
Qed.

(** X14. [run_hpo_top2] raises RuntimeError on an empty ranking, and
    also when the search passes over every one of the first two ranked
    models, for want of a pipeline under the name or of a search space:
    it never returns without a winner. *)
Theorem run_hpo_top2_without_winner (models : list (string * option Pipe))
    (res_sorted : list ResultRow) (random_state : Z) (n_iter : nat) :
  (res_sorted = [] →
   run_hpo_top2 models res_sorted random_state n_iter
   = Raise (RuntimeError "run_hpo_top2: results_sorted boş."))
  ∧ (res_sorted ≠ [] →
     Forall (passed_over (name2pipe models)) (model <$> take 2 res_sorted) →
     run_hpo_top2 models res_sorted random_state n_iter
     = Raise (RuntimeError
                "run_hpo_top2: HPO sonucunda uygun bir model çıkmadı.")).
Proof.
  split; [by intros ->|].
  intros Hne Hall. unfold run_hpo_top2.
  destruct res_sorted as [|r0 rest]; [done|].
  destruct (hpo_loop_passed_over _ n_iter random_state _ Hall None [])
    as [hp' ->]. done.
Qed.

End report.

Lemma run_hpo_top2_report_witness :
  ∃ best hp_results,
    @run_hpo_top2 _ narrow_search two_pipes ranked_two 42 3
    = Ok (best, hp_results)
    ∧ hp_model <$> hp_results = ["CatBoost"; "HistGBR"]
    ∧ ∀ row s, row ∈ hp_results → hp_cv_r2 row = Some s →
               (s <= best_score best)%Q.
Proof.
  destruct (@run_hpo_top2 _ narrow_search two_pipes ranked_two 42 3)
    as [[best hp]|e] eqn:Hrun; [|vm_compute in Hrun; discriminate].
  destruct (@run_hpo_top2_report _ narrow_search two_pipes ranked_two 42 3
              best hp Hrun) as (Hnames & _ & Hmax & _).
  exists best, hp. split; [reflexivity|]. split; [exact Hnames | exact Hmax].
Defined.

(** ** What the page asks of the pipeline *)

Section asked.
Context `{Served}.

Lemma sweep_trace_predict base_params target field grid row :
  PipePredict row ∈ sweep_trace base_params target field grid →
  ∃ v, v ∈ grid ∧ row = test_row base_params target field v.
Proof.
  unfold sweep_trace. intros [Hin|Hin]%elem_of_app.
  - apply list_elem_of_fmap in Hin as (v & [= ->] & Hv). by exists v.
  - destruct (sweep _ _ _ _); [by apply elem_of_nil in Hin|].
    by apply list_elem_of_singleton in Hin.
Qed.

Lemma comparison_trace_predict base_params row :
  PipePredict row ∈ comparison_trace base_params →
  ∃ code, code ∈ fst <$> solute_params
          ∧ row = <["Target_Phar" := CStr code]> base_params.
Proof.
  unfold comparison_trace. intros [Hin|Hin]%elem_of_app.
  - apply list_elem_of_In, in_flat_map in Hin as (e & He & Hin).
    apply list_elem_of_In in He.
    destruct Hin as [[= <-]|Hin].
    + exists e.1. split; [|done]. apply list_elem_of_fmap. by exists e.
    + destruct (predict _); [done|]. by destruct Hin.
  - destruct (comparison_results _); [by apply elem_of_nil in Hin|].
    by apply list_elem_of_singleton in Hin.
Qed.

Lemma filter_none {A} (P : A → Prop) `{∀ x, Decision (P x)} (l : list A) :
  Forall (λ x, ¬ P x) l → filter P l = [].
Proof.
  induction 1 as [|x l Hx _ IH]; [done|].
  by rewrite filter_cons_False.
Qed.

Lemma warned_only_warns (missing : list string) :
  Forall (λ u, is_warning u = true)
    match missing with
    | [] => []
    | _ :: _ =>
        [StWarning "Uyarı: Bazı alanlar boş. Model tahmin yapacak ancak sonuç eksik veriden etkilenebilir."]
    end.
Proof. destruct missing; by repeat constructor. Qed.

(** The page as a function of the tests it makes. *)
Lemma on_submit_accepted (vals : gmap string cell) :
  accepted vals = true →
  ∃ warned name,
    Forall (λ u, is_warning u = true) warned
    ∧ selected_display vals = Some name
    ∧ on_submit vals
      = warned ++ [StInfo name; PipePredict (build_row vals)]
        ++ match predict (build_row vals) with
           | Raise e => [StError (failure_message e)]
           | Ok yhat =>
               let base_params := delete "Target_Phar" (build_row vals) in
               let target := dict_get vals "Target_Phar" in
               [StSuccess yhat]
               ++ comparison_trace base_params
               ++ sweep_trace base_params target "Agent/Sample(g/g)" agent_ratios
               ++ sweep_trace base_params target "Soaking_Time(min)" soaking_times
               ++ sweep_trace base_params target "Activation_Time(min)" activation_times
               ++ sweep_trace base_params target "Activation_Temp(K)" activation_temps
               ++ sweep_trace base_params target "Initial_Concentration(mg/L)" concentrations
               ++ sweep_trace base_params target "Temperature(K)" temperatures
               ++ sweep_trace base_params target "Solution_pH" ph_values
               ++ sweep_trace base_params target "Dosage(g/L)" dosages
               ++ sweep_trace base_params target "Contact_Time(min)" contact_times
           end.
Proof.
  unfold accepted. rewrite !andb_true_iff, negb_true_iff, bool_decide_eq_true.
  intros [[[Hd Ha] Hp] [name Hn]].
  unfold on_submit. cbn zeta. rewrite Hd, Ha, Hp. cbn [negb].
  unfold selected_display in Hn. rewrite Hn.
  eexists _, name. split; [apply warned_only_warns|].
  split; [done|]. reflexivity.
Qed.

Lemma on_submit_rejected (vals : gmap string cell) :
  accepted vals = false →
  ∀ u, u ∈ on_submit vals → calls_predict u = false ∧ shows_result u = false.
Proof.
  unfold accepted, on_submit. cbn zeta.
  destruct (truthy (dict_get vals "Target_Phar")); cbn [negb andb].
  2:{ intros _ u Hu. repeat (apply elem_of_cons in Hu as [->|Hu]; [done|]).
      by apply elem_of_nil in Hu. }
  destruct (truthy (dict_get vals "Activation_Atmosphere")); cbn [negb andb].
  2:{ intros _ u Hu. repeat (apply elem_of_cons in Hu as [->|Hu]; [done|]).
      by apply elem_of_nil in Hu. }
  assert (∀ (missing : list string) u,
            u ∈ match missing with
                | [] => []
                | _ :: _ =>
                    [StWarning "Uyarı: Bazı alanlar boş. Model tahmin yapacak ancak sonuç eksik veriden etkilenebilir."]
                end →
            calls_predict u = false ∧ shows_result u = false) as Hw.
  { intros [|? ?] u Hu; [by apply elem_of_nil in Hu|].
    by apply list_elem_of_singleton in Hu as ->. }
  destruct (pore_violation (build_row vals)); cbn [negb andb].
  { intros _ u [Hu|Hu]%elem_of_app; [by eapply Hw|].
    repeat (apply elem_of_cons in Hu as [->|Hu]; [done|]).
    by apply elem_of_nil in Hu. }
  unfold selected_display.
  destruct (match dict_get vals "Target_Phar" with
            | CStr code => display_name code
            | _ => None
            end) as [name|].
  { rewrite bool_decide_eq_true_2 by (by eexists). done. }
  intros _ u [Hu|Hu]%elem_of_app; [by eapply Hw|].
  by apply list_elem_of_singleton in Hu as ->.
Qed.

(** X15. The page calls the pipeline exactly when a drug and an
    atmosphere are chosen, the pore volumes are consistent and the drug
    map knows the drug; empty numeric fields only add a warning. The
    first call is then made with the submitted record itself. In every
    other case nothing is predicted and no result or chart is shown. *)
Theorem on_submit_predicts_iff_accepted (vals : gmap string cell) :
  ((∃ u, u ∈ on_submit vals ∧ calls_predict u = true)
   ↔ accepted vals = true)
  ∧ (accepted vals = true →
     head (filter (λ u, calls_predict u = true) (on_submit vals))
     = Some (PipePredict (build_row vals)))
  ∧ (accepted vals = false →
     ∀ u, u ∈ on_submit vals → shows_result u = false).
Proof.
  split; [split|split].
  - intros (u & Hu & Hp). destruct (accepted vals) eqn:E; [done|].
    destruct (on_submit_rejected vals E u Hu) as [Hno _]. congruence.
  - intros Hacc.
    destruct (on_submit_accepted vals Hacc) as (warned & name & _ & _ & ->).
    exists (PipePredict (build_row vals)). split; [|done].
    apply elem_of_app; right. apply elem_of_cons; right.
    apply elem_of_cons; by left.
  - intros Hacc.
    destruct (on_submit_accepted vals Hacc) as (warned & name & Hw & _ & ->).
    rewrite filter_app.
    rewrite (filter_none _ warned).
    2:{ eapply Forall_impl; [exact Hw|]. by intros [] ?. }
    cbn [app]. rewrite filter_cons_False by done.
    by rewrite filter_cons_True.
  - intros Hrej u Hu. by apply (on_submit_rejected vals Hrej).
Qed.

(** X16. Every record the page hands to the pipeline agrees with the
    submitted record in every field but the drug code and at most one
    more, one of the nine swept fields: the comparison and the
    sensitivity loops vary one thing at a time and leave the rest of the
    submitted record as it was. *)
Theorem on_submit_varies_one_field (vals : gmap string cell)
    (row : gmap string cell) :
  PipePredict row ∈ on_submit vals →
  ∃ field, field ∈ "Target_Phar" :: swept_fields
           ∧ ∀ k, k ≠ "Target_Phar" → k ≠ field →
                  row !! k = build_row vals !! k.
Proof.
  intros Hin. destruct (accepted vals) eqn:Hacc.
  2:{ by destruct (on_submit_rejected vals Hacc _ Hin). }
  destruct (on_submit_accepted vals Hacc) as (warned & name & Hw & _ & Heq).
  rewrite Heq in Hin. clear Heq.
  apply elem_of_app in Hin as [Hin|Hin].
  { rewrite Forall_forall in Hw. by apply Hw in Hin. }
  apply elem_of_cons in Hin as [Hin|Hin]; [done|].
  apply elem_of_cons in Hin as [[= ->]|Hin].
  { exists "Target_Phar". split; [apply elem_of_cons; by left | done]. }
  destruct (predict (build_row vals)) as [yhat|e].
  2:{ by apply list_elem_of_singleton in Hin. }
  cbn zeta in Hin.
  apply elem_of_cons in Hin as [Hin|Hin]; [done|].
  apply elem_of_app in Hin as [Hin|Hin].
  { apply comparison_trace_predict in Hin as (code & _ & ->).
    exists "Target_Phar". split; [apply elem_of_cons; by left|].
    intros k Hk _. by rewrite lookup_insert_ne, lookup_delete_ne. }
  assert (∀ field grid,
            field ∈ swept_fields →
            PipePredict row
            ∈ sweep_trace (delete "Target_Phar" (build_row vals))
                (dict_get vals "Target_Phar") field grid →
            ∃ field, field ∈ "Target_Phar" :: swept_fields
                     ∧ ∀ k, k ≠ "Target_Phar" → k ≠ field →
                            row !! k = build_row vals !! k) as Hsweep.
  { intros field grid Hf Hs.
    apply sweep_trace_predict in Hs as (v & _ & ->).
    exists field. split; [apply elem_of_cons; by right|].
    intros k Hk Hkf. unfold test_row.
    by rewrite lookup_insert_ne, lookup_insert_ne, lookup_delete_ne. }
  repeat (apply elem_of_app in Hin as [Hin|Hin];
          [eapply Hsweep; [|exact Hin]; unfold swept_fields;
           repeat first [ apply list_elem_of_here
                        | apply list_elem_of_further ]|]).
  eapply Hsweep; [|exact Hin]. unfold swept_fields.
  repeat first [ apply list_elem_of_here | apply list_elem_of_further ].
Qed.


End asked.

Lemma on_submit_varies_one_field_witness :
  let submitted := @build_row constant_service form_minimal in
  let asked := <["Target_Phar" := CStr "APAP"]> (delete "Target_Phar" submitted) in
  PipePredict asked ∈ @on_submit constant_service form_minimal
  ∧ ∃ field, field ∈ "Target_Phar" :: swept_fields
             ∧ ∀ k, k ≠ "Target_Phar" → k ≠ field →
                    asked !! k = submitted !! k.
Proof.
  intros submitted asked.
  assert (PipePredict asked ∈ @on_submit constant_service form_minimal)
    as Hin.
  { destruct (@on_submit_accepted constant_service form_minimal)
      as (warned & name & _ & _ & ->); [reflexivity|].
    apply elem_of_app; right. do 2 (apply elem_of_cons; right).
    cbn [predict constant_service]. cbn zeta.
    apply elem_of_cons; right. apply elem_of_app; left.
    unfold comparison_trace. apply elem_of_app; left.
    apply list_elem_of_In, in_flat_map.
    exists ("APAP", (1.16, 1.35, 0.49, 0.20, 1.1566)%Q).
    split; [by left | by left]. }
  split; [exact Hin|].
  exact (@on_submit_varies_one_field constant_service form_minimal asked Hin).
Defined.


(** ** Reading the form *)

Lemma is_space_comma (a : ascii) :
  is_space (if Ascii.eqb a "," then "."%char else a) = is_space a.
Proof. destruct (Ascii.eqb_spec a ","%char) as [->|]; done. Qed.

Lemma lstrip_replace_comma (s : string) :
  lstrip (replace_comma s) = replace_comma (lstrip s).
Proof.
  induction s as [|a s IH]; [done|]. cbn [replace_comma lstrip].
  rewrite is_space_comma. by destruct (is_space a).
Qed.

Lemma rev_app_replace_comma (s1 s2 : string) :
  String.rev_app (replace_comma s1) (replace_comma s2)
  = replace_comma (String.rev_app s1 s2).
Proof.
  revert s2. induction s1 as [|a s1 IH]; intros s2; [done|].
  cbn [replace_comma String.rev_app]. by rewrite <- IH.
Qed.

Lemma rev_replace_comma (s : string) :
  String.rev (replace_comma s) = replace_comma (String.rev s).
Proof. apply (rev_app_replace_comma s ""). Qed.

Lemma strip_replace_comma (s : string) :
  strip (replace_comma s) = replace_comma (strip s).
Proof.
  unfold strip.
  by rewrite lstrip_replace_comma, rev_replace_comma, lstrip_replace_comma,
    rev_replace_comma.
Qed.

Lemma replace_comma_idemp (s : string) :
  replace_comma (replace_comma s) = replace_comma s.
Proof.
  induction s as [|a s IH]; [done|]. cbn [replace_comma]. rewrite IH.
  f_equal. destruct (Ascii.eqb_spec a ","%char) as [->|]; [done|].
  destruct (Ascii.eqb_spec a ","%char); done.
Qed.

Lemma lstrip_blank (s : string) :
  forallb is_space (list_ascii_of_string s) = true → lstrip s = "".
Proof.
  induction s as [|a s IH]; [done|]. cbn [list_ascii_of_string forallb lstrip].
  intros [-> Hs]%andb_true_iff. by apply IH.
Qed.

Section form.
Context `{Served}.

(** X18. [_to_float_or_none] reads a comma as a decimal point: a text
    and the same text with every comma replaced by a point give the same
    value. A text of blanks only gives None, without the float parser
    being asked, and no text ever gives a text back. *)
Theorem to_float_or_none_reads_commas (txt : string) :
  _to_float_or_none (replace_comma txt) = _to_float_or_none txt
  ∧ (forallb is_space (list_ascii_of_string txt) = true →
     _to_float_or_none txt = CNone)
  ∧ ∀ s, _to_float_or_none txt ≠ CStr s.
Proof.
  unfold _to_float_or_none. split; [|split].
  - by rewrite strip_replace_comma, replace_comma_idemp.
  - intros Hb. unfold strip. by rewrite (lstrip_blank txt Hb).
  - intros s. destruct (String.eqb _ _); [done|].
    by destruct (py_float _).
Qed.


End form.

(** ** Free file names *)

Lemma string_length_app (s t : string) :
  String.length (s +:+ t) = (String.length s + String.length t)%nat.
Proof. induction s as [|a s IH]; simpl; [done|]. f_equal. exact IH. Qed.

Lemma string_app_inj_r (s1 s2 t : string) : s1 +:+ t = s2 +:+ t → s1 = s2.
Proof.
  revert s2. induction s1 as [|a s1 IH]; intros [|b s2] E.
  - done.
  - apply (f_equal String.length) in E.
    rewrite !string_length_app in E. cbn [String.length] in E. lia.
  - apply (f_equal String.length) in E.
    rewrite !string_length_app in E. cbn [String.length] in E. lia.
  - simpl in E. injection E as -> E. f_equal. by apply IH.
Qed.

Section unique_path.
Import Paths.

Lemma versioned_inj (p : Path) (j k : nat) :
  path_text (versioned p j) = path_text (versioned p k) → j = k.
Proof.
  unfold path_text, versioned; cbn [parent name]. intros E.
  do 4 apply String.app_inj in E.
  apply string_app_inj_r in E. by apply pretty_nat_inj in E.
Qed.

Lemma first_free_Some (fs : gset string) (p : Path) (fuel : nat) :
  ∀ k q, first_free fs p k fuel = Some q →
    ∃ j, (k ≤ j < k + fuel)%nat ∧ q = versioned p j
         ∧ exists_ fs q = false
         ∧ ∀ i, (k ≤ i < j)%nat → exists_ fs (versioned p i) = true.
Proof.
  induction fuel as [|fuel IH]; intros k q; cbn [first_free]; [done|].
  destruct (exists_ fs (versioned p k)) eqn:E; cbn [negb].
  - intros Hq. destruct (IH _ _ Hq) as (j & Hj & -> & Hfree & Hbusy).
    exists j. split; [lia|]. split; [done|]. split; [done|].
    intros i Hi. destruct (decide (i = k)) as [->|]; [done|].
    apply Hbusy. lia.
  - intros [= <-]. exists k. split; [lia|]. split; [done|].
    split; [done|]. intros i Hi. lia.
Qed.

Lemma first_free_None (fs : gset string) (p : Path) (fuel : nat) :
  ∀ k, first_free fs p k fuel = None →
       ∀ i, (k ≤ i < k + fuel)%nat → exists_ fs (versioned p i) = true.
Proof.
  induction fuel as [|fuel IH]; intros k Hn i Hi; [lia|].
  cbn [first_free] in Hn.
  destruct (exists_ fs (versioned p k)) eqn:E; cbn [negb] in Hn; [|done].
  destruct (decide (i = k)) as [->|]; [done|]. apply (IH _ Hn). lia.
Qed.

(** A finite file system cannot hold more versions than it has files. *)
Lemma versions_bounded (fs : gset string) (p : Path) (k fuel : nat) :
  (∀ i, (k ≤ i < k + fuel)%nat → exists_ fs (versioned p i) = true) →
  (fuel ≤ size fs)%nat.
Proof.
  intros Hall.
  set (l := (λ i, path_text (versioned p i)) <$> seq k fuel).
  assert (NoDup l) as Hnd.
  { apply NoDup_fmap_2; [|apply NoDup_seq].
    intros i j. apply versioned_inj. }
  assert (list_to_set l ⊆ fs) as Hsub.
  { intros x Hx. apply elem_of_list_to_set in Hx.
    apply list_elem_of_fmap in Hx as (i & -> & Hi).
    apply elem_of_seq in Hi.
    specialize (Hall i ltac:(lia)). unfold exists_ in Hall.
    by apply bool_decide_eq_true in Hall. }
  apply subseteq_size in Hsub.
  rewrite size_list_to_set in Hsub by done.
  unfold l in Hsub. by rewrite length_fmap, length_seq in Hsub.
Qed.

(** X20. [_unique_path] always finds a name, within as many turns of its
    loop as there are files plus one, and the path it returns does not
    exist, so saving to it overwrites nothing. It is the given path when
    that is free, and otherwise the numbered variant [stem__vK suffix]
    in the same directory with the least [K] from 2 on that is free. *)
Theorem unique_path_is_free (fuel : nat) (fs : gset string) (p : Path) :
  (size fs < fuel)%nat →
  ∃ q, _unique_path fuel fs p = Some q
    ∧ exists_ fs q = false
    ∧ parent q = parent p
    ∧ (exists_ fs p = false → q = p)
    ∧ (exists_ fs p = true →
       ∃ k, (2 ≤ k)%nat ∧ q = versioned p k
            ∧ name q = stem p +:+ "__v" +:+ pretty k +:+ suffix p
            ∧ ∀ j, (2 ≤ j < k)%nat → exists_ fs (versioned p j) = true).
Proof.
  intros Hfuel. unfold _unique_path.
  destruct (exists_ fs p) eqn:Hp; cbn [negb].
  2:{ exists p. repeat split; done. }
  destruct (first_free fs p 2 fuel) as [q|] eqn:Hq.
  - destruct (first_free_Some _ _ _ _ _ Hq) as (k & Hk & -> & Hfree & Hbusy).
    eexists. split; [done|]. split; [done|]. split; [done|].
    split; [done|]. intros _. exists k. split; [lia|]. done.
  - pose proof (first_free_None _ _ _ _ Hq) as Hall.
    apply versions_bounded in Hall. lia.
Qed.

End unique_path.

Lemma unique_path_is_free_witness :
  ∃ q, Paths._unique_path 3 two_figures fig_path = Some q
       ∧ Paths.exists_ two_figures q = false
       ∧ Paths.name q = "oof_error_bins__PRE__EBM__v3.png".
Proof.
  destruct (unique_path_is_free 3 two_figures fig_path)
    as (q & Hq & Hfree & _).
  - vm_compute. lia.
  - exists q. split; [exact Hq|]. split; [exact Hfree|].
    vm_compute in Hq. by injection Hq as <-.
Defined.

(** ** Out-of-fold errors *)

Section oof.
Import Oof.




(** On an increasing list of edges, the edges that do not exceed [q]
    are the first ones. *)
Lemma count_edges (l : list Q) (q : Q) :
  StronglySorted Qlt l →
  ∀ i e, l !! i = Some e →
    ((i < length (filter (λ e, Qle_bool e q = true) l))%nat ↔ (e <= q)%Q).
Proof.
  induction 1 as [|x l Hs IH Hx]; intros i e Hi; [done|].
  destruct (Qle_bool x q) eqn:E.
  - rewrite filter_cons_True by done. cbn [length].
    destruct i as [|i]; cbn in Hi.
    + injection Hi as <-. apply Qle_bool_iff in E. split; [done|lia].
    + rewrite <- (IH i e Hi). lia.
  - rewrite filter_cons_False by (by rewrite E).
    assert (filter (λ e, Qle_bool e q = true) l = []) as ->.
    { apply filter_none. eapply Forall_impl; [exact Hx|].
      intros y Hy Hle. apply Qle_bool_iff in Hle.
      apply not_true_iff_false in E. apply E, Qle_bool_iff. lra. }
    cbn [length]. split; [lia|]. intros Hle. exfalso.
    apply not_true_iff_false in E. apply E, Qle_bool_iff.
    destruct i as [|i]; cbn in Hi; [by injection Hi as <-|].
    rewrite Forall_forall in Hx.
    specialize (Hx e (list_elem_of_lookup_2 _ _ _ Hi)). lra.
Qed.

Lemma bin_edges_sorted : StronglySorted Qlt bin_edges.
Proof. unfold bin_edges. repeat constructor. Qed.

(** X22. The histogram bin of a percentage error: a value falls in the
    bin of rank [k] exactly when it is finite, at least the [k]-th edge
    and below the next one (the last bin has no upper edge). So every
    finite value from 0 on has one bin, and a negative, an infinite or a
    missing value has none. *)
Theorem cut_bin (x : num) (k : nat) :
  cut x = Some k
  ↔ ∃ q lo, x = Finite q ∧ bin_edges !! k = Some lo ∧ (lo <= q)%Q
            ∧ ∀ hi, bin_edges !! S k = Some hi → (q < hi)%Q.
Proof.
  destruct x as [q| |]; cbn [cut]; [|split; [done|by intros (?&?&?&_)]..].
  pose proof (count_edges bin_edges q bin_edges_sorted) as Hc.
  set (n := length (filter (λ e, Qle_bool e q = true) bin_edges)) in *.
  assert (n ≤ length bin_edges)%nat as Hn by apply length_filter.
  split.
  - destruct n as [|n'] eqn:En; [done|]. intros [= ->].
    destruct (lookup_lt_is_Some_2 bin_edges k ltac:(lia)) as [lo Hlo].
    exists q, lo. split; [done|]. split; [done|].
    split; [apply (Hc k lo Hlo); lia|].
    intros hi Hhi. apply Qnot_le_lt. intros Hle.
    apply (Hc (S k) hi Hhi) in Hle. lia.
  - intros (q' & lo & [= <-] & Hlo & Hle & Hhi).
    apply (Hc k lo Hlo) in Hle.
    destruct n as [|n']; [lia|]. f_equal.
    destruct (decide (n' = k)) as [|Hne]; [done|]. exfalso.
    assert (S k < S n')%nat as Hlt by lia.
    destruct (lookup_lt_is_Some_2 bin_edges (S k) ltac:(lia)) as [hi Hk].
    specialize (Hhi hi Hk). apply (Hc (S k) hi Hk) in Hlt. lra.
Qed.







End oof.


(** ** [add_elemental_ratios] applied to its own result *)

Section ratios_twice.
Context `{Runtime}.

Lemma clamp0_idemp (x : num) : clamp0 (clamp0 x) = clamp0 x.
Proof.
  unfold clamp0. destruct (lt0 x) eqn:E; [by destruct (lt0 zero)|by rewrite E].
Qed.

Lemma get_ratios_row_absent (df : DataFrame) (r : gmap string cell)
    (X : string) (aw : num) (name : string) :
  has_col df "C_percent" = true →
  (X, aw, name) ∈ ratio_specs →
  has_col df X = false →
  get (ratios_row (columns df) (columns (compute_ratios (coerce_inputs df))) r)
      name
  = if has_col df name then CNum (clamp0 (to_numeric (get r name)))
    else get r name.
Proof.
  intros HC HX HhasX.
  destruct (ratio_specs_facts X aw name HX) as (HXp & Hname & Hnp & _).
  unfold ratios_row. rewrite <- has_col_inb, HC.
  rewrite get_clamp_negatives_row by done.
  rewrite <- has_col_inb, (has_col_pre_ratio df X aw name HX), HhasX, orb_false_l.
  rewrite (get_compute_row_ratio _ _ X aw name HX).
  rewrite <- has_col_inb, HhasX.
  by rewrite (get_coerce_inputs_row_other _ _ name Hnp).
Qed.

Lemma has_col_once_percent (df : DataFrame) (X : string) :
  X ∈ percent_cols →
  has_col (add_elemental_ratios df) X = has_col df X.
Proof.
  intros HX. rewrite has_col_add_elemental_ratios.
  unfold percent_cols in HX.
  repeat (apply elem_of_cons in HX as [->|HX];
          [rewrite !bool_decide_eq_false_2 by discriminate;
           by rewrite ?andb_false_r, ?orb_false_r|]).
  by apply elem_of_nil in HX.
Qed.

Lemma has_col_once_ratio (df : DataFrame) (X : string) (aw : num)
    (name : string) :
  (X, aw, name) ∈ ratio_specs →
  has_col (add_elemental_ratios df) name
  = has_col df name || (has_col df "C_percent" && has_col df X).
Proof.
  intros HX. rewrite has_col_add_elemental_ratios.
  unfold ratio_specs in HX.
  repeat (apply elem_of_cons in HX as [E|HX];
          [injection E as -> -> ->;
           rewrite ?(bool_decide_eq_true_2 (_ = _)) by reflexivity;
           rewrite ?bool_decide_eq_false_2 by discriminate;
           by rewrite ?andb_false_r, ?andb_true_r, ?orb_false_r, ?orb_false_l|]).
  by apply elem_of_nil in HX.
Qed.

Lemma has_col_once_C_molar (df : DataFrame) :
  has_col df "C_percent" = true →
  has_col (add_elemental_ratios df) "C_molar" = true.
Proof.
  intros HC. rewrite has_col_add_elemental_ratios, HC.
  rewrite (bool_decide_eq_true_2 ("C_molar" = "C_molar")) by done.
  by rewrite orb_true_r.
Qed.

(** Coercing the inputs of a record whose inputs are coerced changes no
    cell. *)
Lemma coerce_again (cols cols' : list string) (r r1 : gmap string cell)
    (c : string) :
  (∀ X, X ∈ percent_cols → inb cols' X = inb cols X) →
  get r1 c = get (coerce_inputs_row cols r) c →
  get (coerce_inputs_row cols' r1) c = get r1 c.
Proof.
  intros Hflags Heq. destruct (decide (c ∈ percent_cols)) as [Hc|Hc].
  - rewrite get_coerce_inputs_row, Hflags by done.
    rewrite !Heq, get_coerce_inputs_row by done.
    by destruct (inb cols c).
  - by rewrite get_coerce_inputs_row_other.
Qed.

Lemma ratios_row_twice (df : DataFrame) (r : gmap string cell) (c : string) :
  get (ratios_row (columns (add_elemental_ratios df))
         (columns (compute_ratios (coerce_inputs (add_elemental_ratios df))))
         (ratios_row (columns df)
            (columns (compute_ratios (coerce_inputs df))) r)) c
  = get (ratios_row (columns df)
           (columns (compute_ratios (coerce_inputs df))) r) c.
Proof.
  set (once := add_elemental_ratios df).
  set (r1 := ratios_row (columns df) _ r).
  assert (∀ X, X ∈ percent_cols → inb (columns once) X = inb (columns df) X)
    as Hflags.
  { intros X HX. rewrite <- !has_col_inb. by apply has_col_once_percent. }
  assert (∀ X, X ∈ percent_cols →
            get r1 X = if has_col df X then CNum (to_numeric (get r X))
                       else get r X) as Hpct.
  { intros X HX. unfold r1.
    rewrite get_ratios_row_other by (by apply percent_not_ratio).
    by rewrite get_coerce_inputs_row, has_col_inb. }
  assert ("C_percent" ∈ percent_cols) as HCp by apply list_elem_of_here.
  destruct (has_col df "C_percent") eqn:HC.
  - assert (has_col once "C_percent" = true) as HC'.
    { unfold once. by rewrite has_col_once_percent. }
    destruct (decide (c ∈ ratio_cols)) as [Hc|Hc].
    + apply ratio_cols_cases in Hc as [->|(X & aw & HX)].
      * rewrite (get_ratios_row_C_molar once r1 HC').
        unfold once at 1. rewrite (has_col_once_C_molar df HC).
        rewrite (Hpct "C_percent" HCp), HC. cbn [to_numeric].
        unfold r1. rewrite (get_ratios_row_C_molar df r HC).
        destruct (negb _ && _); [done|]. cbn [to_numeric].
        by rewrite clamp0_idemp.
      * destruct (ratio_specs_facts X aw c HX) as (HXp & _ & _ & _).
        destruct (has_col df X) eqn:HhasX.
        -- assert (has_col once X = true) as HhasX'.
           { unfold once. by rewrite has_col_once_percent. }
           rewrite (get_ratios_row_ratio once r1 X aw c HC' HX HhasX').
           unfold once at 1.
           rewrite (has_col_once_ratio df X aw c HX), HC, HhasX, orb_true_r.
           rewrite (Hpct "C_percent" HCp), (Hpct X HXp), HC, HhasX.
           cbn [to_numeric].
           unfold r1. rewrite (get_ratios_row_ratio df r X aw c HC HX HhasX).
           destruct (negb _ && _); [done|]. cbn [to_numeric].
           by rewrite clamp0_idemp.
        -- assert (has_col once X = false) as HhasX'.
           { unfold once. by rewrite has_col_once_percent. }
           rewrite (get_ratios_row_absent once r1 X aw c HC' HX HhasX').
           unfold once at 1.
           rewrite (has_col_once_ratio df X aw c HX), HC, HhasX, orb_false_r.
           unfold r1. rewrite (get_ratios_row_absent df r X aw c HC HX HhasX).
           destruct (has_col df c); [|done]. cbn [to_numeric].
           by rewrite clamp0_idemp.
    + rewrite get_ratios_row_other by done.
      apply (coerce_again (columns df) _ r); [exact Hflags|].
      unfold r1. by rewrite get_ratios_row_other.
  - assert (has_col once "C_percent" = false) as HC'.
    { unfold once. by rewrite has_col_once_percent. }
    rewrite has_col_inb in HC, HC'.
    unfold ratios_row at 1. rewrite HC'.
    apply (coerce_again (columns df) _ r); [exact Hflags|].
    unfold r1, ratios_row. by rewrite HC.
Qed.

Lemma columns_loc_assign_present (df : DataFrame) (m : list bool)
    (c : string) (s : Series) :
  c ∈ columns df → columns (loc_assign df m c s) = columns df.
Proof. intros Hc. unfold loc_assign; cbn [columns]. by apply add_label_present. Qed.

Lemma columns_ratio_present (m : list bool) (d : list num) (df : DataFrame)
    (X : string) (aw : num) (name : string) :
  (has_col df X = true → name ∈ columns df) →
  columns (ratio m d df X aw name) = columns df.
Proof.
  intros Hn. unfold ratio. destruct (has_col df X); [|done].
  by apply columns_loc_assign_present, Hn.
Qed.

Lemma columns_compute_ratios_fixed (df : DataFrame) :
  has_col df "C_molar" = true →
  (∀ X aw name, (X, aw, name) ∈ ratio_specs →
                has_col df X = true → has_col df name = true) →
  columns (compute_ratios df) = columns df.
Proof.
  intros HC Hfix. unfold compute_ratios.
  set (d1 := loc_assign df _ _ _).
  assert (columns d1 = columns df) as H1.
  { apply columns_loc_assign_present. by apply has_col_spec. }
  assert (∀ d X aw name m dn, columns d = columns df →
            (X, aw, name) ∈ ratio_specs →
            columns (ratio m dn d X aw name) = columns df) as Hstep.
  { intros d X aw name m dn Hd HX.
    rewrite columns_ratio_present; [exact Hd|].
    rewrite has_col_inb, Hd, <- has_col_inb. intros HhasX.
    by apply has_col_spec, (Hfix X aw name). }
  unfold ratio_specs in Hstep.
  apply Hstep; [|repeat first [apply list_elem_of_here|apply list_elem_of_further]].
  apply Hstep; [|repeat first [apply list_elem_of_here|apply list_elem_of_further]].
  apply Hstep; [|repeat first [apply list_elem_of_here|apply list_elem_of_further]].
  apply Hstep; [|repeat first [apply list_elem_of_here|apply list_elem_of_further]].
  exact H1.
Qed.

(** X24. Applying [add_elemental_ratios] to its own result changes
    nothing that can be read: the columns and their order are the same,
    the number of records is the same, and every cell of every record
    reads as after the first application. *)
Theorem add_elemental_ratios_twice (df : DataFrame) :
  columns (add_elemental_ratios (add_elemental_ratios df))
  = columns (add_elemental_ratios df)
  ∧ length (rows (add_elemental_ratios (add_elemental_ratios df)))
    = length (rows (add_elemental_ratios df))
  ∧ ∀ i r1 r2 c,
      rows (add_elemental_ratios df) !! i = Some r1 →
      rows (add_elemental_ratios (add_elemental_ratios df)) !! i = Some r2 →
      get r2 c = get r1 c.
Proof.
  set (once := add_elemental_ratios df).
  split; [|split].
  - destruct (has_col once "C_percent") eqn:HC'.
    + rewrite add_elemental_ratios_with_carbon by done.
      destruct (clamp_negatives_rows (compute_ratios (coerce_inputs once)))
        as [_ ->].
      destruct (coerce_inputs_rows once) as [_ Hco].
      rewrite <- Hco. apply columns_compute_ratios_fixed.
      * rewrite has_col_coerce_inputs. apply has_col_once_C_molar.
        unfold once in HC'. by rewrite has_col_once_percent in HC'
          by apply list_elem_of_here.
      * intros X aw name HX. rewrite !has_col_coerce_inputs.
        destruct (ratio_specs_facts X aw name HX) as (HXp & _ & _ & _).
        unfold once in *.
        rewrite has_col_once_percent in HC' by apply list_elem_of_here.
        rewrite (has_col_once_percent df X HXp).
        rewrite (has_col_once_ratio df X aw name HX), HC'.
        intros ->. by rewrite orb_true_r.
    + rewrite add_elemental_ratios_without_carbon by done.
      by destruct (coerce_inputs_rows once) as [_ ->].
  - by rewrite (add_elemental_ratios_rows once), length_fmap.
  - intros i r1 r2 c Hi1 Hi2.
    rewrite (add_elemental_ratios_lookup once i r1 Hi1) in Hi2.
    apply (inj Some) in Hi2. rewrite <- Hi2. clear Hi2 r2.
    pose proof Hi1 as Hi. unfold once in Hi.
    rewrite add_elemental_ratios_rows in Hi.
    apply list_lookup_fmap_Some in Hi as (r & Hr & _).
    rewrite Hr. exact (ratios_row_twice df r c).
Qed.

End ratios_twice.

(** ** The upload tab *)

Section upload.
Import Batch.
Context `{ServedFrame}.

Lemma missing_required_nil (df : DataFrame) :
  filter (λ col, col ∉ columns df) required_cols = []
  ↔ "Target_Phar" ∈ columns df ∧ "Activation_Atmosphere" ∈ columns df.
Proof.
  unfold required_cols. split.
  - intros E.
    destruct (decide ("Target_Phar" ∈ columns df)) as [H1|H1];
      [|by rewrite filter_cons_True in E by done].
    destruct (decide ("Activation_Atmosphere" ∈ columns df)) as [H2|H2];
      [done|].
    rewrite filter_cons_False in E by (intros Hn; by apply Hn).
    by rewrite filter_cons_True in E by done.
  - intros [H1 H2].
    rewrite !filter_cons_False by (intros Hn; by apply Hn). done.
Qed.





Lemma get_assign_row (df : DataFrame) (c : string) (s : Series) (i : nat)
    (r : gmap string cell) (v : cell) :
  rows df !! i = Some r → s !! i = Some v →
  rows (assign df c s) !! i = Some (<[c := v]> r).
Proof.
  intros Hr Hv. unfold assign; cbn [rows].
  by rewrite lookup_zip_with, Hr, Hv.
Qed.

(** X26. When both required columns are there and the pipeline returns
    one prediction per record, the tab reports the number of records and
    offers one table, twice: the uploaded table with the predictions as
    its [Pred_qe] column (the last column, unless the upload had one,
    which is overwritten) and every other cell as uploaded. When the
    number of predictions differs from the number of records, no result
    is shown: the tab ends in a ValueError that nothing catches. *)
Theorem on_upload_output (df : DataFrame) (yhat : list Q) :
  "Target_Phar" ∈ columns df →
  "Activation_Atmosphere" ∈ columns df →
  predict_frame df = Ok yhat →
  if bool_decide (length yhat = length (rows df))
  then
    ∃ out,
      filter (λ u, upload_shows_result u = true) (on_upload df)
      = [ StSuccess (length (rows df)); StDataframe (head 20 out);
          Download "aquaml_predictions.csv" out;
          Download "aquaml_predictions.xlsx" out ]
      ∧ columns out = add_label (columns df) "Pred_qe"
      ∧ length (rows out) = length (rows df)
      ∧ ∀ i r y, rows df !! i = Some r → yhat !! i = Some y →
          ∃ r', rows out !! i = Some r'
            ∧ get r' "Pred_qe" = CNum (Finite y)
            ∧ ∀ c, c ≠ "Pred_qe" → get r' c = get r c
  else
    filter (λ u, upload_shows_result u = true) (on_upload df) = []
    ∧ ∃ msg, last (on_upload df) = Some (Uncaught (ValueError msg)).
Proof.
  intros H1 H2 Hp. unfold on_upload.
  pose proof (proj2 (missing_required_nil df) (conj H1 H2)) as ->.
  unfold align_and_cast. rewrite Hp.
  set (warned := match filter _ (columns df) with [] => [] | _ => _ end).
  assert (filter (λ u, upload_shows_result u = true) warned = []) as Hw.
  { unfold warned. by destruct (filter _ (columns df)). }
  case_bool_decide as Hlen.
  - set (out := assign df "Pred_qe" _).
    assert (length (rows out) = length (rows df)) as Hout.
    { unfold out, assign; cbn [rows].
      rewrite length_zip_with, length_fmap. lia. }
    exists out. split; [|split; [|split]].
    + rewrite filter_cons_False by (cbn; congruence).
      rewrite filter_app, Hw. cbn [app].
      rewrite filter_cons_False by (cbn; congruence).
      rewrite !filter_cons_True by done.
      by rewrite Hout.
    + done.
    + exact Hout.
    + intros i r y Hr Hy.
      exists (<["Pred_qe" := CNum (Finite y)]> r). split; [|split].
      * apply get_assign_row; [done|]. by rewrite list_lookup_fmap, Hy.
      * by rewrite get_insert_eq.
      * intros c Hc. by rewrite get_insert_ne.
  - split.
    + rewrite filter_cons_False by (cbn; congruence).
      rewrite filter_app, Hw. cbn [app].
      by rewrite !filter_cons_False by (cbn; congruence).
    + eexists. rewrite app_comm_cons, last_app. cbn. reflexivity.
Qed.

End upload.

Lemma on_upload_output_witness :
  ∃ out,
    filter (λ u, upload_shows_result u = true)
           (@Batch.on_upload constant_frame_service df_upload)
    = [ Batch.StSuccess 2; Batch.StDataframe (Batch.head 20 out);
        Batch.Download "aquaml_predictions.csv" out;
        Batch.Download "aquaml_predictions.xlsx" out ]
    ∧ columns out = add_label (columns df_upload) "Pred_qe"
    ∧ length (rows out) = 2%nat
    ∧ ∀ i r y, rows df_upload !! i = Some r → [42%Q; 42%Q] !! i = Some y →
        ∃ r', rows out !! i = Some r'
          ∧ get r' "Pred_qe" = CNum (Finite y)
          ∧ ∀ c, c ≠ "Pred_qe" → get r' c = get r c.
Proof.
  apply (@on_upload_output constant_frame_service df_upload [42%Q; 42%Q]).
  - apply list_elem_of_here.
  - apply list_elem_of_further, list_elem_of_here.
  - reflexivity.
Defined.
